(** * Show-Sphere, [static/js/main.js]: the page script

    The script has two parts.  [formatCurrency] is the expression
    ['₹' + parseFloat(amount).toFixed(2)]; the [DOMContentLoaded] handler
    schedules one [setTimeout] per [.alert] element and builds one
    [bootstrap.Tooltip] per [[data-bs-toggle="tooltip"]] element.

    JavaScript Numbers are IEEE 754 binary64 values.  They are represented by
    [spec_float] of the Standard Library with 53 bits of precision; the
    built-ins the script calls ([parseFloat], [Number.prototype.toFixed],
    [Number::toString], string concatenation) are written after ECMA-262.
    Strings are UTF-8 byte strings, as the source file itself is encoded. *)

From Stdlib Require Import ZArith List String Ascii Bool Lia Permutation.
From Stdlib Require Import Floats.SpecFloat.
Import ListNotations.

Open Scope string_scope.
Open Scope Z_scope.

(** ** Numbers *)

Definition prec : Z := 53.
Definition emax : Z := 1024.

Definition number : Type := spec_float.

Definition NaN : number := S754_nan.
Definition Infinity : number := S754_infinity false.

(** The Number value of the rational [N / D] with the sign [neg]
    (ECMA-262 writes it 𝔽(x)): the nearest binary64 value, ties to the even
    mantissa, magnitudes past the largest finite value going to infinity. *)
Definition round_ratio (neg : bool) (N D : Z) : number :=
  match N with
  | Z0 => S754_zero neg
  | Zpos _ =>
      let '(q, e, l) := SFdiv_core_binary prec emax N 0 D 0 in
      binary_round_aux prec emax neg q e l
  | Zneg _ => S754_nan
  end.

(** The Number value of [m * 10 ^ e], for [0 <= m]. *)
Definition number_of_decimal (neg : bool) (m e : Z) : number :=
  if 0 <=? e then round_ratio neg (m * 10 ^ e) 1
  else round_ratio neg m (10 ^ (- e)).

(** A finite Number [m * 2 ^ e] as an exact fraction. *)
Definition numerator (m : positive) (e : Z) : Z :=
  if 0 <=? e then Zpos m * 2 ^ e else Zpos m.

Definition denominator (e : Z) : Z :=
  if 0 <=? e then 1 else 2 ^ (- e).

Definition is_finite (x : number) : bool :=
  match x with
  | S754_zero _ | S754_finite _ _ _ => true
  | _ => false
  end.

Definition is_negative (x : number) : bool :=
  match x with
  | S754_finite s _ _ | S754_infinity s => s
  | _ => false
  end.

(** ** Decimal digits *)

Definition digit_char (d : Z) : ascii :=
  ascii_of_N (Z.to_N (48 + d)).

Definition is_digit (c : ascii) : bool :=
  let n := Z.of_N (N_of_ascii c) in (48 <=? n) && (n <=? 57).

Definition digit_value (c : ascii) : Z :=
  Z.of_N (N_of_ascii c) - 48.

Fixpoint digits_loop (fuel : nat) (n : Z) (acc : string) : string :=
  match fuel with
  | O => acc
  | S fuel' =>
      let acc' := String (digit_char (n mod 10)) acc in
      if n <? 10 then acc' else digits_loop fuel' (n / 10) acc'
  end.

(** The decimal representation of [n], for [0 <= n]; ["0"] for zero. *)
Definition decimal_digits (n : Z) : string :=
  digits_loop (S (Z.to_nat (Z.log2 n))) n "".

(** The mathematical value of a run of decimal digits; 0 for the empty run. *)
Fixpoint digits_value_from (acc : Z) (s : string) : Z :=
  match s with
  | EmptyString => acc
  | String c s' => digits_value_from (10 * acc + digit_value c) s'
  end.

Definition digits_value (s : string) : Z := digits_value_from 0 s.

Fixpoint all_digits (s : string) : bool :=
  match s with
  | EmptyString => true
  | String c s' => is_digit c && all_digits s'
  end.

Fixpoint zeros (n : nat) : string :=
  match n with
  | O => ""
  | S n' => String "0" (zeros n')
  end.

Fixpoint take (n : nat) (s : string) : string :=
  match n, s with
  | S n', String c s' => String c (take n' s')
  | _, _ => ""
  end.

Fixpoint drop (n : nat) (s : string) : string :=
  match n, s with
  | S n', String _ s' => drop n' s'
  | _, _ => s
  end.

Definition len (s : string) : Z := Z.of_nat (String.length s).

(** ** Number::toString (ECMA-262, radix 10) *)

Definition number_eqb (x y : number) : bool :=
  match x, y with
  | S754_zero a, S754_zero b => Bool.eqb a b
  | S754_infinity a, S754_infinity b => Bool.eqb a b
  | S754_nan, S754_nan => true
  | S754_finite a m e, S754_finite b m' e' =>
      Bool.eqb a b && Pos.eqb m m' && (e =? e')
  | _, _ => false
  end.

(** [N / D < 10 ^ j], for positive [N] and [D]. *)
Definition below_pow10 (N D j : Z) : bool :=
  if 0 <=? j then N <? 10 ^ j * D else N * 10 ^ (- j) <? D.

Fixpoint first_above (fuel : nat) (N D j : Z) : Z :=
  match fuel with
  | O => j
  | S fuel' => if below_pow10 N D j then j else first_above fuel' N D (j + 1)
  end.

(** The [n] with [10 ^ (n - 1) <= N / D < 10 ^ n].  The search starts from an
    estimate drawn from the bit lengths, which lies at most four below. *)
Definition decimal_exponent (N D : Z) : Z :=
  let b := Z.log2 N - Z.log2 D in
  first_above 8 N D ((b - 1) * 30103 / 100000 - 1).

(** [N / D / 10 ^ q] as a fraction. *)
Definition scaled (N D q : Z) : Z * Z :=
  if 0 <=? q then (N, D * 10 ^ q) else (N * 10 ^ (- q), D).

(** [s] has [k] digits and [s * 10 ^ (n - k)] has the Number value [x]. *)
Definition represents (x : number) (k : Z) (c : Z * Z) : bool :=
  let '(s, n) := c in
  (10 ^ (k - 1) <=? s) && (s <? 10 ^ k)
  && number_eqb (number_of_decimal false s (n - k)) x.

(** The [k]-digit decimals on either side of [m * 2 ^ e], nearest first (the
    even one first when they are equally near), kept when they denote it. *)
Definition candidates (m : positive) (e : Z) (k : Z) : list (Z * Z) :=
  let N := numerator m e in
  let D := denominator e in
  let n := decimal_exponent N D in
  let '(Nq, Dq) := scaled N D (n - k) in
  let lo := (Nq / Dq, n) in
  let hi := if Nq / Dq + 1 =? 10 ^ k then (10 ^ (k - 1), n + 1)
            else (Nq / Dq + 1, n) in
  let ordered :=
    match 2 * (Nq mod Dq) ?= Dq with
    | Lt => [lo; hi]
    | Gt => [hi; lo]
    | Eq => if Z.even (Nq / Dq) then [lo; hi] else [hi; lo]
    end in
  filter (represents (S754_finite false m e) k) ordered.

Fixpoint shortest_from (fuel : nat) (m : positive) (e : Z) (k : Z) : Z * Z :=
  match candidates m e k with
  | c :: _ => c
  | [] =>
      match fuel with
      | S fuel' => shortest_from fuel' m e (k + 1)
      | O =>
          let N := numerator m e in
          let D := denominator e in
          let n := decimal_exponent N D in
          let '(Nq, Dq) := scaled N D (n - k) in
          (Nq / Dq, n)
      end
  end.

(** The digits [s] and the exponent [n] of step 5 of Number::toString: as
    few digits as denote the value, at most 17. *)
Definition shortest (m : positive) (e : Z) : Z * Z :=
  shortest_from 16 m e 1.

Definition exponent_text (e : Z) : string :=
  (if e <? 0 then "-" else "+") ++ decimal_digits (Z.abs e).

(** Steps 6 to 10 of Number::toString: where the point goes. *)
Definition format_decimal (digits : string) (n : Z) : string :=
  let k := len digits in
  if (k <=? n) && (n <=? 21) then
    digits ++ zeros (Z.to_nat (n - k))
  else if (0 <? n) && (n <=? 21) then
    take (Z.to_nat n) digits ++ "." ++ drop (Z.to_nat n) digits
  else if (-6 <? n) && (n <=? 0) then
    "0." ++ zeros (Z.to_nat (- n)) ++ digits
  else if k =? 1 then
    digits ++ "e" ++ exponent_text (n - 1)
  else
    take 1 digits ++ "." ++ drop 1 digits ++ "e" ++ exponent_text (n - 1).

Definition Number_toString (x : number) : string :=
  match x with
  | S754_nan => "NaN"
  | S754_zero _ => "0"
  | S754_infinity s => (if s then "-" else "") ++ "Infinity"
  | S754_finite s m e =>
      let '(d, n) := shortest m e in
      (if s then "-" else "") ++ format_decimal (decimal_digits d) n
  end.

(** ** Completions *)

Inductive error : Type := TypeError | RangeError.

Inductive completion (A : Type) : Type :=
  | Normal (a : A)
  | Throw (e : error).

Arguments Normal {A} a.
Arguments Throw {A} e.

Definition bind {A B : Type} (c : completion A) (k : A -> completion B)
  : completion B :=
  match c with
  | Normal a => k a
  | Throw e => Throw e
  end.

Declare Scope completion_scope.
Delimit Scope completion_scope with completion.
Bind Scope completion_scope with completion.

Notation "x <- c ;; k" := (bind c (fun x => k))
  (at level 61, c at next level, right associativity) : completion_scope.

(** ** Number.prototype.toFixed *)

(** Step 10 of toFixed: the integer [n] written with [f] digits after the
    point, padded on the left so that a digit stands before the point. *)
Definition fixed_digits (n f : Z) : string :=
  let m := if n =? 0 then "0" else decimal_digits n in
  if f =? 0 then m
  else
    let m' := if len m <=? f then zeros (Z.to_nat (f + 1 - len m)) ++ m
              else m in
    let a := Z.to_nat (len m' - f) in
    take a m' ++ "." ++ drop a m'.

(** The integer [n] for which [n / 10 ^ f - N / D] is as close to zero as
    possible, the larger one when there are two. *)
Definition nearest_scaled (N D f : Z) : Z :=
  (2 * N * 10 ^ f + D) / (2 * D).

Definition toFixed (x : number) (fractionDigits : Z) : completion string :=
  let f := fractionDigits in
  if (f <? 0) || (100 <? f) then Throw RangeError
  else
    match x with
    | S754_nan | S754_infinity _ => Normal (Number_toString x)
    | S754_zero _ => Normal (fixed_digits 0 f)
    | S754_finite s m e =>
        let N := numerator m e in
        let D := denominator e in
        let body :=
          if 10 ^ 21 * D <=? N then Number_toString (S754_finite false m e)
          else fixed_digits (nearest_scaled N D f) f in
        Normal ((if s then "-" else "") ++ body)
    end.

(** ** parseFloat *)

Definition code (c : ascii) : Z := Z.of_N (N_of_ascii c).

(** WhiteSpace and LineTerminator code points of one byte: TAB, LF, VT, FF,
    CR and SP. *)
Definition is_space1 (c : ascii) : bool :=
  let n := code c in ((9 <=? n) && (n <=? 13)) || (n =? 32).

(** U+00A0, encoded on two bytes. *)
Definition is_space2 (c1 c2 : ascii) : bool :=
  (code c1 =? 194) && (code c2 =? 160).

(** U+1680, U+2000 to U+200A, U+2028, U+2029, U+202F, U+205F, U+3000 and
    U+FEFF, encoded on three bytes. *)
Definition is_space3 (c1 c2 c3 : ascii) : bool :=
  let a := code c1 in
  let b := code c2 in
  let c := code c3 in
  ((a =? 225) && (b =? 154) && (c =? 128))
  || ((a =? 226) && (b =? 128)
      && (((128 <=? c) && (c <=? 138)) || (c =? 168) || (c =? 169)
          || (c =? 175)))
  || ((a =? 226) && (b =? 129) && (c =? 159))
  || ((a =? 227) && (b =? 128) && (c =? 128))
  || ((a =? 239) && (b =? 187) && (c =? 191)).

(** TrimString(s, start). *)
Fixpoint TrimStart (s : string) : string :=
  match s with
  | String c1 r1 =>
      if is_space1 c1 then TrimStart r1
      else
        match r1 with
        | String c2 r2 =>
            if is_space2 c1 c2 then TrimStart r2
            else
              match r2 with
              | String c3 r3 =>
                  if is_space3 c1 c2 c3 then TrimStart r3 else s
              | EmptyString => s
              end
        | EmptyString => s
        end
  | EmptyString => s
  end.

(** The longest run of decimal digits a string starts with, and the rest. *)
Fixpoint span_digits (s : string) : string * string :=
  match s with
  | String c s' =>
      if is_digit c then
        let '(d, r) := span_digits s' in (String c d, r)
      else ("", s)
  | EmptyString => ("", "")
  end.

(** A parsed StrUnsignedDecimalLiteral: [Infinity], or the digits before
    and after the point with the exponent, when one is written. *)
Inductive literal : Type :=
  | LInfinity
  | LDecimal (int_digits frac_digits : string) (exponent : option (bool * string)).

(** A sign, when the string starts with one, and the rest. *)
Definition split_sign (s : string) : bool * string :=
  match s with
  | String "+" r => (false, r)
  | String "-" r => (true, r)
  | _ => (false, s)
  end.

(** What follows the point, when the string starts with one. *)
Definition strip_point (s : string) : option string :=
  match s with
  | String "." r => Some r
  | _ => None
  end.

Definition is_exponent_indicator (c : ascii) : bool :=
  (code c =? 101) || (code c =? 69).

(** ExponentPart, when the string starts with a whole one. *)
Definition scan_exponent (s : string) : option (bool * string) * string :=
  match s with
  | String c r =>
      if is_exponent_indicator c then
        let '(neg, r') := split_sign r in
        let '(d, r'') := span_digits r' in
        if len d =? 0 then (None, s) else (Some (neg, d), r'')
      else (None, s)
  | EmptyString => (None, s)
  end.

(** The digits after the point, when a point follows the digits [i]; a
    point with no digit on either side is not taken. *)
Definition scan_fraction (i r1 : string) : string * string :=
  match strip_point r1 with
  | Some r =>
      let '(f, r2) := span_digits r in
      if (len i =? 0) && (len f =? 0) then ("", r1) else (f, r2)
  | None => ("", r1)
  end.

Definition scan_decimal (s : string) : option (literal * string) :=
  let '(i, r1) := span_digits s in
  let '(f, r2) := scan_fraction i r1 in
  if (len i =? 0) && (len f =? 0) then None
  else
    let '(e, r3) := scan_exponent r2 in
    Some (LDecimal i f e, r3).

(** The longest prefix that is a StrUnsignedDecimalLiteral, and the rest. *)
Definition scan_unsigned (s : string) : option (literal * string) :=
  if String.prefix "Infinity" s then Some (LInfinity, drop 8 s)
  else scan_decimal s.

(** The longest prefix that is a StrDecimalLiteral: the sign, the literal and
    the rest. *)
Definition scan_literal (s : string) : option (bool * literal * string) :=
  let '(neg, r) := split_sign s in
  match scan_unsigned r with
  | Some (l, rest) => Some (neg, l, rest)
  | None => None
  end.

(** StringNumericValue: [(a + b * 10 ^ (- n)) * 10 ^ e] for the digits [a]
    before the point, the [n] digits [b] after it and the exponent [e]. *)
Definition literal_value (neg : bool) (l : literal) : number :=
  match l with
  | LInfinity => S754_infinity neg
  | LDecimal i f e =>
      let a := digits_value i in
      let b := digits_value f in
      let n := len f in
      let ex :=
        match e with
        | Some (true, d) => - digits_value d
        | Some (false, d) => digits_value d
        | None => 0
        end in
      number_of_decimal neg (a * 10 ^ n + b) (ex - n)
  end.

(** Steps 2 to 7 of parseFloat, on the string. *)
Definition parse_float_string (s : string) : number :=
  match scan_literal (TrimStart s) with
  | Some (neg, l, _) => literal_value neg l
  | None => NaN
  end.

(** ** Values *)

(** The primitive values; objects, whose conversion runs code of their own,
    are left out. *)
Inductive value : Type :=
  | VUndefined
  | VNull
  | VBool (b : bool)
  | VNum (x : number)
  | VBigInt (z : Z)
  | VStr (s : string)
  | VSymbol (description : string).

Definition ToString (v : value) : completion string :=
  match v with
  | VUndefined => Normal "undefined"
  | VNull => Normal "null"
  | VBool b => Normal (if b then "true" else "false")
  | VNum x => Normal (Number_toString x)
  | VBigInt z =>
      Normal ((if z <? 0 then "-" else "") ++ decimal_digits (Z.abs z))
  | VStr s => Normal s
  | VSymbol _ => Throw TypeError
  end.

Definition parseFloat (v : value) : completion number :=
  (inputString <- ToString v ;;
   Normal (parse_float_string inputString))%completion.

(** ** The currency formatter, [main.js] lines 19 to 21 *)

Definition formatCurrency (amount : value) : completion string :=
  (x <- parseFloat amount ;;
   s <- toFixed x 2 ;;
   Normal ("₹" ++ s))%completion.

(** ** What the formatter's results are measured against *)

(** The magnitude of a finite Number as a fraction; 0 / 1 otherwise. *)
Definition abs_numerator (x : number) : Z :=
  match x with
  | S754_finite _ m e => numerator m e
  | _ => 0
  end.

Definition abs_denominator (x : number) : Z :=
  match x with
  | S754_finite _ m e => denominator e
  | _ => 1
  end.

(** Finite and of magnitude below [10 ^ 21]: the Numbers [toFixed] writes in
    fixed notation. *)
Definition fixed_range (x : number) : bool :=
  match x with
  | S754_zero _ => true
  | S754_finite _ m e => numerator m e <? 10 ^ 21 * denominator e
  | _ => false
  end.

(** The glyph, an optional minus sign, one digit or more, a point and
    exactly two digits. *)
Definition two_decimal_form (s : string) : bool :=
  String.prefix "₹" s
  && (let body := drop 3 s in
      let unsigned :=
        match body with
        | String "-" r => r
        | _ => body
        end in
      let '(ip, r) := span_digits unsigned in
      negb (len ip =? 0)
      && match r with
         | String "." fp => (len fp =? 2) && all_digits fp
         | _ => false
         end).

(** Text that is a StrDecimalLiteral from its first character that is not
    white space to its end, white space at the end apart. *)
Definition numeric_text (s : string) : bool :=
  match scan_literal (TrimStart s) with
  | Some (_, _, rest) => len (TrimStart rest) =? 0
  | None => false
  end.

(** An input representable as a number: a Number other than NaN, or numeric
    text. *)
Definition numeric_input (v : value) : bool :=
  match v with
  | VNum x => negb (number_eqb x NaN)
  | VStr s => numeric_text s
  | _ => false
  end.

(** The Numbers the examples use, as the literals [9.999], [1e21], [5] and
    [42] denote them. *)
Definition n9_999 : number := number_of_decimal false 9999 (-3).
Definition n1e21 : number := number_of_decimal false 1 21.
Definition n5 : number := number_of_decimal false 5 0.
Definition n12_345 : number := number_of_decimal false 12345 (-3).

(** ** The grammar of numeric text (ECMA-262, StrDecimalLiteral) *)

Definition DecimalDigits (d : string) : Prop :=
  all_digits d = true /\ 0 < len d.

Definition Sign (s : string) : Prop :=
  s = "" \/ s = "+" \/ s = "-".

Inductive ExponentPart : string -> Prop :=
  | exponent_part (ind sign d : string) :
      ind = "e" \/ ind = "E" -> Sign sign -> DecimalDigits d ->
      ExponentPart (ind ++ sign ++ d).

Definition OptExponentPart (e : string) : Prop :=
  e = "" \/ ExponentPart e.

Inductive StrUnsignedDecimalLiteral : string -> Prop :=
  | unsigned_infinity :
      StrUnsignedDecimalLiteral "Infinity"
  | unsigned_point (i f e : string) :
      DecimalDigits i -> all_digits f = true -> OptExponentPart e ->
      StrUnsignedDecimalLiteral (i ++ "." ++ f ++ e)
  | unsigned_fraction (f e : string) :
      DecimalDigits f -> OptExponentPart e ->
      StrUnsignedDecimalLiteral ("." ++ f ++ e)
  | unsigned_integer (i e : string) :
      DecimalDigits i -> OptExponentPart e ->
      StrUnsignedDecimalLiteral (i ++ e).

Inductive StrDecimalLiteral : string -> Prop :=
  | signed_literal (sign u : string) :
      Sign sign -> StrUnsignedDecimalLiteral u ->
      StrDecimalLiteral (sign ++ u).


(** No prefix of [t] is a StrDecimalLiteral. *)
Definition no_literal_prefix (t : string) : Prop :=
  forall p r, t = p ++ r -> ~ StrDecimalLiteral p.

(** ** The page: document, timers and the widget library *)

(** The identity of an element of the document. *)
Definition node : Type := nat.

(** An element: its identity, the element it is a child of (none for a
    root), its classes and attributes, and its text content as the host
    computes it. *)
Record element : Type := {
  node_of : node;
  parent : option node;
  classes : list string;
  attributes : list (string * string);
  textContent : string
}.

(** The two selectors of the script: [.alert] is [ByClass "alert"] and
    [[data-bs-toggle="tooltip"]] is [ByAttribute "data-bs-toggle" "tooltip"]. *)
Inductive selector : Type :=
  | ByClass (name : string)
  | ByAttribute (name val : string).

Definition getAttribute (name : string) (e : element) : option string :=
  match find (fun p => String.eqb name (fst p)) (attributes e) with
  | Some (_, v) => Some v
  | None => None
  end.

Definition matches (sel : selector) (e : element) : bool :=
  match sel with
  | ByClass name => existsb (String.eqb name) (classes e)
  | ByAttribute name val =>
      match getAttribute name e with
      | Some v => String.eqb val v
      | None => false
      end
  end.

(** [setAttribute]: the value of the attribute is replaced where it stands,
    and a new attribute comes last. *)
Definition setAttribute (name val : string) (e : element) : element :=
  {| node_of := node_of e; parent := parent e; classes := classes e;
     attributes :=
       if existsb (fun p => String.eqb name (fst p)) (attributes e)
       then map (fun p => if String.eqb name (fst p) then (name, val) else p)
                (attributes e)
       else (attributes e ++ [(name, val)])%list;
     textContent := textContent e |}.

Definition removeAttribute (name : string) (e : element) : element :=
  {| node_of := node_of e; parent := parent e; classes := classes e;
     attributes :=
       filter (fun p => negb (String.eqb name (fst p))) (attributes e);
     textContent := textContent e |}.

(** [classList.contains] and [classList.remove]. *)
Definition classList_contains (name : string) (e : element) : bool :=
  existsb (String.eqb name) (classes e).

Definition classList_remove (name : string) (e : element) : element :=
  {| node_of := node_of e; parent := parent e;
     classes := filter (fun c => negb (String.eqb name c)) (classes e);
     attributes := attributes e;
     textContent := textContent e |}.

(** The function passed to [setTimeout] on line 5, closed over [alert]. *)
Inductive callback : Type :=
  | dismiss (alert : node).

Record timer : Type := {
  timer_id : nat;
  due : Z;
  action : callback
}.

(** A tooltip object of the library: its handle and the element it is bound
    to. *)
Record tooltip : Type := {
  handle : nat;
  bound_to : node
}.

Record page : Type := {
  document : list element;     (* the elements, in tree order *)
  next_node : node;            (* the next element to be created *)
  clock : Z;                   (* milliseconds *)
  timers : list timer;         (* scheduled by the script and not yet run *)
  next_timer : nat;
  fired : list (Z * timer);    (* the timers run so far, with the time *)
  tooltips : list tooltip;     (* the objects the library has built *)
  next_handle : nat;
  closing : list node;         (* alerts whose closing transition runs *)
  registered : bool;           (* the listener of line 1 is subscribed *)
  loaded : bool                (* DOMContentLoaded has been dispatched *)
}.

(** Field updates. *)
Definition with_document (d : list element) (p : page) : page :=
  {| document := d; next_node := next_node p; clock := clock p;
     timers := timers p; next_timer := next_timer p; fired := fired p;
     tooltips := tooltips p; next_handle := next_handle p;
     closing := closing p;
     registered := registered p; loaded := loaded p |}.

Definition with_next_node (n : node) (p : page) : page :=
  {| document := document p; next_node := n; clock := clock p;
     timers := timers p; next_timer := next_timer p; fired := fired p;
     tooltips := tooltips p; next_handle := next_handle p;
     closing := closing p;
     registered := registered p; loaded := loaded p |}.

Definition with_clock (t : Z) (p : page) : page :=
  {| document := document p; next_node := next_node p; clock := t;
     timers := timers p; next_timer := next_timer p; fired := fired p;
     tooltips := tooltips p; next_handle := next_handle p;
     closing := closing p;
     registered := registered p; loaded := loaded p |}.

Definition with_timers (ts : list timer) (p : page) : page :=
  {| document := document p; next_node := next_node p; clock := clock p;
     timers := ts; next_timer := next_timer p; fired := fired p;
     tooltips := tooltips p; next_handle := next_handle p;
     closing := closing p;
     registered := registered p; loaded := loaded p |}.

Definition with_next_timer (n : nat) (p : page) : page :=
  {| document := document p; next_node := next_node p; clock := clock p;
     timers := timers p; next_timer := n; fired := fired p;
     tooltips := tooltips p; next_handle := next_handle p;
     closing := closing p;
     registered := registered p; loaded := loaded p |}.

Definition with_fired (l : list (Z * timer)) (p : page) : page :=
  {| document := document p; next_node := next_node p; clock := clock p;
     timers := timers p; next_timer := next_timer p; fired := l;
     tooltips := tooltips p; next_handle := next_handle p;
     closing := closing p;
     registered := registered p; loaded := loaded p |}.

Definition with_tooltips (l : list tooltip) (p : page) : page :=
  {| document := document p; next_node := next_node p; clock := clock p;
     timers := timers p; next_timer := next_timer p; fired := fired p;
     tooltips := l; next_handle := next_handle p;
     closing := closing p;
     registered := registered p; loaded := loaded p |}.

Definition with_next_handle (n : nat) (p : page) : page :=
  {| document := document p; next_node := next_node p; clock := clock p;
     timers := timers p; next_timer := next_timer p; fired := fired p;
     tooltips := tooltips p; next_handle := n;
     closing := closing p;
     registered := registered p; loaded := loaded p |}.

Definition with_closing (l : list node) (p : page) : page :=
  {| document := document p; next_node := next_node p; clock := clock p;
     timers := timers p; next_timer := next_timer p; fired := fired p;
     tooltips := tooltips p; next_handle := next_handle p;
     closing := l;
     registered := registered p; loaded := loaded p |}.

Definition with_registered (b : bool) (p : page) : page :=
  {| document := document p; next_node := next_node p; clock := clock p;
     timers := timers p; next_timer := next_timer p; fired := fired p;
     tooltips := tooltips p; next_handle := next_handle p;
     closing := closing p;
     registered := b; loaded := loaded p |}.

Definition with_loaded (b : bool) (p : page) : page :=
  {| document := document p; next_node := next_node p; clock := clock p;
     timers := timers p; next_timer := next_timer p; fired := fired p;
     tooltips := tooltips p; next_handle := next_handle p;
     closing := closing p;
     registered := registered p; loaded := b |}.

(** Script code runs to completion on the page it is given. *)
Definition script (A : Type) : Type := page -> A * page.

Definition ret {A : Type} (a : A) : script A := fun p => (a, p).

Definition seq_script {A B : Type} (c : script A) (k : A -> script B)
  : script B :=
  fun p => let '(a, p') := c p in k a p'.

Declare Scope script_scope.
Delimit Scope script_scope with script.
Bind Scope script_scope with script.

Notation "x <- c ;; k" := (seq_script c (fun x => k))
  (at level 61, c at next level, right associativity) : script_scope.

(** [document.querySelectorAll]: the matching elements, in tree order. *)
Definition querySelectorAll (sel : selector) : script (list node) :=
  fun p => (map node_of (filter (matches sel) (document p)), p).

(** [setTimeout(f, delay)]: one more timer, due [delay] ms from now. *)
Definition setTimeout (f : callback) (delay : Z) : script nat :=
  fun p =>
    let t := {| timer_id := next_timer p;
                due := clock p + delay;
                action := f |} in
    (next_timer p,
     with_next_timer (S (next_timer p)) (with_timers (timers p ++ [t]) p)).

(** *** The widget library

    [bootstrap.Tooltip] and [bootstrap.Alert] are written after the source
    of Bootstrap 5.3 ([tooltip.js], [alert.js], [base-component.js],
    [util/index.js]), with Popper present (without it the constructor of a
    tooltip throws), for elements that carry no option of their own and a
    page on which no other code listens to the events of the library.  Of
    what the library does, the part that shows in the document is kept: the
    listeners it subscribes and the timer of its own that stands in for a
    missing [transitionend] are not part of the page's timers. *)

(** The element [n] of a document, changed by [f]. *)
Definition update_element (n : node) (f : element -> element)
  (d : list element) : list element :=
  map (fun e => if Nat.eqb (node_of e) n then f e else e) d.

(** An attribute value that is a string and not the empty one. *)
Definition truthy (a : option string) : bool :=
  match a with
  | Some (String _ _) => true
  | _ => false
  end.

(** [_fixTitle]: a title that is not empty moves to
    [data-bs-original-title]; it also becomes the [aria-label] of an
    element that has no label and no text other than white space. *)
Definition fixTitle (e : element) : element :=
  match getAttribute "title" e with
  | Some (String c r) =>
      let title := String c r in
      let labelled :=
        if negb (truthy (getAttribute "aria-label" e))
           && (len (TrimStart (textContent e)) =? 0)
        then setAttribute "aria-label" title e
        else e in
      removeAttribute "title"
        (setAttribute "data-bs-original-title" title labelled)
  | _ => e
  end.

(** [new bootstrap.Tooltip(el)]: a new object bound to [el], whose title is
    fixed. *)
Definition new_Tooltip (el : node) : script nat :=
  fun p =>
    let o := {| handle := next_handle p; bound_to := el |} in
    (next_handle p,
     with_next_handle (S (next_handle p))
       (with_tooltips (tooltips p ++ [o])
          (with_document (update_element el fixTitle (document p)) p))).

Definition find_element (n : node) (d : list element) : option element :=
  find (fun e => Nat.eqb (node_of e) n) d.

(** [n] is [root] or lies below it, [fuel] parents up at most. *)
Fixpoint inside (fuel : nat) (d : list element) (root n : node) : bool :=
  Nat.eqb n root
  || match fuel with
     | O => false
     | S fuel' =>
         match find_element n d with
         | Some e =>
             match parent e with
             | Some m => inside fuel' d root m
             | None => false
             end
         | None => false
         end
     end.

(** [Element.remove]: the element leaves the document with all it holds. *)
Definition detach (root : node) (d : list element) : list element :=
  filter (fun e => negb (inside (List.length d) d root (node_of e))) d.

(** [new bootstrap.Alert(el).close()]: the class [show] is taken off the
    element; an element without the class [fade] is removed at once, one
    with it when its transition ends.  Nothing of the document changes when
    the element has left it already. *)
Definition close_Alert (el : node) : script unit :=
  fun p =>
    match find_element el (document p) with
    | None => (tt, p)
    | Some e =>
        let d := update_element el (classList_remove "show") (document p) in
        if classList_contains "fade" e
        then (tt, with_closing (closing p ++ [el]) (with_document d p))
        else (tt, with_document (detach el d) p)
    end.

(** [NodeList.prototype.forEach]. *)
Fixpoint forEach {A : Type} (l : list A) (f : A -> script unit) : script unit :=
  match l with
  | [] => ret tt
  | a :: l' => (_ <- f a ;; forEach l' f)%script
  end.

(** [Array.prototype.map]. *)
Fixpoint array_map {A B : Type} (l : list A) (f : A -> script B)
  : script (list B) :=
  match l with
  | [] => ret []
  | a :: l' => (b <- f a ;; bs <- array_map l' f ;; ret (b :: bs))%script
  end.

(** [[].slice.call(list)]: the list as an array. *)
Definition slice {A : Type} (l : list A) : script (list A) := ret l.

(** ** The initializer, [main.js] lines 1 to 16 *)

(** The variables of the handler when its body has run. *)
Record locals : Type := {
  alerts : list node;
  tooltipTriggerList : list node;
  tooltipList : list nat
}.

Definition handler : script locals :=
  (alerts <- querySelectorAll (ByClass "alert") ;;
   _ <- forEach alerts (fun alert =>
          _ <- setTimeout (dismiss alert) 5000 ;; ret tt) ;;
   nodes <- querySelectorAll (ByAttribute "data-bs-toggle" "tooltip") ;;
   tooltipTriggerList <- slice nodes ;;
   tooltipList <- array_map tooltipTriggerList (fun tooltipTriggerEl =>
                    new_Tooltip tooltipTriggerEl) ;;
   ret {| alerts := alerts;
          tooltipTriggerList := tooltipTriggerList;
          tooltipList := tooltipList |})%script.

(** What a timer's function does when it runs, lines 6 and 7. *)
Definition run_callback (f : callback) : script unit :=
  match f with
  | dismiss alert => close_Alert alert
  end.

(** Line 1: [document.addEventListener('DOMContentLoaded', ...)]. *)
Definition main : script unit :=
  fun p => (tt, with_registered true p).

(** ** The event loop *)

(** What can happen to the page: the document has been parsed, time passes,
    a timer that is due is run, the transition of a closing alert ends (or
    the library's own timer stands in for its end), and other code or the
    user adds a new element, removes one with all it holds, or changes
    one. *)
Inductive event : Type :=
  | Load
  | Tick (dt : Z)
  | Fire (id : nat)
  | TransitionEnd (n : node)
  | Insert (e : element) (position : nat)
  | Remove (n : node)
  | Update (e : element).

Definition has_id (id : nat) (t : timer) : bool := Nat.eqb (timer_id t) id.

Definition step (ev : event) (p : page) : option page :=
  match ev with
  | Load =>
      if loaded p then None
      else
        let p' := with_loaded true p in
        if registered p then Some (snd (handler p')) else Some p'
  | Tick dt =>
      if 0 <=? dt then Some (with_clock (clock p + dt) p) else None
  | Fire id =>
      match find (has_id id) (timers p) with
      | Some t =>
          if due t <=? clock p then
            let p' := with_fired (fired p ++ [(clock p, t)])
                        (with_timers
                           (filter (fun t' => negb (has_id id t')) (timers p))
                           p) in
            Some (snd (run_callback (action t) p'))
          else None
      | None => None
      end
  | TransitionEnd n =>
      if existsb (Nat.eqb n) (closing p) then
        Some (with_closing
                (filter (fun m => negb (Nat.eqb m n)) (closing p))
                (with_document (detach n (document p)) p))
      else None
  | Insert e position =>
      if Nat.eqb (node_of e) (next_node p) then
        Some (with_next_node (S (next_node p))
                (with_document
                   (firstn position (document p)
                    ++ e :: skipn position (document p)) p))
      else None
  | Remove n =>
      Some (with_document (detach n (document p)) p)
  | Update e =>
      Some (with_document
              (map (fun e' => if Nat.eqb (node_of e') (node_of e) then e
                              else e') (document p)) p)
  end.

Fixpoint run (evs : list event) (p : page) : option page :=
  match evs with
  | [] => Some p
  | ev :: evs' =>
      match step ev p with
      | Some p' => run evs' p'
      | None => None
      end
  end.

(** The timers of a list whose function dismisses [n] and whose number is
    [from] or more: those the handler schedules, when [from] is the next
    number as it starts. *)
Definition dismisses (n : node) (from : nat) (t : timer) : bool :=
  match action t with
  | dismiss alert => Nat.eqb alert n && Nat.leb from (timer_id t)
  end.

Definition pending (n : node) (from : nat) (p : page) : list timer :=
  filter (dismisses n from) (timers p).

Definition dismissals (n : node) (from : nat) (p : page) : list (Z * timer) :=
  filter (fun r => dismisses n from (snd r)) (fired p).

(** The tooltip objects bound to [n] whose handle is [from] or more. *)
Definition binds (n : node) (from : nat) (o : tooltip) : bool :=
  Nat.eqb (bound_to o) n && Nat.leb from (handle o).

Definition tooltips_of (n : node) (from : nat) (p : page) : list tooltip :=
  filter (binds n from) (tooltips p).

(** A page as a browser holds it: no element occurs twice, every element
    has been created, no two timers bear one number, and no timer number or
    handle is ahead of its counter. *)
Definition well_formed (p : page) : Prop :=
  NoDup (map node_of (document p))
  /\ (forall e, In e (document p) -> (node_of e < next_node p)%nat)
  /\ NoDup (map timer_id (timers p))
  /\ (forall t, In t (timers p) -> (timer_id t < next_timer p)%nat)
  /\ (forall r, In r (fired p) -> (timer_id (snd r) < next_timer p)%nat)
  /\ (forall o, In o (tooltips p) -> (handle o < next_handle p)%nat).

(** ** Calls of the formatter with any argument *)

(** An argument that is an object is turned into a primitive value first,
    by code of its own ([ToPrimitive] with the hint string, the first step
    of [ToString] inside [parseFloat]).  That code is any script code: it
    may change the page, and what it returns may depend on the page. *)

(** What script code of the page can throw. *)
Inductive exception : Type :=
  | Builtin (e : error)       (* an error of a built-in *)
  | UserValue (v : value)     (* a primitive value thrown by user code *)
  | UserObject.               (* an object thrown by user code *)

(** What a call of a function of the page ends with. *)
Inductive outcome : Type :=
  | Returns (v : value)
  | ReturnsObject
  | Raises (ex : exception).

(** What reading a property gives. *)
Inductive property : Type :=
  | Missing                             (* undefined or null *)
  | NotCallable                         (* another value, not a function *)
  | Function (body : script outcome).

(** The three property reads [ToPrimitive] makes; a read is code as well (an
    accessor, a proxy). *)
Record object : Type := {
  get_toPrimitive : script (property + exception);
  get_toString : script (property + exception);
  get_valueOf : script (property + exception)
}.

Inductive argument : Type :=
  | Primitive (v : value)
  | Object (o : object).

(** One round of [OrdinaryToPrimitive]: the method is read and, when it is
    a function, called; a primitive it returns is the result. *)
Definition try_method (get : script (property + exception))
  (otherwise : script (value + exception)) : script (value + exception) :=
  fun p =>
    let '(r, p1) := get p in
    match r with
    | inr ex => (inr ex, p1)
    | inl (Function body) =>
        let '(out, p2) := body p1 in
        match out with
        | Returns v => (inl v, p2)
        | ReturnsObject => otherwise p2
        | Raises ex => (inr ex, p2)
        end
    | inl _ => otherwise p1
    end.

Definition OrdinaryToPrimitive (o : object) : script (value + exception) :=
  try_method (get_toString o)
    (try_method (get_valueOf o) (ret (inr (Builtin TypeError)))).

Definition ToPrimitive (o : object) : script (value + exception) :=
  fun p =>
    let '(r, p1) := get_toPrimitive o p in
    match r with
    | inr ex => (inr ex, p1)
    | inl Missing => OrdinaryToPrimitive o p1
    | inl NotCallable => (inr (Builtin TypeError), p1)
    | inl (Function body) =>
        let '(out, p2) := body p1 in
        match out with
        | Returns v => (inl v, p2)
        | ReturnsObject => (inr (Builtin TypeError), p2)
        | Raises ex => (inr ex, p2)
        end
    end.

Definition of_completion {A : Type} (c : completion A) : A + exception :=
  match c with
  | Normal a => inl a
  | Throw e => inr (Builtin e)
  end.

(** A call [formatCurrency(amount)] as script code of the page. *)
Definition call_formatCurrency (amount : argument)
  : script (string + exception) :=
  match amount with
  | Primitive v => ret (of_completion (formatCurrency v))
  | Object o =>
      (prim <- ToPrimitive o ;;
       match prim with
       | inl v => ret (of_completion (formatCurrency v))
       | inr ex => ret (inr ex)
       end)%script
  end.




(** The timers [forEach] leaves for the nodes [l], numbered from [from] and
    all due at [at_time], and the tooltip objects [array_map] leaves. *)
Definition scheduled (from : nat) (at_time : Z) (l : list node) : list timer :=
  map (fun c => {| timer_id := fst c; due := at_time; action := dismiss (snd c) |})
      (combine (seq from (List.length l)) l).

Definition built (from : nat) (l : list node) : list tooltip :=
  map (fun c => {| handle := fst c; bound_to := snd c |})
      (combine (seq from (List.length l)) l).

(** The two element sets of a document. *)
Definition alert_nodes (d : list element) : list node :=
  map node_of (filter (matches (ByClass "alert")) d).

Definition tooltip_nodes (d : list element) : list node :=
  map node_of (filter (matches (ByAttribute "data-bs-toggle" "tooltip")) d).

(** The document when a tooltip object has been built for each of [l]. *)
Definition fix_titles (l : list node) (d : list element) : list element :=
  fold_left (fun d' n => update_element n fixTitle d') l d.

(** An element as the handler leaves it. *)
Definition initialized (e : element) : element :=
  if matches (ByAttribute "data-bs-toggle" "tooltip") e then fixTitle e else e.

(** A page to try the initializer on: an alert, a tooltip trigger, an
    element that is both and one that is neither; then five seconds pass,
    the first timer runs, an element that is both is inserted, and the
    second timer runs. *)
Definition sample_page : page :=
  {| document :=
       [ {| node_of := 0%nat; parent := None;
            classes := ["alert"; "alert-success"];
            attributes := []; textContent := "" |};
         {| node_of := 1%nat; parent := None; classes := ["btn"];
            attributes := [("data-bs-toggle", "tooltip"); ("title", "Book")];
            textContent := "" |};
         {| node_of := 2%nat; parent := None; classes := ["alert"];
            attributes := [("data-bs-toggle", "tooltip")];
            textContent := "" |};
         {| node_of := 3%nat; parent := None; classes := ["card"];
            attributes := [("data-bs-toggle", "modal")];
            textContent := "" |} ];
     next_node := 4%nat; clock := 0; timers := []; next_timer := 0%nat; fired := [];
     tooltips := []; next_handle := 0%nat; closing := [];
     registered := true; loaded := false |}.

Definition sample_loaded : page := snd (handler (with_loaded true sample_page)).

Definition sample_events : list event :=
  [ Tick 5000; Fire 0%nat;
    Insert {| node_of := 4%nat; parent := None; classes := ["alert"];
              attributes := [("data-bs-toggle", "tooltip")];
              textContent := "" |} 0%nat;
    Tick 10; Fire 1%nat ].

Definition sample_end : page :=
  match run sample_events sample_loaded with
  | Some q => q
  | None => sample_loaded
  end.

(** A page with two banners: one that fades, with its close button inside,
    and one that does not, with a link inside. *)
Definition banner_page : page :=
  {| document :=
       [ {| node_of := 0%nat; parent := None;
            classes := ["alert"; "alert-info"; "fade"; "show"];
            attributes := [("role", "alert")]; textContent := "Saved" |};
         {| node_of := 1%nat; parent := Some 0%nat; classes := ["btn-close"];
            attributes := [("data-bs-dismiss", "alert")];
            textContent := "" |};
         {| node_of := 2%nat; parent := None; classes := ["alert"];
            attributes := []; textContent := "Sold out" |};
         {| node_of := 3%nat; parent := Some 2%nat; classes := [];
            attributes := [("href", "/shows"); ("data-bs-toggle", "tooltip");
                           ("title", "All shows")];
            textContent := "more" |};
         {| node_of := 4%nat; parent := None; classes := ["card"];
            attributes := []; textContent := "" |} ];
     next_node := 5%nat; clock := 0; timers := []; next_timer := 0%nat; fired := [];
     tooltips := []; next_handle := 0%nat; closing := [];
     registered := true; loaded := false |}.

Definition banner_loaded : page := snd (handler (with_loaded true banner_page)).


(** An object whose [toString] counts the elements of the document and
    empties it. *)
Definition counting_object : object :=
  {| get_toPrimitive := ret (inl Missing);
     get_toString :=
       ret (inl (Function (fun p =>
         (Returns (VStr (decimal_digits (Z.of_nat (List.length (document p))))),
          with_document [] p))));
     get_valueOf := ret (inl Missing) |}.

(** ** Auxiliary notions of the proofs *)

Definition starts_nondigit (s : string) : Prop :=
  match s with
  | String c _ => is_digit c = false
  | EmptyString => True
  end.

Definition unsigned_start (c : ascii) : bool :=
  is_digit c || Ascii.eqb c "." || Ascii.eqb c "I".

Definition head_digit (s : string) : Prop :=
  exists c r, s = String c r /\ is_digit c = true.

Definition literal_start (c : ascii) : bool :=
  unsigned_start c || Ascii.eqb c "+" || Ascii.eqb c "-".

(** From [q] to [q']: no second load, no new tooltip object or timer, and
    every timer of [q] is still scheduled or has been run, at its due time
    or later. *)
Definition evolves (q q' : page) : Prop :=
  loaded q' = true
  /\ tooltips q' = tooltips q
  /\ next_handle q' = next_handle q
  /\ next_timer q' = next_timer q
  /\ (next_node q <= next_node q')%nat
  /\ NoDup (map timer_id (timers q'))
  /\ Permutation (timers q' ++ map snd (fired q'))%list
                 (timers q ++ map snd (fired q))%list
  /\ (forall r, In r (fired q') -> In r (fired q) \/ due (snd r) <= fst r).

(** Text that is an integer written plainly: digits only, and no zero in
    front unless it is the one digit [0]. *)
Definition plain_integer (d : string) : Prop :=
  all_digits d = true
  /\ (d = "0" \/ exists c r, d = String c r /\ c <> "0"%char).

(** ** Notions for the proofs about rounding and the text of a Number *)

(** Where a remainder [r] of a division by [B] lies: it is zero, or below,
    at or above the half of [B]. *)
Definition location_of (r B : Z) : location :=
  if r =? 0 then loc_Exact else loc_Inexact (2 * r ?= B).

(** The record holds the quotient of [A] by [B], and tells where the
    remainder lies. *)
Definition located (A B : Z) (mrs : shr_record) : Prop :=
  shr_m mrs = A / B /\ loc_of_shr_record mrs = location_of (A mod B) B.

(** The estimate of the decimal exponent from the binary one, and the check
    that it lies at most seven below: [10 ^ (j - 1) <= 2 ^ b] and
    [2 ^ (b + 1) <= 10 ^ (j + 7)] for the estimate [j] of [b], both sides
    scaled by [T = 10 ^ 400] and by [2 ^ 1074]; [q10] is
    [10 ^ (j - 1 + 400)]. *)
Definition estimate (b : Z) : Z := (b - 1) * 30103 / 100000 - 1.

Fixpoint estimate_check (fuel : nat) (T b j q10 : Z) : bool :=
  match fuel with
  | O => true
  | S fuel' =>
      (Z.shiftl q10 1074 <=? Z.shiftl T (b + 1074))
      && (Z.shiftl T (b + 1 + 1074) <=? Z.shiftl (q10 * 10 ^ 8) 1074)
      && (if estimate (b + 1) =? j
          then estimate_check fuel' T (b + 1) j q10
          else if estimate (b + 1) =? j + 1
          then estimate_check fuel' T (b + 1) (j + 1) (10 * q10)
          else false)
  end.

(** A Number of the binary64 format: the mantissa has at most 53 bits, and
    fewer only at the least exponent. *)
Definition binary64 (x : number) : bool := valid_binary prec emax x.

(** The value of an input representable as a number: the Number itself, or
    the Number the text denotes. *)
Definition input_value (v : value) : number :=
  match v with
  | VNum x => x
  | VStr s => parse_float_string s
  | _ => NaN
  end.

(** An input of the language: a Number it holds is a binary64 one. *)
Definition binary64_input (v : value) : bool :=
  match v with
  | VNum x => binary64 x
  | _ => true
  end.


(** * Proofs *)

(** ** Digits and strings *)

Lemma digits_value_from_app (s1 s2 : string) (acc : Z) :
  digits_value_from acc (s1 ++ s2) = digits_value_from (digits_value_from acc s1) s2.
Proof.
  revert acc; induction s1 as [|c s1 IH]; intros acc; simpl; [reflexivity|].
  apply IH.
Qed.

Lemma digits_value_from_shift (s : string) (acc : Z) :
  digits_value_from acc s = acc * 10 ^ len s + digits_value s.
Proof.
  unfold digits_value, len.
  revert acc; induction s as [|c s IH]; intros acc.
  - simpl. lia.
  - cbn [digits_value_from String.length].
    rewrite IH, (IH (10 * 0 + digit_value c)).
    rewrite Nat2Z.inj_succ, Z.pow_succ_r by lia. ring.
Qed.

Lemma all_digits_app (s1 s2 : string) :
  all_digits (s1 ++ s2) = all_digits s1 && all_digits s2.
Proof.
  induction s1 as [|c s1 IH]; simpl; [reflexivity|].
  rewrite IH. apply andb_assoc.
Qed.

Lemma length_append (s1 s2 : string) :
  String.length (s1 ++ s2) = (String.length s1 + String.length s2)%nat.
Proof. induction s1; simpl; congruence. Qed.

Lemma append_assoc (s1 s2 s3 : string) : (s1 ++ s2) ++ s3 = s1 ++ (s2 ++ s3).
Proof. induction s1; simpl; congruence. Qed.

Lemma len_app (s1 s2 : string) : len (s1 ++ s2) = len s1 + len s2.
Proof. unfold len. rewrite length_append. lia. Qed.

Lemma len_nonneg (s : string) : 0 <= len s.
Proof. unfold len. lia. Qed.

Lemma digit_char_is_digit (d : Z) :
  0 <= d < 10 -> is_digit (digit_char d) = true /\ digit_value (digit_char d) = d.
Proof.
  intros H. unfold is_digit, digit_value, digit_char.
  rewrite N_ascii_embedding by lia.
  rewrite Z2N.id by lia. split; lia.
Qed.

Lemma digits_loop_spec (fuel : nat) :
  forall n acc, 0 <= n < 2 ^ Z.of_nat (S fuel) ->
  exists d, digits_loop (S fuel) n acc = d ++ acc
    /\ all_digits d = true /\ 0 < len d /\ digits_value d = n
    /\ (0 < n -> exists c r, d = String c r /\ c <> "0"%char).
Proof.
  induction fuel as [|fuel IH]; intros n acc Hn.
  - assert (n = 0 \/ n = 1) as [-> | ->] by (change (2 ^ Z.of_nat 1) with 2 in Hn; lia).
    + exists "0". repeat split; try reflexivity. lia.
    + exists "1". repeat split; try reflexivity. intros _. exists "1"%char, "". split; [reflexivity|discriminate].
  - cbn [digits_loop]. destruct (n <? 10) eqn:E.
    + apply Z.ltb_lt in E.
      exists (String (digit_char n) "").
      rewrite Z.mod_small by lia.
      destruct (digit_char_is_digit n) as [H1 H2]; [lia|].
      split; [reflexivity|]. split; [|split; [|split]].
      * simpl. rewrite H1. reflexivity.
      * unfold len. simpl. lia.
      * unfold digits_value. simpl. rewrite H2. lia.
      * intros Hpos. exists (digit_char n), "". split; [reflexivity|].
        intros Hc. rewrite Hc in H2. compute in H2. lia.
    + apply Z.ltb_ge in E.
      destruct (IH (n / 10) (String (digit_char (n mod 10)) acc)) as (d & Hd & Hall & Hlen & Hval & Hlead).
      { split; [apply Z.div_pos; lia|].
        apply Z.div_lt_upper_bound; [lia|].
        rewrite Nat2Z.inj_succ, Z.pow_succ_r in Hn by lia. lia. }
      exists (d ++ String (digit_char (n mod 10)) "").
      destruct (digit_char_is_digit (n mod 10)) as [H1 H2]; [apply Z.mod_pos_bound; lia|].
      split; [|split; [|split; [|split]]].
      * change (digits_loop (S fuel) (n / 10) (String (digit_char (n mod 10)) acc) = (d ++ String (digit_char (n mod 10)) "") ++ acc).
        rewrite Hd, append_assoc. reflexivity.
      * rewrite all_digits_app, Hall. simpl. rewrite H1. reflexivity.
      * rewrite len_app. pose proof (len_nonneg (String (digit_char (n mod 10)) "")). lia.
      * unfold digits_value. rewrite digits_value_from_app.
        fold (digits_value d). rewrite Hval.
        cbn [digits_value_from]. rewrite H2.
        pose proof (Z.div_mod n 10). lia.
      * intros _. destruct Hlead as (c & r & -> & Hc).
        { apply Z.div_str_pos. lia. }
        exists c, (r ++ String (digit_char (n mod 10)) ""). split; [reflexivity|exact Hc].
Qed.

Lemma append_empty_r (s : string) : s ++ "" = s.
Proof. induction s; simpl; congruence. Qed.

Lemma decimal_digits_spec (n : Z) :
  0 <= n ->
  all_digits (decimal_digits n) = true
  /\ 0 < len (decimal_digits n)
  /\ digits_value (decimal_digits n) = n
  /\ (0 < n -> exists c r, decimal_digits n = String c r /\ c <> "0"%char).
Proof.
  intros Hn. unfold decimal_digits.
  destruct (digits_loop_spec (Z.to_nat (Z.log2 n)) n "") as (d & Hd & H).
  - split; [exact Hn|].
    rewrite Nat2Z.inj_succ, Z2Nat.id by apply Z.log2_nonneg.
    destruct (Z.eq_dec n 0) as [-> | Hnz]; [reflexivity|].
    apply Z.log2_spec. lia.
  - rewrite Hd, append_empty_r. exact H.
Qed.

Lemma take_drop_append (n : nat) (s : string) : take n s ++ drop n s = s.
Proof.
  revert s; induction n as [|n IH]; intros [|c s]; simpl; try reflexivity.
  rewrite IH. reflexivity.
Qed.

Lemma length_take (n : nat) (s : string) :
  (n <= String.length s)%nat -> String.length (take n s) = n.
Proof.
  revert s; induction n as [|n IH]; intros [|c s] H; simpl in *; try lia.
  rewrite IH; lia.
Qed.

Lemma all_digits_zeros (k : nat) : all_digits (zeros k) = true.
Proof. induction k; simpl; auto. Qed.

Lemma length_zeros (k : nat) : String.length (zeros k) = k.
Proof. induction k; simpl; congruence. Qed.

Lemma digits_value_zeros (k : nat) (s : string) :
  digits_value (zeros k ++ s) = digits_value s.
Proof. unfold digits_value. induction k; simpl; auto. Qed.

(** The digits [toFixed] writes: some before the point, exactly [f] after
    it, and together they spell [n]. *)
Lemma fixed_digits_spec (n f : Z) :
  0 <= n -> 0 < f ->
  exists ip fp,
    fixed_digits n f = ip ++ "." ++ fp
    /\ all_digits ip = true /\ 0 < len ip
    /\ all_digits fp = true /\ len fp = f
    /\ digits_value (ip ++ fp) = n.
Proof.
  intros Hn Hf. unfold fixed_digits.
  assert (Hm : (if n =? 0 then "0" else decimal_digits n) = decimal_digits n).
  { destruct (n =? 0) eqn:E; [|reflexivity]. apply Z.eqb_eq in E. subst n. reflexivity. }
  rewrite Hm. clear Hm.
  destruct (decimal_digits_spec n Hn) as (Hall & Hlen & Hval & _).
  replace (f =? 0) with false by (symmetry; apply Z.eqb_neq; lia).
  set (m := decimal_digits n) in *.
  set (m' := if len m <=? f then zeros (Z.to_nat (f + 1 - len m)) ++ m else m).
  assert (Hall' : all_digits m' = true).
  { unfold m'. destruct (len m <=? f); [|exact Hall].
    rewrite all_digits_app, all_digits_zeros, Hall. reflexivity. }
  assert (Hval' : digits_value m' = n).
  { unfold m'. destruct (len m <=? f); [|exact Hval].
    rewrite digits_value_zeros. exact Hval. }
  assert (Hlen' : f < len m').
  { unfold m'. destruct (len m <=? f) eqn:E.
    - apply Z.leb_le in E. rewrite len_app. unfold len at 1.
      rewrite length_zeros, Z2Nat.id; lia.
    - apply Z.leb_gt in E. exact E. }
  clearbody m'.
  exists (take (Z.to_nat (len m' - f)) m'), (drop (Z.to_nat (len m' - f)) m').
  pose proof (take_drop_append (Z.to_nat (len m' - f)) m') as Htd.
  assert (Hlt : len (take (Z.to_nat (len m' - f)) m') = len m' - f).
  { unfold len. rewrite length_take; unfold len in *; lia. }
  assert (Hall2 := Hall'). rewrite <- Htd, all_digits_app in Hall2.
  apply andb_true_iff in Hall2 as [Ha Hb].
  split; [reflexivity|]. split; [exact Ha|]. split; [lia|]. split; [exact Hb|].
  split.
  - assert (Hl := f_equal len Htd). rewrite len_app in Hl. lia.
  - rewrite Htd. exact Hval'.
Qed.

Lemma nearest_scaled_spec (N D f : Z) :
  0 <= N -> 0 < D -> 0 <= f ->
  let n := nearest_scaled N D f in
  0 <= n /\ (2 * n - 1) * D <= 2 * N * 10 ^ f < (2 * n + 1) * D.
Proof.
  intros HN HD Hf n. subst n. unfold nearest_scaled.
  assert (Hp : 0 < 10 ^ f) by (apply Z.pow_pos_nonneg; lia).
  pose proof (Z.div_mod (2 * N * 10 ^ f + D) (2 * D)) as Hdm.
  pose proof (Z.mod_pos_bound (2 * N * 10 ^ f + D) (2 * D)) as Hb.
  split.
  - apply Z.div_pos; nia.
  - nia.
Qed.

Lemma numerator_pos (m : positive) (e : Z) : 0 < numerator m e.
Proof.
  unfold numerator. destruct (0 <=? e) eqn:E; [|lia].
  apply Z.leb_le in E.
  assert (0 < 2 ^ e) by (apply Z.pow_pos_nonneg; lia). nia.
Qed.

Lemma denominator_pos (e : Z) : 0 < denominator e.
Proof.
  unfold denominator. destruct (0 <=? e) eqn:E; [lia|].
  apply Z.leb_gt in E. apply Z.pow_pos_nonneg; lia.
Qed.

Lemma span_digits_spec (s : string) :
  s = fst (span_digits s) ++ snd (span_digits s)
  /\ all_digits (fst (span_digits s)) = true
  /\ starts_nondigit (snd (span_digits s)).
Proof.
  induction s as [|c s IH]; simpl; [auto|].
  destruct (is_digit c) eqn:E.
  - destruct (span_digits s) as [d r]. simpl in *.
    destruct IH as (H1 & H2 & H3). rewrite E, H2, <- H1. auto.
  - simpl. rewrite E. auto.
Qed.

Lemma span_digits_app (d r : string) :
  all_digits d = true -> starts_nondigit r -> span_digits (d ++ r) = (d, r).
Proof.
  intros Hd Hr. induction d as [|c d IH]; simpl in *.
  - destruct r as [|c r]; [reflexivity|]. simpl in *. rewrite Hr. reflexivity.
  - apply andb_true_iff in Hd as [Hc Hd]. rewrite Hc, (IH Hd). reflexivity.
Qed.

Lemma prefix_glyph (s : string) : String.prefix "₹" ("₹" ++ s) = true.
Proof.
  apply String.prefix_correct. cbn [append String.length substring].
  destruct s; reflexivity.
Qed.

Lemma drop_glyph (s : string) : drop 3 ("₹" ++ s) = s.
Proof. reflexivity. Qed.

Lemma is_digit_not_minus (c : ascii) (r : string) :
  is_digit c = true ->
  match String c r with String "-" r0 => r0 | _ => String c r end = String c r.
Proof.
  intros Hc.
  destruct c as [[] [] [] [] [] [] [] []]; try reflexivity; discriminate Hc.
Qed.

Lemma two_decimal_form_intro (sign ip fp : string) :
  sign = "" \/ sign = "-" ->
  all_digits ip = true -> 0 < len ip -> all_digits fp = true -> len fp = 2 ->
  two_decimal_form ("₹" ++ sign ++ ip ++ "." ++ fp) = true.
Proof.
  intros Hs Hip Hlen Hfp Hlfp.
  assert (Hspan : span_digits (ip ++ "." ++ fp) = (ip, "." ++ fp)).
  { apply span_digits_app; [exact Hip|reflexivity]. }
  assert (Hbody : match sign ++ ip ++ "." ++ fp with
                  | String "-" r0 => r0
                  | _ => sign ++ ip ++ "." ++ fp
                  end = ip ++ "." ++ fp).
  { destruct Hs as [-> | ->]; [|reflexivity].
    destruct ip as [|c r]; [unfold len in Hlen; simpl in Hlen; lia|].
    simpl in Hip. apply andb_true_iff in Hip as [Hc _].
    exact (is_digit_not_minus c (r ++ "." ++ fp) Hc). }
  unfold two_decimal_form.
  rewrite prefix_glyph, drop_glyph, Hbody, Hspan.
  replace (len ip =? 0) with false by (symmetry; apply Z.eqb_neq; lia).
  cbn [append negb andb]. rewrite Hfp, Hlfp. reflexivity.
Qed.

Lemma toFixed_finite (s : bool) (m : positive) (e : Z) :
  toFixed (S754_finite s m e) 2
  = Normal ((if s then "-" else "")
            ++ (if 10 ^ 21 * denominator e <=? numerator m e
                then Number_toString (S754_finite false m e)
                else fixed_digits
                       (nearest_scaled (numerator m e) (denominator e) 2) 2)).
Proof. reflexivity. Qed.

(** The formatter on an input that [parseFloat] reads as a finite Number of
    magnitude below 10^21. *)
Lemma parsed_two_decimals (amount : value) (x : number) :
  parseFloat amount = Normal x ->
  fixed_range x = true ->
  exists ip fp,
    formatCurrency amount
    = Normal ("₹" ++ (if is_negative x then "-" else "") ++ ip ++ "." ++ fp)
    /\ all_digits ip = true /\ 0 < len ip
    /\ all_digits fp = true /\ len fp = 2
    /\ two_decimal_form
         ("₹" ++ (if is_negative x then "-" else "") ++ ip ++ "." ++ fp) = true
    /\ (2 * digits_value (ip ++ fp) - 1) * abs_denominator x
       <= 200 * abs_numerator x
       < (2 * digits_value (ip ++ fp) + 1) * abs_denominator x.
Proof.
  intros Hparse Hrange.
  unfold formatCurrency. rewrite Hparse. cbn [bind].
  assert (Hshape : exists n,
    toFixed x 2 = Normal ((if is_negative x then "-" else "") ++ fixed_digits n 2)
    /\ 0 <= n
    /\ (2 * n - 1) * abs_denominator x <= 200 * abs_numerator x
       < (2 * n + 1) * abs_denominator x).
  { destruct x as [s | s | | s m e]; try discriminate Hrange.
    - exists 0. simpl. split; [reflexivity|lia].
    - exists (nearest_scaled (numerator m e) (denominator e) 2).
      cbn [fixed_range] in Hrange. apply Z.ltb_lt in Hrange.
      pose proof (numerator_pos m e) as HN.
      pose proof (denominator_pos e) as HD.
      destruct (nearest_scaled_spec (numerator m e) (denominator e) 2) as [H0 Hb]; try lia.
      split.
      + rewrite toFixed_finite. cbn [is_negative].
        replace (10 ^ 21 * denominator e <=? numerator m e) with false
          by (symmetry; apply Z.leb_gt; exact Hrange).
        reflexivity.
      + split; [exact H0|]. cbn [abs_numerator abs_denominator].
        change (10 ^ 2) with 100 in Hb. lia. }
  destruct Hshape as (n & Hfix & Hn & Hround).
  destruct (fixed_digits_spec n 2 Hn) as (ip & fp & Hd & Hip & Hlip & Hfp & Hlfp & Hval); [lia|].
  exists ip, fp. rewrite Hfix, Hd. cbn [bind].
  split; [reflexivity|].
  split; [exact Hip|]. split; [exact Hlip|]. split; [exact Hfp|]. split; [exact Hlfp|].
  split.
  - apply two_decimal_form_intro; auto. destruct (is_negative x); auto.
  - rewrite Hval. exact Hround.
Qed.

(** *** The scanner against the grammar *)

Ltac each_ascii c :=
  destruct c as [[] [] [] [] [] [] [] []].

Lemma split_sign_unsigned_start (c : ascii) (r : string) :
  unsigned_start c = true -> split_sign (String c r) = (false, String c r).
Proof. intros H. each_ascii c; try reflexivity; discriminate H. Qed.

Lemma strip_point_inv (s r : string) :
  strip_point s = Some r -> s = "." ++ r.
Proof.
  destruct s as [|c s]; [discriminate|].
  each_ascii c; try discriminate. simpl. intros [= ->]. reflexivity.
Qed.

Lemma strip_point_other (c : ascii) (r : string) :
  Ascii.eqb c "." = false -> strip_point (String c r) = None.
Proof. intros H. each_ascii c; try reflexivity; discriminate H. Qed.

Lemma exponent_indicator_inv (c : ascii) :
  is_exponent_indicator c = true -> c = "e"%char \/ c = "E"%char.
Proof. intros H. each_ascii c; try discriminate H; auto. Qed.

Lemma split_sign_spec (s : string) :
  exists sg, s = sg ++ snd (split_sign s) /\ Sign sg
    /\ (sg = "-" <-> fst (split_sign s) = true)
    /\ (sg = "" -> forall c r, s = String c r -> c <> "+"%char /\ c <> "-"%char).
Proof.
  destruct s as [|c s].
  - exists "". unfold Sign. simpl. intuition discriminate.
  - each_ascii c;
      try (exists ""; unfold Sign; simpl; split; [reflexivity|]; split; [auto|];
           split; [intuition discriminate|];
           intros _ c' r' [= <- <-]; split; discriminate).
    + exists "+". unfold Sign. simpl. split; [reflexivity|]. split; [auto|].
      split; [split; intros H; discriminate H|]. intros H; discriminate H.
    + exists "-". unfold Sign. simpl. split; [reflexivity|]. split; [auto|].
      split; [split; reflexivity|]. intros H; discriminate H.
Qed.

Lemma split_sign_digits (sg d : string) (c : ascii) (r : string) :
  Sign sg -> is_digit c = true ->
  split_sign (sg ++ String c r)
  = (if String.eqb sg "-" then true else false, String c r).
Proof.
  intros [-> | [-> | ->]] Hc; try reflexivity.
  cbn [append String.eqb]. each_ascii c; try reflexivity; discriminate Hc.
Qed.

Lemma span_digits_prefix (d r : string) :
  all_digits d = true ->
  span_digits (d ++ r) = (d ++ fst (span_digits r), snd (span_digits r)).
Proof.
  intros Hd. induction d as [|c d IH]; simpl in *.
  - destruct (span_digits r); reflexivity.
  - apply andb_true_iff in Hd as [Hc Hd]. rewrite Hc, (IH Hd). reflexivity.
Qed.

Lemma span_digits_nondigit (s : string) :
  starts_nondigit s -> span_digits s = ("", s).
Proof.
  destruct s as [|c s]; simpl; [reflexivity|]. intros ->. reflexivity.
Qed.

Lemma span_digits_len (s : string) :
  len (fst (span_digits s)) + len (snd (span_digits s)) = len s.
Proof.
  destruct (span_digits_spec s) as (H & _).
  rewrite H at 3. rewrite len_app. reflexivity.
Qed.

Lemma len_pos_head (s : string) :
  0 < len s -> exists c r, s = String c r.
Proof.
  destruct s as [|c r]; [unfold len; simpl; lia|eauto].
Qed.

Lemma digits_head (d : string) :
  DecimalDigits d -> exists c r, d = String c r /\ is_digit c = true.
Proof.
  intros [Hall Hlen]. destruct (len_pos_head d Hlen) as (c & r & ->).
  simpl in Hall. apply andb_true_iff in Hall as [Hc _]. eauto.
Qed.

Lemma prefix_append (p s : string) : String.prefix p (p ++ s) = true.
Proof.
  induction p as [|c p IH]; simpl; [destruct s; reflexivity|].
  destruct (ascii_dec c c); [exact IH|congruence].
Qed.

Lemma prefix_inv (p s : string) :
  String.prefix p s = true -> s = p ++ drop (String.length p) s.
Proof.
  revert s; induction p as [|c p IH]; intros s H; [reflexivity|].
  destruct s as [|c' s]; [discriminate|]. simpl in H.
  destruct (ascii_dec c c') as [<- |]; [|discriminate].
  simpl. rewrite <- (IH s H). reflexivity.
Qed.

Lemma prefix_head (c c' : ascii) (p s : string) :
  c <> c' -> String.prefix (String c p) (String c' s) = false.
Proof.
  intros H. simpl. destruct (ascii_dec c c'); [contradiction|reflexivity].
Qed.

Lemma len_cons (c : ascii) (s : string) : len (String c s) = 1 + len s.
Proof. unfold len. cbn [String.length]. lia. Qed.

Lemma scan_exponent_len (s : string) :
  len (snd (scan_exponent s)) <= len s.
Proof.
  unfold scan_exponent. destruct s as [|c r]; [cbn [snd]; lia|].
  destruct (is_exponent_indicator c); [|cbn [snd]; lia].
  destruct (split_sign_spec r) as (sg & Hr & _).
  destruct (split_sign r) as [neg r']. simpl in Hr.
  pose proof (span_digits_len r') as Hl.
  destruct (span_digits r') as [d r'']. simpl in Hl.
  destruct (len d =? 0); cbn [snd]; [lia|].
  assert (H := f_equal len Hr). rewrite len_app in H.
  pose proof (len_nonneg sg). pose proof (len_nonneg d).
  rewrite len_cons. lia.
Qed.

(** An ExponentPart at the head of a string is scanned whole, with the
    digits that follow it. *)
Lemma scan_exponent_app (e r : string) :
  ExponentPart e ->
  exists neg d,
    scan_exponent (e ++ r)
    = (Some (neg, d ++ fst (span_digits r)), snd (span_digits r))
    /\ DecimalDigits d.
Proof.
  intros [ind sg d Hind Hsg Hd].
  destruct (digits_head d Hd) as (c & d' & -> & Hc).
  exists (if String.eqb sg "-" then true else false), (String c d').
  split; [|exact Hd].
  assert (Hi : exists ci, ind = String ci "" /\ is_exponent_indicator ci = true).
  { destruct Hind as [-> | ->]; eexists; split; reflexivity. }
  destruct Hi as (ci & -> & Hci).
  cbn [append]. unfold scan_exponent. rewrite Hci.
  rewrite append_assoc.
  change (String c d' ++ r) with (String c (d' ++ r)).
  rewrite (split_sign_digits sg "" c (d' ++ r) Hsg Hc).
  change (String c (d' ++ r)) with (String c d' ++ r).
  destruct Hd as [Hall Hlen].
  rewrite (span_digits_prefix _ r Hall).
  replace (len (String c d' ++ fst (span_digits r)) =? 0) with false.
  - reflexivity.
  - symmetry. apply Z.eqb_neq. rewrite len_app.
    pose proof (len_nonneg (fst (span_digits r))). lia.
Qed.

(** What [scan_exponent] takes is an ExponentPart or nothing, and it is
    taken again when it stands alone. *)
Lemma scan_exponent_sound (s : string) :
  exists pe,
    s = pe ++ snd (scan_exponent s)
    /\ OptExponentPart pe
    /\ scan_exponent pe = (fst (scan_exponent s), "").
Proof.
  unfold scan_exponent. destruct s as [|c r].
  { exists "". simpl. unfold OptExponentPart. auto. }
  destruct (is_exponent_indicator c) eqn:Hc.
  2:{ exists "". simpl. unfold OptExponentPart. auto. }
  destruct (split_sign_spec r) as (sg & Hr & Hsg & Hneg & _).
  destruct (split_sign r) as [neg r'] eqn:Hss. simpl in Hr, Hneg.
  destruct (span_digits_spec r') as (Hr' & Hall & _).
  destruct (span_digits r') as [d r''] eqn:Hsp. simpl in Hr', Hall.
  destruct (len d =? 0) eqn:Hlen.
  { exists "". simpl. unfold OptExponentPart. auto. }
  apply Z.eqb_neq in Hlen. pose proof (len_nonneg d).
  assert (Hd : DecimalDigits d) by (split; [exact Hall|lia]).
  exists (String c (sg ++ d)). cbn [fst snd]. split; [|split].
  - cbn [append]. rewrite append_assoc, <- Hr', <- Hr. reflexivity.
  - right. change (String c (sg ++ d)) with (String c "" ++ sg ++ d).
    constructor; auto.
    destruct (exponent_indicator_inv c Hc) as [-> | ->]; auto.
  - rewrite Hc.
    destruct (digits_head d Hd) as (c' & d' & -> & Hc').
    rewrite (split_sign_digits sg "" c' d' Hsg Hc').
    rewrite <- (append_empty_r (String c' d')) at 1.
    rewrite (span_digits_app _ "" Hall I).
    replace (len (String c' d') =? 0) with false by (symmetry; apply Z.eqb_neq; lia).
    destruct neg.
    + destruct Hneg as [_ Hneg]. rewrite (Hneg eq_refl). reflexivity.
    + destruct (String.eqb sg "-") eqn:E; [|reflexivity].
      apply String.eqb_eq in E. destruct Hneg as [Hneg _].
      specialize (Hneg E). discriminate.
Qed.

Lemma opt_exponent_head (e : string) :
  OptExponentPart e -> starts_nondigit e /\ strip_point e = None.
Proof.
  intros [-> | [ind sg d Hind _ _]]; [split; reflexivity|].
  destruct Hind as [-> | ->]; split; reflexivity.
Qed.

Lemma scan_fraction_len (i r1 : string) :
  len (snd (scan_fraction i r1)) <= len r1.
Proof.
  unfold scan_fraction. destruct (strip_point r1) as [r|] eqn:Hp; cbn [snd]; [|lia].
  apply strip_point_inv in Hp. subst r1.
  pose proof (span_digits_len r) as Hl.
  destruct (span_digits r) as [f r2]. cbn [fst snd] in Hl.
  pose proof (len_nonneg f).
  destruct ((len i =? 0) && (len f =? 0)); cbn [snd]; [lia|].
  change ("." ++ r) with (String "." r). rewrite len_cons. lia.
Qed.

(** After the digits and the fraction, an ExponentPart that stands next is
    taken whole. *)
Lemma scan_exponent_after (e r : string) :
  OptExponentPart e ->
  len (snd (scan_exponent (snd (span_digits (e ++ r))))) <= len r.
Proof.
  intros [-> | He].
  - cbn [append]. pose proof (scan_exponent_len (snd (span_digits r))).
    pose proof (span_digits_len r). pose proof (len_nonneg (fst (span_digits r))). lia.
  - destruct (opt_exponent_head e (or_intror He)) as [Hnd _].
    assert (Hnd' : starts_nondigit (e ++ r)).
    { destruct He as [ind sg d [-> | ->] _ _]; exact I || reflexivity. }
    rewrite (span_digits_nondigit _ Hnd'). cbn [snd].
    destruct (scan_exponent_app e r He) as (neg & d & -> & _). cbn [snd].
    pose proof (span_digits_len r). pose proof (len_nonneg (fst (span_digits r))). lia.
Qed.

Lemma scan_decimal_some (s : string) :
  0 < len (fst (span_digits s)) ->
  exists l rest, scan_decimal s = Some (l, rest)
    /\ len rest <= len (snd (span_digits s)).
Proof.
  intros Hi. unfold scan_decimal.
  destruct (span_digits s) as [i r1]. cbn [fst snd] in *.
  pose proof (scan_fraction_len i r1) as Hf.
  destruct (scan_fraction i r1) as [f r2]. cbn [snd] in Hf.
  replace (len i =? 0) with false by (symmetry; apply Z.eqb_neq; lia).
  cbn [andb].
  pose proof (scan_exponent_len r2) as He.
  destruct (scan_exponent r2) as [e r3]. cbn [snd] in He.
  eexists _, _. split; [reflexivity|lia].
Qed.

(** A point with a digit on one side at least, at the head of what follows
    the digits, is taken with the digits on its right. *)
Lemma scan_decimal_point (i f e r : string) :
  all_digits i = true -> all_digits f = true ->
  0 < len i \/ 0 < len f ->
  OptExponentPart e ->
  exists l rest, scan_decimal (i ++ "." ++ f ++ e ++ r) = Some (l, rest)
    /\ len rest <= len r.
Proof.
  intros Hi Hf Hne He. unfold scan_decimal.
  rewrite (span_digits_app i ("." ++ f ++ e ++ r) Hi) by reflexivity.
  unfold scan_fraction. cbn [append strip_point].
  rewrite (span_digits_prefix f (e ++ r) Hf).
  pose proof (scan_exponent_after e r He) as Hlen.
  destruct (span_digits (e ++ r)) as [d2 r2]. cbn [fst snd] in *.
  assert (Hcond : (len i =? 0) && (len (f ++ d2) =? 0) = false).
  { rewrite len_app. pose proof (len_nonneg d2). pose proof (len_nonneg i).
    pose proof (len_nonneg f).
    destruct Hne.
    - replace (len i =? 0) with false by (symmetry; apply Z.eqb_neq; lia). reflexivity.
    - replace (len f + len d2 =? 0) with false by (symmetry; apply Z.eqb_neq; lia).
      apply andb_false_r. }
  rewrite Hcond, Hcond.
  destruct (scan_exponent r2) as [ex r3]. cbn [snd] in Hlen.
  eexists _, _. split; [reflexivity|exact Hlen].
Qed.

Lemma scan_decimal_integer (i e r : string) :
  DecimalDigits i -> ExponentPart e ->
  exists l rest, scan_decimal (i ++ e ++ r) = Some (l, rest)
    /\ len rest <= len r.
Proof.
  intros [Hi Hlen] He. unfold scan_decimal.
  destruct (opt_exponent_head e (or_intror He)) as [_ Hp].
  assert (Hnd : starts_nondigit (e ++ r) /\ strip_point (e ++ r) = None).
  { destruct He as [ind sg d [-> | ->] _ _]; split; reflexivity. }
  destruct Hnd as [Hnd Hsp].
  rewrite (span_digits_app i (e ++ r) Hi Hnd).
  unfold scan_fraction. rewrite Hsp.
  replace (len i =? 0) with false by (symmetry; apply Z.eqb_neq; lia).
  cbn [andb].
  destruct (scan_exponent_app e r He) as (neg & d & -> & _).
  eexists _, _. split; [reflexivity|].
  pose proof (span_digits_len r). pose proof (len_nonneg (fst (span_digits r))). lia.
Qed.

Lemma unsigned_literal_head (u : string) :
  StrUnsignedDecimalLiteral u ->
  exists c r, u = String c r /\ unsigned_start c = true.
Proof.
  intros [ | i f e Hi _ _ | f e _ _ | i e Hi _ ].
  - eexists _, _. split; reflexivity.
  - destruct (digits_head i Hi) as (c & r & -> & Hc).
    eexists _, _. split; [reflexivity|]. unfold unsigned_start. rewrite Hc. reflexivity.
  - eexists _, _. split; reflexivity.
  - destruct (digits_head i Hi) as (c & r & -> & Hc).
    eexists _, _. split; [reflexivity|]. unfold unsigned_start. rewrite Hc. reflexivity.
Qed.

Lemma digit_not_I (c : ascii) : is_digit c = true -> "I"%char <> c.
Proof. intros H <-. discriminate H. Qed.

(** Maximality: a literal at the head of a string is scanned, and nothing
    of it is left over. *)
Lemma scan_unsigned_complete (u r : string) :
  StrUnsignedDecimalLiteral u ->
  exists l rest, scan_unsigned (u ++ r) = Some (l, rest) /\ len rest <= len r.
Proof.
  intros Hu. unfold scan_unsigned.
  destruct (unsigned_literal_head u Hu) as (c0 & u0 & Hhead & Hstart).
  destruct Hu as [ | i f e Hi Hf He | f e Hf He | i e Hi He ].
  - rewrite prefix_append. eexists _, _. split; [reflexivity|].
    change (drop 8 ("Infinity" ++ r)) with r. lia.
  - assert (Hpre : String.prefix "Infinity" ((i ++ "." ++ f ++ e) ++ r) = false).
    { destruct (digits_head i Hi) as (c & i' & -> & Hc).
      cbn [append]. apply prefix_head, digit_not_I, Hc. }
    rewrite Hpre, !append_assoc. destruct Hi as [Hi Hlen].
    apply (scan_decimal_point i f e r); auto.
  - assert (Hpre : String.prefix "Infinity" (("." ++ f ++ e) ++ r) = false).
    { cbn [append]. apply prefix_head. discriminate. }
    rewrite Hpre, !append_assoc. destruct Hf as [Hf Hlen].
    apply (scan_decimal_point "" f e r); auto.
  - assert (Hpre : String.prefix "Infinity" ((i ++ e) ++ r) = false).
    { destruct (digits_head i Hi) as (c & i' & -> & Hc).
      cbn [append]. apply prefix_head, digit_not_I, Hc. }
    rewrite Hpre, append_assoc.
    destruct He as [-> | He].
    + cbn [append].
      destruct Hi as [Hi Hlen].
      destruct (scan_decimal_some (i ++ r)) as (l & rest & Hs & Hl).
      * rewrite (span_digits_prefix i r Hi). cbn [fst].
        rewrite len_app. pose proof (len_nonneg (fst (span_digits r))). lia.
      * exists l, rest. split; [exact Hs|].
        rewrite (span_digits_prefix i r Hi) in Hl. cbn [snd] in Hl.
        pose proof (span_digits_len r). pose proof (len_nonneg (fst (span_digits r))). lia.
    + apply scan_decimal_integer; assumption.
Qed.

(** Soundness: what the scanner takes is a literal, and it is taken again,
    with the same result, when it stands alone. *)
Lemma scan_decimal_sound (s : string) (l : literal) (rest : string) :
  scan_decimal s = Some (l, rest) ->
  exists u, s = u ++ rest /\ StrUnsignedDecimalLiteral u
    /\ scan_decimal u = Some (l, "").
Proof.
  unfold scan_decimal at 1.
  destruct (span_digits_spec s) as (Hs & Hi & Hnd).
  destruct (span_digits s) as [i r1]. cbn [fst snd] in Hs, Hi, Hnd.
  unfold scan_fraction.
  destruct (strip_point r1) as [r|] eqn:Hp.
  - apply strip_point_inv in Hp.
    destruct (span_digits_spec r) as (Hr & Hf & Hndf).
    destruct (span_digits r) as [f r2]. cbn [fst snd] in Hr, Hf, Hndf.
    destruct ((len i =? 0) && (len f =? 0)) eqn:Hcond.
    + apply andb_true_iff in Hcond as [Hi0 _]. rewrite Hi0. discriminate.
    + destruct (scan_exponent_sound r2) as (pe & Hr2 & Hpe & Hrescan).
      destruct (scan_exponent r2) as [e r3]. cbn [fst snd] in Hr2, Hrescan.
      cbv beta iota. rewrite Hcond. intros [= <- <-].
      destruct (opt_exponent_head pe Hpe) as [Hpnd Hpsp].
      exists (i ++ "." ++ f ++ pe). split; [|split].
      * rewrite Hs, Hp, Hr, Hr2, !append_assoc. reflexivity.
      * apply andb_false_iff in Hcond.
        pose proof (len_nonneg i). pose proof (len_nonneg f).
        destruct (Z.eqb_spec (len i) 0) as [Hi0|Hi0].
        -- assert (i = "") as -> by (destruct i; [reflexivity|rewrite len_cons in Hi0; pose proof (len_nonneg i); lia]).
           apply (unsigned_fraction f pe); [|exact Hpe].
           split; [exact Hf|]. destruct Hcond as [Hc|Hc]; [discriminate|].
           apply Z.eqb_neq in Hc. lia.
        -- apply unsigned_point; [split; [exact Hi|lia]|exact Hf|exact Hpe].
      * unfold scan_decimal.
        rewrite (span_digits_app i ("." ++ f ++ pe) Hi) by reflexivity.
        unfold scan_fraction. cbn [append strip_point].
        rewrite (span_digits_app f pe Hf Hpnd), Hcond, Hcond, Hrescan.
        reflexivity.
  - destruct (len i =? 0) eqn:Hi0; cbn [andb len String.length Z.of_nat Z.eqb]; [discriminate|].
    destruct (scan_exponent_sound r1) as (pe & Hr1 & Hpe & Hrescan).
    destruct (scan_exponent r1) as [e r3]. cbn [fst snd] in Hr1, Hrescan.
    cbv beta iota. intros [= <- <-].
    destruct (opt_exponent_head pe Hpe) as [Hpnd Hpsp].
    apply Z.eqb_neq in Hi0. pose proof (len_nonneg i).
    exists (i ++ pe). split; [|split].
    + rewrite Hs, Hr1, !append_assoc. reflexivity.
    + apply unsigned_integer; [split; [exact Hi|lia]|exact Hpe].
    + unfold scan_decimal.
      rewrite (span_digits_app i pe Hi Hpnd).
      unfold scan_fraction. rewrite Hpsp.
      replace (len i =? 0) with false by (symmetry; apply Z.eqb_neq; lia).
      cbn [andb]. rewrite Hrescan. reflexivity.
Qed.

Lemma scan_unsigned_sound (s : string) (l : literal) (rest : string) :
  scan_unsigned s = Some (l, rest) ->
  exists u, s = u ++ rest /\ StrUnsignedDecimalLiteral u
    /\ scan_unsigned u = Some (l, "").
Proof.
  unfold scan_unsigned at 1.
  destruct (String.prefix "Infinity" s) eqn:Hpre.
  - intros [= <- <-]. exists "Infinity".
    split; [exact (prefix_inv _ _ Hpre)|]. split; [constructor|reflexivity].
  - intros H. destruct (scan_decimal_sound s l rest H) as (u & Hs & Hu & Hres).
    exists u. split; [exact Hs|]. split; [exact Hu|].
    unfold scan_unsigned.
    assert (Hpre' : String.prefix "Infinity" u = false).
    { destruct (String.prefix "Infinity" u) eqn:E; [|reflexivity].
      apply prefix_inv in E. rewrite Hs, E, append_assoc, prefix_append in Hpre.
      discriminate. }
    rewrite Hpre'. exact Hres.
Qed.

Lemma scan_literal_sound (s : string) (neg : bool) (l : literal) (rest : string) :
  scan_literal s = Some (neg, l, rest) ->
  exists p, s = p ++ rest /\ StrDecimalLiteral p
    /\ scan_literal p = Some (neg, l, "").
Proof.
  unfold scan_literal at 1.
  destruct (split_sign_spec s) as (sg & Hs & Hsg & Hneg & _).
  destruct (split_sign s) as [neg' r]. cbn [fst snd] in Hs, Hneg.
  destruct (scan_unsigned r) as [[l' rest']|] eqn:Hscan; [|discriminate].
  intros [= <- <- <-].
  destruct (scan_unsigned_sound r l' rest' Hscan) as (u & Hr & Hu & Hres).
  exists (sg ++ u). split; [|split].
  - rewrite Hs, Hr, append_assoc. reflexivity.
  - constructor; assumption.
  - unfold scan_literal.
    destruct (unsigned_literal_head u Hu) as (c & u0 & -> & Hc).
    assert (Hsplit : split_sign (sg ++ String c u0) = (neg', String c u0)).
    { destruct Hsg as [-> | [-> | ->]].
      - cbn [append]. rewrite (split_sign_unsigned_start c u0 Hc).
        destruct neg'; [|reflexivity].
        destruct Hneg as [_ Hneg]. discriminate (Hneg eq_refl).
      - destruct neg'; [|reflexivity].
        destruct Hneg as [_ Hneg]. discriminate (Hneg eq_refl).
      - destruct neg'; [reflexivity|].
        destruct Hneg as [Hneg _]. discriminate (Hneg eq_refl). }
    rewrite Hsplit, Hres. reflexivity.
Qed.

Lemma scan_literal_complete (p r : string) :
  StrDecimalLiteral p ->
  exists neg l rest,
    scan_literal (p ++ r) = Some (neg, l, rest) /\ len rest <= len r.
Proof.
  intros [sg u Hsg Hu]. unfold scan_literal.
  destruct (unsigned_literal_head u Hu) as (c & u0 & Hhead & Hc).
  assert (Hsplit : exists neg, split_sign ((sg ++ u) ++ r) = (neg, u ++ r)).
  { rewrite append_assoc. destruct Hsg as [-> | [-> | ->]].
    - exists false. rewrite Hhead. cbn [append].
      apply split_sign_unsigned_start, Hc.
    - exists false. reflexivity.
    - exists true. reflexivity. }
  destruct Hsplit as (neg & ->).
  destruct (scan_unsigned_complete u r Hu) as (l & rest & -> & Hlen).
  exists neg, l, rest. split; [reflexivity|exact Hlen].
Qed.

Lemma app_inv_len (a b c d : string) :
  a ++ b = c ++ d -> len a = len c -> a = c /\ b = d.
Proof.
  revert c; induction a as [|x a IH]; intros [|y c] H Hlen.
  - auto.
  - rewrite len_cons in Hlen. pose proof (len_nonneg c).
    change (len "") with 0 in Hlen. lia.
  - rewrite len_cons in Hlen. pose proof (len_nonneg a).
    change (len "") with 0 in Hlen. lia.
  - cbn [append] in H. injection H as -> H. rewrite !len_cons in Hlen.
    destruct (IH c H) as [-> ->]; [lia|auto].
Qed.


Lemma scan_literal_none (t : string) :
  scan_literal t = None <-> no_literal_prefix t.
Proof.
  split.
  - intros Hnone p r Ht Hp.
    destruct (scan_literal_complete p r Hp) as (neg & l & rest & Hscan & _).
    rewrite <- Ht, Hnone in Hscan. discriminate.
  - intros Hno. destruct (scan_literal t) as [[[neg l] rest]|] eqn:E; [|reflexivity].
    destruct (scan_literal_sound t neg l rest E) as (p & Ht & Hp & _).
    destruct (Hno p rest Ht Hp).
Qed.

(** *** Rounding never yields NaN *)

Lemma shr_1_nonneg (mrs : shr_record) :
  0 <= shr_m mrs -> 0 <= shr_m (shr_1 mrs).
Proof.
  destruct mrs as [m r s]. cbn [shr_m shr_1].
  destruct m as [|[p|p|]|p]; cbn [shr_m]; lia.
Qed.

Lemma iter_shr_1_nonneg (p : positive) (mrs : shr_record) :
  0 <= shr_m mrs -> 0 <= shr_m (iter_pos shr_1 p mrs).
Proof.
  revert mrs; induction p as [p IH|p IH|]; intros mrs H; cbn [iter_pos].
  - apply IH, IH, shr_1_nonneg, H.
  - apply IH, IH, H.
  - apply shr_1_nonneg, H.
Qed.

Lemma shr_fexp_nonneg (m e : Z) (l : location) :
  0 <= m -> 0 <= shr_m (fst (shr_fexp prec emax m e l)).
Proof.
  intros Hm. unfold shr_fexp, shr.
  assert (H0 : 0 <= shr_m (shr_record_of_loc m l)).
  { destruct l as [|[]]; exact Hm. }
  destruct (fexp prec emax (Zdigits2 m + e) - e) as [|p|p]; cbn [fst]; auto.
  apply iter_shr_1_nonneg, H0.
Qed.

Lemma round_nearest_even_nonneg (m : Z) (l : location) :
  0 <= m -> 0 <= round_nearest_even m l.
Proof.
  intros Hm. unfold round_nearest_even.
  destruct l as [|[]]; try lia. destruct (Z.even m); lia.
Qed.

Lemma binary_round_aux_not_nan (s : bool) (m e : Z) (l : location) :
  0 <= m -> binary_round_aux prec emax s m e l <> S754_nan.
Proof.
  intros Hm. unfold binary_round_aux.
  pose proof (shr_fexp_nonneg m e l Hm) as H1.
  destruct (shr_fexp prec emax m e l) as [mrs' e']. cbn [fst] in H1.
  pose proof (shr_fexp_nonneg _ e' loc_Exact
                (round_nearest_even_nonneg _ (loc_of_shr_record mrs') H1)) as H2.
  destruct (shr_fexp prec emax _ e' loc_Exact) as [mrs'' e'']. cbn [fst] in H2.
  destruct (shr_m mrs'') as [|p|p]; [discriminate| |lia].
  destruct (e'' <=? emax - prec); discriminate.
Qed.

Lemma round_ratio_not_nan (neg : bool) (N D : Z) :
  0 <= N -> 0 < D -> round_ratio neg N D <> S754_nan.
Proof.
  intros HN HD. unfold round_ratio.
  destruct N as [|p|p]; [discriminate| |lia].
  unfold SFdiv_core_binary.
  set (s := 0 - 0 - _).
  set (m' := match s with Z.pos _ => Z.shiftl (Z.pos p) s | 0 => Z.pos p | Z.neg _ => 0 end).
  assert (Hm' : 0 <= m').
  { unfold m'. destruct s; try lia. apply Z.shiftl_nonneg. lia. }
  pose proof (Z_div_mod m' D ltac:(lia)) as Hdiv.
  destruct (Z.div_eucl m' D) as [q r].
  apply binary_round_aux_not_nan. nia.
Qed.

Lemma number_of_decimal_not_nan (neg : bool) (m e : Z) :
  0 <= m -> number_of_decimal neg m e <> S754_nan.
Proof.
  intros Hm. unfold number_of_decimal.
  destruct (0 <=? e) eqn:E.
  - apply Z.leb_le in E. apply round_ratio_not_nan; [|lia].
    assert (0 < 10 ^ e) by (apply Z.pow_pos_nonneg; lia). nia.
  - apply Z.leb_gt in E. apply round_ratio_not_nan; [exact Hm|].
    apply Z.pow_pos_nonneg; lia.
Qed.

Lemma is_digit_value (c : ascii) : is_digit c = true -> 0 <= digit_value c < 10.
Proof.
  unfold is_digit, digit_value. intros H.
  apply andb_true_iff in H as [H1 H2].
  apply Z.leb_le in H1, H2. lia.
Qed.

Lemma digits_value_from_nonneg (s : string) (acc : Z) :
  all_digits s = true -> 0 <= acc -> 0 <= digits_value_from acc s.
Proof.
  revert acc; induction s as [|c s IH]; intros acc Hs Hacc;
    cbn [digits_value_from all_digits] in *; [exact Hacc|].
  apply andb_true_iff in Hs as [Hc Hs].
  apply IH; [exact Hs|]. pose proof (is_digit_value c Hc). lia.
Qed.

Lemma digits_value_nonneg (s : string) :
  all_digits s = true -> 0 <= digits_value s.
Proof. intros H. apply digits_value_from_nonneg; [exact H|lia]. Qed.

Lemma scan_decimal_digits (s : string) (l : literal) (rest : string) :
  scan_decimal s = Some (l, rest) ->
  exists i f e, l = LDecimal i f e
    /\ all_digits i = true /\ all_digits f = true.
Proof.
  unfold scan_decimal.
  destruct (span_digits_spec s) as (_ & Hi & _).
  destruct (span_digits s) as [i r1]. cbn [fst] in Hi.
  assert (Hf : all_digits (fst (scan_fraction i r1)) = true).
  { unfold scan_fraction. destruct (strip_point r1) as [r|]; [|reflexivity].
    destruct (span_digits_spec r) as (_ & Hf & _).
    destruct (span_digits r) as [f r2]. cbn [fst] in Hf.
    destruct ((len i =? 0) && (len f =? 0)); [reflexivity|exact Hf]. }
  destruct (scan_fraction i r1) as [f r2]. cbn [fst] in Hf.
  destruct ((len i =? 0) && (len f =? 0)); [discriminate|].
  destruct (scan_exponent r2) as [e r3].
  intros [= <- <-]. exists i, f, e. auto.
Qed.

(** The value of a scanned literal is a Number other than NaN. *)
Lemma scan_literal_value (t : string) (neg : bool) (l : literal) (rest : string) :
  scan_literal t = Some (neg, l, rest) -> literal_value neg l <> NaN.
Proof.
  unfold scan_literal. destruct (split_sign t) as [neg' r].
  destruct (scan_unsigned r) as [[l' rest']|] eqn:E; [|discriminate].
  intros [= <- <- <-]. unfold scan_unsigned in E.
  destruct (String.prefix "Infinity" r).
  - injection E as <- _. discriminate.
  - destruct (scan_decimal_digits r l' rest' E) as (i & f & e & -> & Hi & Hf).
    unfold literal_value. apply number_of_decimal_not_nan.
    pose proof (digits_value_nonneg i Hi). pose proof (digits_value_nonneg f Hf).
    assert (0 < 10 ^ len f) by (apply Z.pow_pos_nonneg; [lia|apply len_nonneg]).
    nia.
Qed.

Lemma parse_float_string_nan (s : string) :
  parse_float_string s = NaN <-> scan_literal (TrimStart s) = None.
Proof.
  unfold parse_float_string.
  destruct (scan_literal (TrimStart s)) as [[[neg l] rest]|] eqn:E.
  - split; [|discriminate]. intros H.
    destruct (scan_literal_value _ _ _ _ E H).
  - split; reflexivity.
Qed.

(** *** What [toFixed] writes starts with a digit, a minus sign or [I] *)

Lemma digits_loop_head (fuel : nat) (n : Z) (acc : string) :
  head_digit acc -> head_digit (digits_loop fuel n acc).
Proof.
  revert n acc; induction fuel as [|fuel IH]; intros n acc Hacc; [exact Hacc|].
  cbn [digits_loop].
  assert (Hd : head_digit (String (digit_char (n mod 10)) acc)).
  { eexists _, _. split; [reflexivity|].
    destruct (digit_char_is_digit (n mod 10)) as [H _]; [|exact H].
    apply Z.mod_pos_bound. lia. }
  destruct (n <? 10); [exact Hd|apply IH, Hd].
Qed.

Lemma decimal_digits_head (n : Z) : head_digit (decimal_digits n).
Proof.
  unfold decimal_digits. cbn [digits_loop].
  assert (Hd : head_digit (String (digit_char (n mod 10)) "")).
  { eexists _, _. split; [reflexivity|].
    destruct (digit_char_is_digit (n mod 10)) as [H _]; [|exact H].
    apply Z.mod_pos_bound. lia. }
  destruct (n <? 10); [exact Hd|apply digits_loop_head, Hd].
Qed.

Lemma format_decimal_head (ds : string) (n : Z) :
  head_digit ds -> head_digit (format_decimal ds n).
Proof.
  intros (c & r & -> & Hc). unfold format_decimal.
  destruct ((len (String c r) <=? n) && (n <=? 21)).
  { eexists _, _. split; [reflexivity|exact Hc]. }
  destruct ((0 <? n) && (n <=? 21)) eqn:E.
  { apply andb_true_iff in E as [E _]. apply Z.ltb_lt in E.
    destruct (Z.to_nat n) as [|k] eqn:Hk; [lia|].
    eexists _, _. split; [reflexivity|exact Hc]. }
  destruct ((-6 <? n) && (n <=? 0)).
  { eexists _, _. split; reflexivity. }
  destruct (len (String c r) =? 1);
    eexists _, _; (split; [reflexivity|exact Hc]).
Qed.

Lemma Number_toString_head (m : positive) (e : Z) :
  head_digit (Number_toString (S754_finite false m e)).
Proof.
  unfold Number_toString. destruct (shortest m e) as [d n].
  cbn [append]. apply format_decimal_head, decimal_digits_head.
Qed.

Lemma toFixed_two (x : number) : exists s, toFixed x 2 = Normal s.
Proof. destruct x; eexists; reflexivity. Qed.

(** The text ["NaN"] comes out of [toFixed] for the Number NaN only. *)
Lemma toFixed_nan (x : number) :
  toFixed x 2 = Normal "NaN" <-> x = NaN.
Proof.
  split; [|intros ->; reflexivity].
  destruct x as [s|s| |s m e]; try reflexivity.
  - discriminate.
  - destruct s; discriminate.
  - rewrite toFixed_finite.
    destruct s; [cbn [append]; discriminate|].
    cbn [append].
    destruct (10 ^ 21 * denominator e <=? numerator m e); intros [= H]; exfalso.
    + destruct (Number_toString_head m e) as (c & r & Hs & Hc).
      assert (Hs' : "NaN" = String c r) by (rewrite <- Hs; symmetry; exact H).
      injection Hs' as <- _. discriminate Hc.
    + pose proof (numerator_pos m e). pose proof (denominator_pos e).
      destruct (nearest_scaled_spec (numerator m e) (denominator e) 2) as [Hn _]; try lia.
      destruct (fixed_digits_spec _ 2 Hn) as (ip & fp & Hd & Hip & Hlen & _); [lia|].
      rewrite H in Hd.
      destruct (len_pos_head ip Hlen) as (c & r & ->).
      cbn [append] in Hd. injection Hd as <- _. discriminate Hip.
Qed.

(** The result is the glyph and ["NaN"] exactly when the parsed value is
    NaN. *)
Lemma formatCurrency_nan (amount : value) :
  formatCurrency amount = Normal "₹NaN" <-> parseFloat amount = Normal NaN.
Proof.
  unfold formatCurrency.
  destruct (parseFloat amount) as [x|err]; cbn [bind].
  - destruct (toFixed_two x) as (s & Hs). rewrite Hs. cbn [bind].
    split.
    + intros [= H]. f_equal. apply toFixed_nan. rewrite Hs. f_equal. exact H.
    + intros [= ->]. vm_compute in Hs. injection Hs as <-. reflexivity.
  - split; discriminate.
Qed.

Lemma TrimStart_literal_start (c : ascii) (r : string) :
  literal_start c = true -> TrimStart (String c r) = String c r.
Proof.
  intros H. each_ascii c; try discriminate H;
    destruct r as [|c2 [|c3 r3]]; reflexivity.
Qed.




(** ** The formatter: the claims *)

(** C2: [formatCurrency(9.999)] is ["₹10.00"]: the hundredths nearest to
    9.999 are 1000, so the rounding carries into the integer part. *)
Theorem formatCurrency_9_999 :
  formatCurrency (VNum n9_999) = Normal "₹10.00"
  /\ nearest_scaled (abs_numerator n9_999) (abs_denominator n9_999) 2 = 1000.
Proof. split; vm_compute; reflexivity. Qed.


(** C4: for every input with a text form none of whose prefixes, leading
    white space apart, is a decimal literal, [formatCurrency] completes
    normally with the glyph followed by ["NaN"], which is not a two-decimal
    numeric string. *)
Theorem formatCurrency_non_numeric (amount : value) (text : string) :
  ToString amount = Normal text ->
  no_literal_prefix (TrimStart text) ->
  formatCurrency amount = Normal "₹NaN"
  /\ two_decimal_form "₹NaN" = false.
Proof.
  intros Htext Hno. split; [|reflexivity].
  apply formatCurrency_nan. unfold parseFloat. rewrite Htext. cbn [bind].
  f_equal. apply parse_float_string_nan, scan_literal_none, Hno.
Qed.

Lemma formatCurrency_non_numeric_witness :
  formatCurrency (VStr "abc") = Normal "₹NaN"
  /\ two_decimal_form "₹NaN" = false.
Proof.
  apply (formatCurrency_non_numeric (VStr "abc") "abc").
  - reflexivity.
  - apply scan_literal_none. reflexivity.
Defined.



(** C10: for every input whose parsed value is negative, the result is the
    glyph, then the minus sign, then the magnitude as [toFixed] writes it. *)
Theorem formatCurrency_negative (amount : value) (x : number) :
  parseFloat amount = Normal x ->
  is_negative x = true ->
  exists body,
    toFixed (SFabs x) 2 = Normal body
    /\ formatCurrency amount = Normal ("₹" ++ "-" ++ body).
Proof.
  intros Hparse Hneg. unfold formatCurrency. rewrite Hparse. cbn [bind].
  destruct x as [s|s| |s m e]; try discriminate Hneg;
    cbn [is_negative] in Hneg; subst s.
  - exists "Infinity". split; reflexivity.
  - cbn [SFabs]. rewrite !toFixed_finite. cbn [bind append].
    eexists. split; reflexivity.
Qed.

Lemma formatCurrency_negative_witness :
  exists body,
    toFixed (SFabs (SFopp n5)) 2 = Normal body
    /\ formatCurrency (VNum (SFopp n5)) = Normal ("₹" ++ "-" ++ body).
Proof.
  apply (formatCurrency_negative (VNum (SFopp n5)) (SFopp n5));
    vm_compute; reflexivity.
Defined.

(** The example of C10: [formatCurrency(-5)] is ["₹-5.00"]. *)
Example formatCurrency_minus_5 :
  formatCurrency (VNum (SFopp n5)) = Normal "₹-5.00".
Proof. vm_compute. reflexivity. Qed.

(** The example of C9: [formatCurrency("42abc")] is ["₹42.00"]. *)
Example formatCurrency_42abc :
  formatCurrency (VStr "42abc") = Normal "₹42.00".
Proof. vm_compute. reflexivity. Qed.

(** [formatCurrency(0)] is ["₹0.00"]. *)
Example formatCurrency_zero :
  formatCurrency (VNum (S754_zero false)) = Normal "₹0.00".
Proof. vm_compute. reflexivity. Qed.

(** ** The initializer *)

Lemma forEach_setTimeout (l : list node) (p : page) :
  snd (forEach l (fun alert =>
         (_ <- setTimeout (dismiss alert) 5000 ;; ret tt)%script) p)
  = with_next_timer (next_timer p + List.length l)
      (with_timers (timers p ++ scheduled (next_timer p) (clock p + 5000) l) p).
Proof.
  revert p; induction l as [|n l IH]; intros p.
  - destruct p. unfold with_next_timer, with_timers, scheduled. cbn.
    rewrite List.app_nil_r, Nat.add_0_r. reflexivity.
  - cbn [forEach]. unfold seq_script at 1. unfold seq_script at 1.
    cbn [setTimeout ret]. rewrite IH.
    destruct p. unfold with_next_timer, with_timers, scheduled. cbn.
    rewrite <- List.app_assoc, Nat.add_succ_r. reflexivity.
Qed.

Lemma array_map_new_Tooltip (l : list node) (p : page) :
  array_map l (fun tooltipTriggerEl => new_Tooltip tooltipTriggerEl) p
  = (seq (next_handle p) (List.length l),
     with_next_handle (next_handle p + List.length l)
       (with_tooltips (tooltips p ++ built (next_handle p) l)
          (with_document (fix_titles l (document p)) p))).
Proof.
  revert p; induction l as [|n l IH]; intros p.
  - destruct p. unfold with_next_handle, with_tooltips, with_document, built.
    cbn. rewrite List.app_nil_r, Nat.add_0_r. reflexivity.
  - cbn [array_map]. unfold seq_script at 1. cbn [new_Tooltip].
    unfold seq_script at 1. rewrite IH. cbn [ret].
    destruct p. unfold with_next_handle, with_tooltips, with_document, built.
    cbn. rewrite <- List.app_assoc, Nat.add_succ_r. reflexivity.
Qed.

(** What the handler does, in one piece. *)
Lemma handler_spec (p : page) :
  handler p
  = ({| alerts := alert_nodes (document p);
        tooltipTriggerList := tooltip_nodes (document p);
        tooltipList := seq (next_handle p)
                           (List.length (tooltip_nodes (document p))) |},
     with_next_handle
       (next_handle p + List.length (tooltip_nodes (document p)))
       (with_tooltips
          (tooltips p ++ built (next_handle p) (tooltip_nodes (document p)))
          (with_document
             (fix_titles (tooltip_nodes (document p)) (document p))
             (with_next_timer
                (next_timer p + List.length (alert_nodes (document p)))
                (with_timers
                   (timers p
                    ++ scheduled (next_timer p) (clock p + 5000)
                         (alert_nodes (document p))) p))))).
Proof.
  unfold handler. unfold seq_script at 1. cbn [querySelectorAll].
  unfold seq_script at 1.
  pose proof (forEach_setTimeout (alert_nodes (document p)) p) as H.
  unfold alert_nodes in H at 1.
  destruct (forEach _ _ p) as [u p1]. cbn [snd] in H. subst p1.
  unfold seq_script at 1. cbn [querySelectorAll].
  unfold seq_script at 1. cbn [slice ret].
  unfold seq_script at 1.
  fold (alert_nodes (document p)).
  change (map node_of (filter (matches (ByAttribute "data-bs-toggle" "tooltip"))
            (document (with_next_timer
               (next_timer p + List.length (alert_nodes (document p)))
               (with_timers (timers p ++ scheduled (next_timer p) (clock p + 5000)
                  (alert_nodes (document p))) p)))))
    with (tooltip_nodes (document p)).
  rewrite array_map_new_Tooltip. reflexivity.
Qed.

(** *** Counting the timers and the tooltip objects *)

Lemma filter_nil {A : Type} (P : A -> bool) (l : list A) :
  (forall x, In x l -> P x = false) -> filter P l = [].
Proof.
  induction l as [|a l IH]; intros H; [reflexivity|]. cbn [filter].
  rewrite (H a (or_introl eq_refl)). apply IH. intros x Hx. apply H. right. exact Hx.
Qed.

Lemma NoDup_map_filter {A B : Type} (f : A -> B) (P : A -> bool) (l : list A) :
  NoDup (map f l) -> NoDup (map f (filter P l)).
Proof.
  induction l as [|a l IH]; intros H; [exact H|]. cbn [map filter] in *.
  inversion H as [|? ? Hnotin Hnd]; subst.
  destruct (P a); [|exact (IH Hnd)].
  cbn [map]. constructor; [|exact (IH Hnd)].
  intros Hin. apply Hnotin. apply in_map_iff in Hin as (x & Hx & Hin).
  apply filter_In in Hin as [Hin _]. apply in_map_iff. eauto.
Qed.

Lemma scheduled_cons (from : nat) (d : Z) (n : node) (l : list node) :
  scheduled from d (n :: l)
  = {| timer_id := from; due := d; action := dismiss n |}
    :: scheduled (S from) d l.
Proof. reflexivity. Qed.

Lemma built_cons (from : nat) (n : node) (l : list node) :
  built from (n :: l)
  = {| handle := from; bound_to := n |} :: built (S from) l.
Proof. reflexivity. Qed.

Lemma in_scheduled (from : nat) (d : Z) (l : list node) (t : timer) :
  In t (scheduled from d l) ->
  (exists n, In n l /\ action t = dismiss n)
  /\ due t = d /\ (from <= timer_id t < from + List.length l)%nat.
Proof.
  revert from; induction l as [|a l IH]; intros from H; [destruct H|].
  rewrite scheduled_cons in H. destruct H as [<- | H].
  - cbn. split; [exists a; auto|]. split; [reflexivity|lia].
  - destruct (IH _ H) as ((n & Hn & Ha) & Hd & Hid).
    split; [exists n; split; [right; exact Hn|exact Ha]|].
    split; [exact Hd|]. cbn [List.length]. lia.
Qed.

Lemma scheduled_ids (from : nat) (d : Z) (l : list node) :
  map timer_id (scheduled from d l) = seq from (List.length l).
Proof.
  revert from; induction l as [|a l IH]; intros from; [reflexivity|].
  rewrite scheduled_cons. cbn [map List.length seq timer_id]. rewrite IH. reflexivity.
Qed.

Lemma in_built (from : nat) (l : list node) (o : tooltip) :
  In o (built from l) ->
  In (bound_to o) l /\ (from <= handle o < from + List.length l)%nat.
Proof.
  revert from; induction l as [|a l IH]; intros from H; [destruct H|].
  rewrite built_cons in H. destruct H as [<- | H].
  - cbn. split; [auto|lia].
  - destruct (IH _ H) as (Hn & Hid).
    split; [right; exact Hn|]. cbn [List.length]. lia.
Qed.

Lemma built_handles (from : nat) (l : list node) :
  map handle (built from l) = seq from (List.length l).
Proof.
  revert from; induction l as [|a l IH]; intros from; [reflexivity|].
  rewrite built_cons. cbn [map List.length seq handle]. rewrite IH. reflexivity.
Qed.

Lemma built_nodes (from : nat) (l : list node) :
  map bound_to (built from l) = l.
Proof.
  revert from; induction l as [|a l IH]; intros from; [reflexivity|].
  rewrite built_cons. cbn [map bound_to]. rewrite IH. reflexivity.
Qed.

(** Of the timers scheduled for a list without repetition, exactly one
    dismisses each node of the list, and none any other node. *)
Lemma scheduled_one (from0 from : nat) (d : Z) (l : list node) (n : node) :
  (from0 <= from)%nat -> NoDup l ->
  (In n l ->
   exists t, filter (dismisses n from0) (scheduled from d l) = [t]
     /\ action t = dismiss n /\ due t = d)
  /\ (~ In n l -> filter (dismisses n from0) (scheduled from d l) = []).
Proof.
  intros Hfrom Hnd. split.
  - revert from Hfrom; induction Hnd as [|a l Hnotin Hnd IH]; intros from Hfrom Hin;
      [destruct Hin|].
    rewrite scheduled_cons. cbn [filter]. unfold dismisses at 1. cbn [action timer_id].
    destruct Hin as [-> | Hin].
    + rewrite Nat.eqb_refl. replace (from0 <=? from)%nat with true
        by (symmetry; apply Nat.leb_le; exact Hfrom).
      cbn [andb].
      exists {| timer_id := from; due := d; action := dismiss n |}.
      split; [|split; reflexivity].
      f_equal. apply filter_nil. intros t Ht.
      destruct (in_scheduled _ _ _ _ Ht) as ((m & Hm & Ha) & _).
      unfold dismisses. rewrite Ha.
      destruct (Nat.eqb_spec m n) as [-> |]; [contradiction|reflexivity].
    + destruct (Nat.eqb_spec a n) as [-> |]; [contradiction|].
      cbn [andb]. apply IH; [lia|exact Hin].
  - intros Hnotin. apply filter_nil. intros t Ht.
    destruct (in_scheduled _ _ _ _ Ht) as ((m & Hm & Ha) & _).
    unfold dismisses. rewrite Ha.
    destruct (Nat.eqb_spec m n) as [-> |]; [contradiction|reflexivity].
Qed.

Lemma built_one (from0 from : nat) (l : list node) (n : node) :
  (from0 <= from)%nat -> NoDup l ->
  (In n l ->
   exists o, filter (binds n from0) (built from l) = [o]
     /\ bound_to o = n /\ In (handle o) (seq from (List.length l)))
  /\ (~ In n l -> filter (binds n from0) (built from l) = []).
Proof.
  intros Hfrom Hnd. split.
  - revert from Hfrom; induction Hnd as [|a l Hnotin Hnd IH]; intros from Hfrom Hin;
      [destruct Hin|].
    rewrite built_cons. cbn [filter]. unfold binds at 1. cbn [bound_to handle].
    destruct Hin as [-> | Hin].
    + rewrite Nat.eqb_refl. replace (from0 <=? from)%nat with true
        by (symmetry; apply Nat.leb_le; exact Hfrom).
      cbn [andb]. exists {| handle := from; bound_to := n |}.
      split; [|split; [reflexivity|left; reflexivity]].
      f_equal. apply filter_nil. intros o Ho.
      destruct (in_built _ _ _ Ho) as (Hm & _).
      unfold binds.
      destruct (Nat.eqb_spec (bound_to o) n) as [E |]; [|reflexivity].
      rewrite E in Hm. contradiction.
    + destruct (Nat.eqb_spec a n) as [-> |]; [contradiction|].
      cbn [andb]. destruct (IH (S from) ltac:(lia) Hin) as (o & Ho & Hb & Hh).
      exists o. split; [exact Ho|]. split; [exact Hb|]. right. exact Hh.
  - intros Hnotin. apply filter_nil. intros o Ho.
    destruct (in_built _ _ _ Ho) as (Hm & _).
    unfold binds.
    destruct (Nat.eqb_spec (bound_to o) n) as [E |]; [|reflexivity].
    rewrite E in Hm. contradiction.
Qed.

Lemma old_timers_none (n : node) (from : nat) (l : list timer) :
  (forall t, In t l -> (timer_id t < from)%nat) ->
  filter (dismisses n from) l = [].
Proof.
  intros H. apply filter_nil. intros t Ht. unfold dismisses.
  destruct (action t) as [a].
  replace (from <=? timer_id t)%nat with false
    by (symmetry; apply Nat.leb_gt, H, Ht).
  apply andb_false_r.
Qed.

Lemma alert_nodes_NoDup (p : page) :
  well_formed p -> NoDup (alert_nodes (document p)).
Proof. intros (H & _). apply NoDup_map_filter, H. Qed.

Lemma tooltip_nodes_NoDup (p : page) :
  well_formed p -> NoDup (tooltip_nodes (document p)).
Proof. intros (H & _). apply NoDup_map_filter, H. Qed.

Lemma alert_nodes_created (p : page) (n : node) :
  well_formed p -> In n (alert_nodes (document p)) -> (n < next_node p)%nat.
Proof.
  intros (_ & H & _) Hin. apply in_map_iff in Hin as (e & <- & He).
  apply filter_In in He as [He _]. apply H, He.
Qed.

Lemma tooltip_nodes_created (p : page) (n : node) :
  well_formed p -> In n (tooltip_nodes (document p)) -> (n < next_node p)%nat.
Proof.
  intros (_ & H & _) Hin. apply in_map_iff in Hin as (e & <- & He).
  apply filter_In in He as [He _]. apply H, He.
Qed.

(** *** What the event loop keeps *)

Lemma evolves_refl (q : page) :
  loaded q = true -> NoDup (map timer_id (timers q)) -> evolves q q.
Proof.
  intros Hl Hnd. unfold evolves. repeat split; auto.
Qed.

Lemma evolves_trans (q1 q2 q3 : page) :
  evolves q1 q2 -> evolves q2 q3 -> evolves q1 q3.
Proof.
  intros (A1 & A2 & A3 & A4 & A5 & A6 & A7 & A8)
         (B1 & B2 & B3 & B4 & B5 & B6 & B7 & B8).
  unfold evolves.
  split; [exact B1|]. split; [congruence|]. split; [congruence|].
  split; [congruence|]. split; [lia|]. split; [exact B6|].
  split; [exact (Permutation_trans B7 A7)|].
  intros r Hr. destruct (B8 r Hr) as [H|H]; [apply A8, H|right; exact H].
Qed.

Lemma find_has_id (id : nat) (l : list timer) (t : timer) :
  NoDup (map timer_id l) -> find (has_id id) l = Some t ->
  Permutation l (t :: filter (fun t' => negb (has_id id t')) l)
  /\ NoDup (map timer_id (filter (fun t' => negb (has_id id t')) l)).
Proof.
  intros Hnd Hfind. split; [|apply NoDup_map_filter, Hnd].
  induction l as [|a l IH]; [discriminate|].
  cbn [find filter] in *. cbn [map] in Hnd.
  inversion Hnd as [|? ? Hnotin Hnd']; subst.
  destruct (has_id id a) eqn:Ha.
  - injection Hfind as <-. cbn [negb]. apply perm_skip.
    replace (filter (fun t' => negb (has_id id t')) l) with l; [reflexivity|].
    symmetry. apply forallb_filter_id. apply forallb_forall. intros x Hx.
    unfold has_id in *. apply Nat.eqb_eq in Ha.
    destruct (Nat.eqb_spec (timer_id x) id) as [E|]; [|reflexivity].
    exfalso. apply Hnotin. apply in_map_iff. exists x. split; [congruence|exact Hx].
  - cbn [negb]. rewrite perm_swap. apply perm_skip. apply IH; assumption.
Qed.

Lemma close_Alert_fields (el : node) (p : page) :
  timers (snd (close_Alert el p)) = timers p
  /\ fired (snd (close_Alert el p)) = fired p
  /\ tooltips (snd (close_Alert el p)) = tooltips p
  /\ next_handle (snd (close_Alert el p)) = next_handle p
  /\ next_timer (snd (close_Alert el p)) = next_timer p
  /\ next_node (snd (close_Alert el p)) = next_node p
  /\ clock (snd (close_Alert el p)) = clock p
  /\ loaded (snd (close_Alert el p)) = loaded p
  /\ registered (snd (close_Alert el p)) = registered p.
Proof.
  unfold close_Alert. destruct (find_element el (document p)) as [e|].
  - destruct (classList_contains "fade" e); cbn; repeat split.
  - cbn. repeat split.
Qed.

Lemma step_evolves (ev : event) (q q' : page) :
  loaded q = true -> NoDup (map timer_id (timers q)) ->
  step ev q = Some q' -> evolves q q'.
Proof.
  intros Hl Hnd Hstep.
  destruct ev as [|dt|id|m|e position|n|e]; cbn [step] in Hstep.
  - rewrite Hl in Hstep. discriminate.
  - destruct (0 <=? dt); [|discriminate]. injection Hstep as <-.
    unfold evolves. cbn. repeat split; auto.
  - destruct (find (has_id id) (timers q)) as [t|] eqn:Hfind; [|discriminate].
    destruct (due t <=? clock q) eqn:Hdue; [|discriminate].
    injection Hstep as <-. apply Z.leb_le in Hdue.
    destruct (find_has_id id (timers q) t Hnd Hfind) as [Hperm Hnd'].
    destruct (action t) as [a]. cbn [run_callback].
    match goal with
    | |- evolves _ (snd (close_Alert ?a ?p)) =>
        destruct (close_Alert_fields a p)
          as (Ht & Hf & Htt & Hnh & Hnt & Hnn & _ & Hlo & _)
    end.
    unfold evolves. rewrite Ht, Hf, Htt, Hnh, Hnt, Hnn, Hlo. cbn.
    split; [exact Hl|]. split; [reflexivity|]. split; [reflexivity|].
    split; [reflexivity|]. split; [lia|]. split; [exact Hnd'|]. split.
    + rewrite map_app. cbn [map snd].
      apply Permutation_trans
        with ((t :: filter (fun t' => negb (has_id id t')) (timers q))
              ++ map snd (fired q))%list;
        [|apply Permutation_app_tail; symmetry; exact Hperm].
      rewrite List.app_assoc. symmetry. apply Permutation_cons_append.
    + intros r Hr. apply in_app_or in Hr as [Hr|[<-|[]]]; [left; exact Hr|].
      right. exact Hdue.
  - destruct (existsb (Nat.eqb m) (closing q)); [|discriminate].
    injection Hstep as <-. unfold evolves. cbn. repeat split; auto.
  - destruct (Nat.eqb (node_of e) (next_node q)); [|discriminate].
    injection Hstep as <-. unfold evolves. cbn. repeat split; auto.
  - injection Hstep as <-. unfold evolves. cbn. repeat split; auto.
  - injection Hstep as <-. unfold evolves. cbn. repeat split; auto.
Qed.

Lemma run_evolves (evs : list event) (q q' : page) :
  loaded q = true -> NoDup (map timer_id (timers q)) ->
  run evs q = Some q' -> evolves q q'.
Proof.
  revert q; induction evs as [|ev evs IH]; intros q Hl Hnd Hrun; cbn [run] in Hrun.
  - injection Hrun as <-. apply evolves_refl; assumption.
  - destruct (step ev q) as [q1|] eqn:Hstep; [|discriminate].
    pose proof (step_evolves ev q q1 Hl Hnd Hstep) as H1.
    apply (evolves_trans q q1 q' H1).
    destruct H1 as (A1 & _ & _ & _ & _ & A6 & _). apply IH; assumption.
Qed.

(** An element inserted along a run is a new one; no load takes place. *)
Lemma run_inserts (evs : list event) (q q' : page) (e : element) (position : nat) :
  loaded q = true -> NoDup (map timer_id (timers q)) ->
  run evs q = Some q' -> In (Insert e position) evs ->
  (next_node q <= node_of e)%nat.
Proof.
  revert q; induction evs as [|ev evs IH]; intros q Hl Hnd Hrun Hin; [destruct Hin|].
  cbn [run] in Hrun.
  destruct (step ev q) as [q1|] eqn:Hstep; [|discriminate].
  pose proof (step_evolves ev q q1 Hl Hnd Hstep) as (A1 & _ & _ & _ & A5 & A6 & _).
  destruct Hin as [-> | Hin].
  - cbn [step] in Hstep.
    destruct (Nat.eqb_spec (node_of e) (next_node q)) as [E|]; [lia|discriminate].
  - specialize (IH q1 A1 A6 Hrun Hin). lia.
Qed.

Lemma run_no_load (evs : list event) (q q' : page) :
  loaded q = true -> NoDup (map timer_id (timers q)) ->
  run evs q = Some q' -> ~ In Load evs.
Proof.
  revert q; induction evs as [|ev evs IH]; intros q Hl Hnd Hrun Hin; [destruct Hin|].
  cbn [run] in Hrun.
  destruct (step ev q) as [q1|] eqn:Hstep; [|discriminate].
  pose proof (step_evolves ev q q1 Hl Hnd Hstep) as (A1 & _ & _ & _ & _ & A6 & _).
  destruct Hin as [-> | Hin].
  - cbn [step] in Hstep. rewrite Hl in Hstep. discriminate.
  - exact (IH q1 A1 A6 Hrun Hin).
Qed.

(** The page the load leaves. *)
Lemma load_spec (p p' : page) :
  registered p = true -> step Load p = Some p' ->
  loaded p = false
  /\ p' = snd (handler (with_loaded true p)).
Proof.
  intros Hreg Hstep. cbn [step] in Hstep.
  destruct (loaded p); [discriminate|]. rewrite Hreg in Hstep.
  injection Hstep as <-. auto.
Qed.

Lemma load_fields (p p' : page) :
  registered p = true -> step Load p = Some p' ->
  timers p' = (timers p ++ scheduled (next_timer p) (clock p + 5000)
                             (alert_nodes (document p)))%list
  /\ fired p' = fired p
  /\ tooltips p' = (tooltips p ++ built (next_handle p)
                                    (tooltip_nodes (document p)))%list
  /\ loaded p' = true
  /\ next_node p' = next_node p.
Proof.
  intros Hreg Hstep. destruct (load_spec p p' Hreg Hstep) as [_ ->].
  rewrite handler_spec. cbn. auto.
Qed.

Lemma load_timers_NoDup (p p' : page) :
  well_formed p -> registered p = true -> step Load p = Some p' ->
  NoDup (map timer_id (timers p')).
Proof.
  intros (_ & _ & Hnd & Hlt & _) Hreg Hstep.
  destruct (load_fields p p' Hreg Hstep) as (-> & _).
  rewrite map_app, scheduled_ids.
  apply NoDup_app; [exact Hnd|apply seq_NoDup|].
  intros id Hid Hseq. apply in_map_iff in Hid as (t & <- & Ht).
  apply in_seq in Hseq. specialize (Hlt t Ht). lia.
Qed.

Lemma filter_length_perm {A : Type} (P : A -> bool) (l l' : list A) :
  Permutation l l' -> List.length (filter P l) = List.length (filter P l').
Proof.
  induction 1 as [|x l l' _ IH|x y l|l l' l'' _ IH1 _ IH2]; cbn [filter].
  - reflexivity.
  - destruct (P x); cbn [List.length]; congruence.
  - destruct (P x), (P y); reflexivity.
  - congruence.
Qed.

Lemma filter_map_snd (P : timer -> bool) (l : list (Z * timer)) :
  filter P (map snd l) = map snd (filter (fun r => P (snd r)) l).
Proof.
  induction l as [|r l IH]; [reflexivity|]. cbn [map filter].
  destruct (P (snd r)); cbn [map]; congruence.
Qed.

(** Along a run from the loaded page, the timers of the handler that
    dismiss [n], scheduled or run, stay those scheduled at the load. *)
Lemma run_dismiss_count (p p' q : page) (evs : list event) (n : node) :
  well_formed p -> registered p = true -> step Load p = Some p' ->
  run evs p' = Some q ->
  (List.length (pending n (next_timer p) q)
   + List.length (dismissals n (next_timer p) q))%nat
  = List.length (filter (dismisses n (next_timer p))
                   (scheduled (next_timer p) (clock p + 5000)
                      (alert_nodes (document p)))).
Proof.
  intros Hwf Hreg Hstep Hrun.
  pose proof (load_timers_NoDup p p' Hwf Hreg Hstep) as Hnd.
  destruct (load_fields p p' Hreg Hstep) as (Ht & Hf & _ & Hl & _).
  destruct (run_evolves evs p' q Hl Hnd Hrun) as (_ & _ & _ & _ & _ & _ & Hperm & _).
  unfold pending, dismissals.
  rewrite <- (length_map snd (filter _ (fired q))), <- filter_map_snd.
  rewrite <- length_app, <- filter_app.
  rewrite (filter_length_perm _ _ _ Hperm), Ht, Hf, !filter_app, !length_app.
  destruct Hwf as (_ & _ & _ & Hlt & Hfl & _).
  rewrite (old_timers_none n _ (timers p) Hlt).
  rewrite (old_timers_none n _ (map snd (fired p))).
  - cbn [List.length]. lia.
  - intros t Hin. apply in_map_iff in Hin as (r & <- & Hr). apply Hfl, Hr.
Qed.

(** A timer of the handler, scheduled or run along a run from the loaded
    page, is one of those scheduled at the load. *)
Lemma run_new_timer (p p' q : page) (evs : list event) (t : timer) :
  well_formed p -> registered p = true -> step Load p = Some p' ->
  run evs p' = Some q ->
  In t (timers q ++ map snd (fired q))%list -> (next_timer p <= timer_id t)%nat ->
  In t (scheduled (next_timer p) (clock p + 5000) (alert_nodes (document p))).
Proof.
  intros Hwf Hreg Hstep Hrun Hin Hid.
  pose proof (load_timers_NoDup p p' Hwf Hreg Hstep) as Hnd.
  destruct (load_fields p p' Hreg Hstep) as (Ht & Hf & _ & Hl & _).
  destruct (run_evolves evs p' q Hl Hnd Hrun) as (_ & _ & _ & _ & _ & _ & Hperm & _).
  apply (Permutation_in _ Hperm) in Hin. rewrite Ht, Hf in Hin.
  destruct Hwf as (_ & _ & _ & Hlt & Hfl & _).
  apply in_app_or in Hin as [Hin|Hin]; [apply in_app_or in Hin as [Hin|Hin]|].
  - specialize (Hlt t Hin). lia.
  - exact Hin.
  - apply in_map_iff in Hin as (r & <- & Hr). specialize (Hfl r Hr). lia.
Qed.

(** ** The initializer: the claims *)










(** The two calls of the counterexample. *)
Example formatCurrency_counting_object :
  fst (call_formatCurrency (Object counting_object) sample_page)
  = inl "₹4.00"
  /\ document (snd (call_formatCurrency (Object counting_object) sample_page))
     = []
  /\ fst (call_formatCurrency (Object counting_object)
            (snd (call_formatCurrency (Object counting_object) sample_page)))
     = inl "₹0.00".
Proof. vm_compute. repeat split. Qed.

(** C6: when the handler runs on a loading page, every [.alert] element of
    the document gets exactly one timer, due 5000 ms later, whose function
    dismisses it.  Along every run of the event loop from there, that timer
    is either still scheduled or has been run exactly once, never both and
    never twice, and it has been run at 5000 ms after the load or later. *)
Theorem alerts_dismissed_once
  (p p' q : page) (evs : list event) (n : node) :
  well_formed p -> registered p = true ->
  step Load p = Some p' ->
  In n (alert_nodes (document p)) ->
  run evs p' = Some q ->
  (exists t, pending n (next_timer p) p' = [t]
     /\ due t = clock p + 5000 /\ action t = dismiss n
     /\ dismissals n (next_timer p) p' = [])
  /\ (List.length (pending n (next_timer p) q)
      + List.length (dismissals n (next_timer p) q) = 1)%nat
  /\ (forall r, In r (dismissals n (next_timer p) q) ->
        clock p + 5000 <= fst r).
Proof.
  intros Hwf Hreg Hstep Hin Hrun.
  pose proof (alert_nodes_NoDup p Hwf) as Hnd.
  destruct (scheduled_one (next_timer p) (next_timer p) (clock p + 5000)
              (alert_nodes (document p)) n (Nat.le_refl _) Hnd) as [Hone _].
  destruct (Hone Hin) as (t & Ht & Hact & Hdue).
  destruct (load_fields p p' Hreg Hstep) as (Htim & Hfired & _ & Hl & _).
  pose proof Hwf as (_ & _ & _ & Hlt & Hfl & _).
  split; [|split].
  - exists t. unfold pending, dismissals. rewrite Htim, Hfired, filter_app.
    rewrite (old_timers_none n _ (timers p) Hlt), Ht.
    split; [reflexivity|]. split; [exact Hdue|]. split; [exact Hact|].
    apply filter_nil. intros r Hr. unfold dismisses.
    destruct (action (snd r)) as [a].
    replace (next_timer p <=? timer_id (snd r))%nat with false
      by (symmetry; apply Nat.leb_gt, Hfl, Hr).
    apply andb_false_r.
  - rewrite (run_dismiss_count p p' q evs n Hwf Hreg Hstep Hrun), Ht. reflexivity.
  - intros r Hr. unfold dismissals in Hr. apply filter_In in Hr as [Hr Hd].
    unfold dismisses in Hd. destruct (action (snd r)) as [a] eqn:Ha.
    apply andb_true_iff in Hd as [_ Hid]. apply Nat.leb_le in Hid.
    pose proof (load_timers_NoDup p p' Hwf Hreg Hstep) as Hnd'.
    destruct (run_evolves evs p' q Hl Hnd' Hrun)
      as (_ & _ & _ & _ & _ & _ & _ & Hlate).
    assert (Hsched : In (snd r) (scheduled (next_timer p) (clock p + 5000)
                                   (alert_nodes (document p)))).
    { apply (run_new_timer p p' q evs (snd r) Hwf Hreg Hstep Hrun); [|exact Hid].
      apply in_or_app. right. apply in_map, Hr. }
    destruct (in_scheduled _ _ _ _ Hsched) as (_ & Hdue' & _).
    destruct (Hlate r Hr) as [Hold|Hle]; [|lia].
    rewrite Hfired in Hold. specialize (Hfl r Hold). lia.
Qed.

(** C7: the handler builds one tooltip object for each element that
    carries the marker, in the order of the document: the new objects are
    bound, one to one and in order, to the elements queried, their handles
    are the list kept in [tooltipList], no handle occurs twice, and each
    such element has exactly one new object. *)
Theorem tooltips_one_per_trigger (p : page) :
  well_formed p ->
  tooltipTriggerList (fst (handler p)) = tooltip_nodes (document p)
  /\ (exists objects,
        tooltips (snd (handler p)) = (tooltips p ++ objects)%list
        /\ map bound_to objects = tooltipTriggerList (fst (handler p))
        /\ map handle objects = tooltipList (fst (handler p)))
  /\ NoDup (tooltipList (fst (handler p)))
  /\ (forall n, In n (tooltip_nodes (document p)) ->
        exists o, tooltips_of n (next_handle p) (snd (handler p)) = [o]
          /\ bound_to o = n
          /\ In (handle o) (tooltipList (fst (handler p))))
  /\ (forall n, ~ In n (tooltip_nodes (document p)) ->
        tooltips_of n (next_handle p) (snd (handler p)) = []).
Proof.
  intros Hwf. rewrite handler_spec. cbn [fst snd tooltipTriggerList tooltipList].
  pose proof (tooltip_nodes_NoDup p Hwf) as Hnd.
  pose proof Hwf as (_ & _ & _ & _ & _ & Hh).
  assert (Hold : forall n, filter (binds n (next_handle p)) (tooltips p) = []).
  { intros n. apply filter_nil. intros o Ho. unfold binds.
    replace (next_handle p <=? handle o)%nat with false
      by (symmetry; apply Nat.leb_gt, Hh, Ho).
    apply andb_false_r. }
  split; [reflexivity|]. split; [|split; [apply seq_NoDup|split]].
  - exists (built (next_handle p) (tooltip_nodes (document p))).
    split; [reflexivity|]. split; [apply built_nodes|apply built_handles].
  - intros n Hn.
    destruct (built_one (next_handle p) (next_handle p)
                (tooltip_nodes (document p)) n (Nat.le_refl _) Hnd) as [Hone _].
    destruct (Hone Hn) as (o & Ho & Hb & Hin).
    exists o. unfold tooltips_of. cbn. rewrite filter_app, Hold, Ho. auto.
  - intros n Hn.
    destruct (built_one (next_handle p) (next_handle p)
                (tooltip_nodes (document p)) n (Nat.le_refl _) Hnd) as [_ Hnone].
    unfold tooltips_of. cbn. rewrite filter_app, Hold, (Hnone Hn). reflexivity.
Qed.

(** C8: along every run of the event loop after the load, an element that
    is inserted has no timer of the handler, scheduled or run, and no
    tooltip object of the handler; the tooltip objects and the timer
    counter stay as the load left them, and no second load takes place. *)
Theorem late_elements_ignored (p p' q : page) (evs : list event) :
  well_formed p -> registered p = true ->
  step Load p = Some p' ->
  run evs p' = Some q ->
  (forall e position, In (Insert e position) evs ->
     pending (node_of e) (next_timer p) q = []
     /\ dismissals (node_of e) (next_timer p) q = []
     /\ tooltips_of (node_of e) (next_handle p) q = [])
  /\ tooltips q = tooltips p'
  /\ next_timer q = next_timer p'
  /\ ~ In Load evs
  /\ step Load q = None.
Proof.
  intros Hwf Hreg Hstep Hrun.
  pose proof (load_timers_NoDup p p' Hwf Hreg Hstep) as Hnd.
  destruct (load_fields p p' Hreg Hstep) as (Htim & Hfired & Htips & Hl & Hnn).
  destruct (run_evolves evs p' q Hl Hnd Hrun)
    as (Hlq & Htq & _ & Hntq & _ & _ & _ & _).
  split; [|split; [exact Htq|split; [exact Hntq|split]]].
  - intros e position Hin.
    pose proof (run_inserts evs p' q e position Hl Hnd Hrun Hin) as Hnew.
    rewrite Hnn in Hnew.
    assert (Hna : ~ In (node_of e) (alert_nodes (document p))).
    { intros H. pose proof (alert_nodes_created p _ Hwf H). lia. }
    assert (Hnt : ~ In (node_of e) (tooltip_nodes (document p))).
    { intros H. pose proof (tooltip_nodes_created p _ Hwf H). lia. }
    assert (Hnone : forall t, In t (timers q ++ map snd (fired q))%list ->
                      dismisses (node_of e) (next_timer p) t = false).
    { intros t Ht. unfold dismisses. destruct (action t) as [a] eqn:Ha.
      destruct (Nat.leb_spec (next_timer p) (timer_id t)) as [Hid|Hid];
        [|apply andb_false_r].
      pose proof (run_new_timer p p' q evs t Hwf Hreg Hstep Hrun Ht Hid) as Hs.
      destruct (in_scheduled _ _ _ _ Hs) as ((m & Hm & Ha') & _).
      rewrite Ha in Ha'. injection Ha' as ->.
      destruct (Nat.eqb_spec m (node_of e)) as [E|]; [|reflexivity].
      rewrite E in Hm. contradiction. }
    split; [|split].
    + apply filter_nil. intros t Ht. apply Hnone, in_or_app. left. exact Ht.
    + apply filter_nil. intros r Hr. apply Hnone, in_or_app. right.
      apply in_map, Hr.
    + unfold tooltips_of. rewrite Htq, Htips, filter_app.
      pose proof (tooltip_nodes_NoDup p Hwf) as Hndt.
      destruct (built_one (next_handle p) (next_handle p)
                  (tooltip_nodes (document p)) (node_of e) (Nat.le_refl _) Hndt)
        as [_ Hb].
      rewrite (Hb Hnt), List.app_nil_r.
      pose proof Hwf as (_ & _ & _ & _ & _ & Hh).
      apply filter_nil. intros o Ho. unfold binds.
      replace (next_handle p <=? handle o)%nat with false
        by (symmetry; apply Nat.leb_gt, Hh, Ho).
      apply andb_false_r.
  - exact (run_no_load evs p' q Hl Hnd Hrun).
  - cbn [step]. rewrite Hlq. reflexivity.
Qed.

Lemma sample_page_well_formed : well_formed sample_page.
Proof.
  unfold well_formed, sample_page. cbn.
  split; [repeat constructor; cbn; intuition discriminate|].
  split; [intros e [<-|[<-|[<-|[<-|[]]]]]; cbn; lia|].
  split; [constructor|]. repeat split; intros ? [].
Qed.

Lemma alerts_dismissed_once_witness :
  (exists t, pending 2%nat (next_timer sample_page) sample_loaded = [t]
     /\ due t = clock sample_page + 5000 /\ action t = dismiss 2%nat
     /\ dismissals 2%nat (next_timer sample_page) sample_loaded = [])
  /\ (List.length (pending 2%nat (next_timer sample_page) sample_end)
      + List.length (dismissals 2%nat (next_timer sample_page) sample_end) = 1)%nat
  /\ (forall r, In r (dismissals 2%nat (next_timer sample_page) sample_end) ->
        clock sample_page + 5000 <= fst r).
Proof.
  apply (alerts_dismissed_once sample_page sample_loaded sample_end
           sample_events 2%nat).
  - exact sample_page_well_formed.
  - reflexivity.
  - vm_compute. reflexivity.
  - vm_compute. auto.
  - vm_compute. reflexivity.
Defined.

Lemma tooltips_one_per_trigger_witness :
  tooltipTriggerList (fst (handler sample_page))
  = tooltip_nodes (document sample_page)
  /\ (exists objects,
        tooltips (snd (handler sample_page))
        = (tooltips sample_page ++ objects)%list
        /\ map bound_to objects = tooltipTriggerList (fst (handler sample_page))
        /\ map handle objects = tooltipList (fst (handler sample_page)))
  /\ NoDup (tooltipList (fst (handler sample_page)))
  /\ (forall n, In n (tooltip_nodes (document sample_page)) ->
        exists o,
          tooltips_of n (next_handle sample_page) (snd (handler sample_page))
          = [o]
          /\ bound_to o = n
          /\ In (handle o) (tooltipList (fst (handler sample_page))))
  /\ (forall n, ~ In n (tooltip_nodes (document sample_page)) ->
        tooltips_of n (next_handle sample_page) (snd (handler sample_page))
        = []).
Proof.
  exact (tooltips_one_per_trigger sample_page sample_page_well_formed).
Defined.

Lemma late_elements_ignored_witness :
  (forall e position, In (Insert e position) sample_events ->
     pending (node_of e) (next_timer sample_page) sample_end = []
     /\ dismissals (node_of e) (next_timer sample_page) sample_end = []
     /\ tooltips_of (node_of e) (next_handle sample_page) sample_end = [])
  /\ tooltips sample_end = tooltips sample_loaded
  /\ next_timer sample_end = next_timer sample_loaded
  /\ ~ In Load sample_events
  /\ step Load sample_end = None.
Proof.
  apply (late_elements_ignored sample_page sample_loaded sample_end
           sample_events).
  - exact sample_page_well_formed.
  - reflexivity.
  - vm_compute. reflexivity.
  - vm_compute. reflexivity.
Defined.

(** On the sample page: the two alerts get one timer each, both have been
    run once at the end, the element inserted in between is still in the
    document, and the two triggers have one tooltip object each. *)
Example sample_run :
  map (fun t => (timer_id t, due t, action t)) (timers sample_loaded)
  = [(0%nat, 5000, dismiss 0%nat); (1%nat, 5000, dismiss 2%nat)]
  /\ map (fun r => (fst r, action (snd r))) (fired sample_end)
     = [(5000, dismiss 0%nat); (5010, dismiss 2%nat)]
  /\ map node_of (document sample_end) = [4%nat; 1%nat; 3%nat]
  /\ timers sample_end = []
  /\ map (fun o => (handle o, bound_to o)) (tooltips sample_end)
     = [(0%nat, 1%nat); (1%nat, 2%nat)].
Proof. vm_compute. repeat split. Qed.

(** ** More on the formatter *)

(** X1: [formatCurrency] throws for a Symbol, with a TypeError, and for no
    other input. *)
Theorem formatCurrency_throws (amount : value) (e : error) :
  formatCurrency amount = Throw e
  <-> (exists description, amount = VSymbol description) /\ e = TypeError.
Proof.
  split.
  - unfold formatCurrency, parseFloat.
    destruct amount as [| |b|x|z|s|d]; cbn [ToString bind];
      try (match goal with
           | |- context [toFixed ?y 2] =>
               destruct (toFixed_two y) as (out & ->)
           end; cbn [bind]; discriminate).
    intros [= <-]. split; [exists d|]; reflexivity.
  - intros [(d & ->) ->]. reflexivity.
Qed.

Lemma TrimStart_fixpoint (n : nat) :
  forall s, (String.length s <= n)%nat -> TrimStart (TrimStart s) = TrimStart s.
Proof.
  induction n as [|n IH]; intros s Hlen.
  - destruct s; [reflexivity|cbn [String.length] in Hlen; lia].
  - destruct s as [|c1 r1]; [reflexivity|]. cbn [String.length] in Hlen.
    cbn [TrimStart]. destruct (is_space1 c1) eqn:E1; [apply IH; lia|].
    destruct r1 as [|c2 r2].
    { cbn [TrimStart]. rewrite E1. reflexivity. }
    cbn [String.length] in Hlen.
    destruct (is_space2 c1 c2) eqn:E2; [apply IH; lia|].
    destruct r2 as [|c3 r3].
    { cbn [TrimStart]. rewrite E1, E2. reflexivity. }
    cbn [String.length] in Hlen.
    destruct (is_space3 c1 c2 c3) eqn:E3; [apply IH; lia|].
    cbn [TrimStart]. rewrite E1, E2, E3. reflexivity.
Qed.

Lemma TrimStart_idempotent (s : string) :
  TrimStart (TrimStart s) = TrimStart s.
Proof. apply (TrimStart_fixpoint (String.length s)). lia. Qed.

(** X2: white space at the start of the text does not change the result:
    the text formats as the text without its leading white space does, and
    a space, a tab or a line break put in front changes nothing. *)
Theorem formatCurrency_leading_space (s : string) :
  formatCurrency (VStr (TrimStart s)) = formatCurrency (VStr s)
  /\ formatCurrency (VStr (" " ++ s)) = formatCurrency (VStr s)
  /\ formatCurrency (VStr (String "009" s)) = formatCurrency (VStr s)
  /\ formatCurrency (VStr (String "010" s)) = formatCurrency (VStr s).
Proof.
  unfold formatCurrency, parseFloat. cbn [ToString bind].
  unfold parse_float_string. rewrite TrimStart_idempotent.
  repeat split.
Qed.

Lemma binary_round_aux_opp (q e : Z) (l : location) :
  binary_round_aux prec emax true q e l
  = SFopp (binary_round_aux prec emax false q e l).
Proof.
  unfold binary_round_aux.
  destruct (shr_fexp prec emax q e l) as [mrs' e'].
  destruct (shr_fexp prec emax _ e' loc_Exact) as [mrs'' e''].
  destruct (shr_m mrs'') as [|m|m]; try reflexivity.
  destruct (e'' <=? emax - prec); reflexivity.
Qed.

Lemma number_of_decimal_opp (m e : Z) :
  number_of_decimal true m e = SFopp (number_of_decimal false m e).
Proof.
  unfold number_of_decimal, round_ratio.
  destruct (0 <=? e).
  - destruct (m * 10 ^ e) as [|N|N]; try reflexivity.
    destruct (SFdiv_core_binary _ _ _ _ _ _) as [[q e'] l].
    apply binary_round_aux_opp.
  - destruct m as [|N|N]; try reflexivity.
    destruct (SFdiv_core_binary _ _ _ _ _ _) as [[q e'] l].
    apply binary_round_aux_opp.
Qed.

Lemma literal_value_opp (l : literal) :
  literal_value true l = SFopp (literal_value false l).
Proof.
  destruct l as [|i f e]; [reflexivity|]. apply number_of_decimal_opp.
Qed.

Lemma parse_float_string_plus (s : string) :
  TrimStart s = s -> split_sign s = (false, s) ->
  parse_float_string ("+" ++ s) = parse_float_string s.
Proof.
  intros Htrim Hsign. unfold parse_float_string. cbn [append].
  rewrite Htrim, (TrimStart_literal_start "+" s eq_refl).
  unfold scan_literal. rewrite Hsign. reflexivity.
Qed.

Lemma parse_float_string_minus (s : string) :
  TrimStart s = s -> split_sign s = (false, s) ->
  parse_float_string ("-" ++ s) = SFopp (parse_float_string s).
Proof.
  intros Htrim Hsign. unfold parse_float_string. cbn [append].
  rewrite Htrim, (TrimStart_literal_start "-" s eq_refl).
  unfold scan_literal. rewrite Hsign. cbn [split_sign].
  destruct (scan_unsigned s) as [[l rest]|]; [|reflexivity].
  apply literal_value_opp.
Qed.

(** X3: a sign in front of text that starts with neither a sign nor white
    space: a plus sign changes nothing, a minus sign negates the parsed
    value (NaN staying NaN). *)
Theorem parseFloat_sign (s : string) :
  TrimStart s = s -> split_sign s = (false, s) ->
  parseFloat (VStr ("+" ++ s)) = parseFloat (VStr s)
  /\ formatCurrency (VStr ("+" ++ s)) = formatCurrency (VStr s)
  /\ (forall x, parseFloat (VStr s) = Normal x ->
        parseFloat (VStr ("-" ++ s)) = Normal (SFopp x)).
Proof.
  intros Htrim Hsign.
  pose proof (parse_float_string_plus s Htrim Hsign) as Hplus.
  split; [|split].
  - unfold parseFloat. cbn [ToString bind]. rewrite Hplus. reflexivity.
  - unfold formatCurrency, parseFloat. cbn [ToString bind].
    rewrite Hplus. reflexivity.
  - unfold parseFloat. cbn [ToString bind]. intros x [= <-]. f_equal.
    apply parse_float_string_minus; assumption.
Qed.

Lemma parseFloat_sign_witness :
  parseFloat (VStr ("+" ++ "7.5")) = parseFloat (VStr "7.5")
  /\ formatCurrency (VStr ("+" ++ "7.5")) = formatCurrency (VStr "7.5")
  /\ (forall x, parseFloat (VStr "7.5") = Normal x ->
        parseFloat (VStr ("-" ++ "7.5")) = Normal (SFopp x)).
Proof. apply (parseFloat_sign "7.5"); reflexivity. Defined.

(** X4: the formatter does not take its own output: whatever string it
    returns, formatting that string gives the glyph and ["NaN"]. *)
Theorem formatCurrency_of_output (amount : value) (out : string) :
  formatCurrency amount = Normal out ->
  formatCurrency (VStr out) = Normal "₹NaN".
Proof.
  unfold formatCurrency at 1.
  destruct (parseFloat amount) as [x|err]; cbn [bind]; [|discriminate].
  destruct (toFixed_two x) as (body & ->). cbn [bind]. intros [= <-].
  apply formatCurrency_nan. unfold parseFloat. cbn [ToString bind].
  (* the first byte of the glyph is no white space, sign, digit or point *)
  reflexivity.
Qed.

Lemma formatCurrency_of_output_witness :
  formatCurrency (VStr "₹42.00") = Normal "₹NaN".
Proof.
  apply (formatCurrency_of_output (VStr "42") "₹42.00").
  vm_compute. reflexivity.
Defined.

(** In the fixed range, [toFixed] writes the sign and the nearest
    hundredths. *)
Lemma toFixed_fixed_range (x : number) :
  fixed_range x = true ->
  toFixed x 2
  = Normal ((if is_negative x then "-" else "")
            ++ fixed_digits
                 (nearest_scaled (abs_numerator x) (abs_denominator x) 2) 2).
Proof.
  destruct x as [s|s| |s m e]; try discriminate; intros Hrange.
  - reflexivity.
  - cbn [fixed_range] in Hrange. apply Z.ltb_lt in Hrange.
    rewrite toFixed_finite. cbn [is_negative abs_numerator abs_denominator].
    replace (10 ^ 21 * denominator e <=? numerator m e) with false
      by (symmetry; apply Z.leb_gt; exact Hrange).
    reflexivity.
Qed.

Lemma abs_fraction_pos (x : number) :
  0 <= abs_numerator x /\ 0 < abs_denominator x.
Proof.
  destruct x as [s|s| |s m e]; cbn [abs_numerator abs_denominator]; try lia.
  pose proof (numerator_pos m e). pose proof (denominator_pos e). lia.
Qed.

Lemma digits_value_app (s1 s2 : string) :
  digits_value (s1 ++ s2) = digits_value s1 * 10 ^ len s2 + digits_value s2.
Proof.
  unfold digits_value at 1. rewrite digits_value_from_app.
  fold (digits_value s1). apply digits_value_from_shift.
Qed.

(** Digits, a point and digits, with a sign or none, are scanned whole. *)
Lemma parse_fixed_text (sg ip fp : string) :
  sg = "" \/ sg = "-" ->
  all_digits ip = true -> 0 < len ip -> all_digits fp = true ->
  parse_float_string (sg ++ ip ++ "." ++ fp)
  = number_of_decimal (if String.eqb sg "-" then true else false)
      (digits_value (ip ++ fp)) (0 - len fp).
Proof.
  intros Hsg Hip Hlen Hfp.
  destruct (len_pos_head ip Hlen) as (c & r & Hipe).
  assert (Hc : is_digit c = true).
  { rewrite Hipe in Hip. cbn [all_digits] in Hip.
    apply andb_true_iff in Hip as [Hc _]. exact Hc. }
  assert (Hdec : scan_decimal (ip ++ "." ++ fp) = Some (LDecimal ip fp None, "")).
  { unfold scan_decimal.
    rewrite (span_digits_app ip ("." ++ fp) Hip) by reflexivity.
    unfold scan_fraction. cbn [append strip_point].
    rewrite <- (append_empty_r fp) at 1.
    rewrite (span_digits_app fp "" Hfp I).
    replace (len ip =? 0) with false by (symmetry; apply Z.eqb_neq; lia).
    reflexivity. }
  assert (Huns : scan_unsigned (ip ++ "." ++ fp) = Some (LDecimal ip fp None, "")).
  { unfold scan_unsigned.
    assert (Hpre : String.prefix "Infinity" (ip ++ "." ++ fp) = false).
    { rewrite Hipe. cbn [append]. apply prefix_head, digit_not_I, Hc. }
    rewrite Hpre. exact Hdec. }
  assert (Hstart : literal_start c = true).
  { unfold literal_start, unsigned_start. rewrite Hc. reflexivity. }
  unfold parse_float_string.
  assert (Htrim : TrimStart (sg ++ ip ++ "." ++ fp) = sg ++ ip ++ "." ++ fp).
  { destruct Hsg as [-> | ->].
    - cbn [append]. rewrite Hipe. apply (TrimStart_literal_start c _ Hstart).
    - apply (TrimStart_literal_start "-" _ eq_refl). }
  rewrite Htrim. unfold scan_literal.
  assert (Hsplit : split_sign (sg ++ ip ++ "." ++ fp)
                   = (if String.eqb sg "-" then true else false, ip ++ "." ++ fp)).
  { rewrite Hipe. cbn [append].
    apply (split_sign_digits sg "" c (r ++ String "." fp)); [|exact Hc].
    destruct Hsg as [-> | ->]; unfold Sign; auto. }
  rewrite Hsplit, Huns. unfold literal_value.
  rewrite digits_value_app. reflexivity.
Qed.

(** X5: in the fixed range, what follows the glyph parses back to the
    Number of the value rounded to hundredths, with the sign of the parsed
    value. *)
Theorem formatCurrency_parses_back (amount : value) (x : number) :
  parseFloat amount = Normal x ->
  fixed_range x = true ->
  exists body,
    formatCurrency amount = Normal ("₹" ++ body)
    /\ parse_float_string body
       = number_of_decimal (is_negative x)
           (nearest_scaled (abs_numerator x) (abs_denominator x) 2) (-2).
Proof.
  intros Hparse Hrange. unfold formatCurrency.
  rewrite Hparse. cbn [bind]. rewrite (toFixed_fixed_range x Hrange). cbn [bind].
  eexists. split; [reflexivity|].
  destruct (abs_fraction_pos x) as [HN HD].
  destruct (nearest_scaled_spec (abs_numerator x) (abs_denominator x) 2 HN HD)
    as [Hn _]; [lia|].
  destruct (fixed_digits_spec _ 2 Hn) as (ip & fp & -> & Hip & Hlen & Hfp & Hlfp & Hval);
    [lia|].
  rewrite parse_fixed_text; auto.
  - rewrite Hval, Hlfp. destruct (is_negative x); reflexivity.
  - destruct (is_negative x); auto.
Qed.

Lemma formatCurrency_parses_back_witness :
  exists body,
    formatCurrency (VStr "12.345") = Normal ("₹" ++ body)
    /\ parse_float_string body
       = number_of_decimal (is_negative n12_345)
           (nearest_scaled (abs_numerator n12_345) (abs_denominator n12_345) 2)
           (-2).
Proof.
  apply (formatCurrency_parses_back (VStr "12.345") n12_345);
    vm_compute; reflexivity.
Defined.

(** X6: a value of magnitude below 0.005 is written as zero, and keeps its
    minus sign when it is negative; zero itself, of either sign, has
    none. *)
Theorem formatCurrency_small (amount : value) (x : number) :
  parseFloat amount = Normal x ->
  is_finite x = true ->
  200 * abs_numerator x < abs_denominator x ->
  formatCurrency amount
  = Normal (if is_negative x then "₹-0.00" else "₹0.00").
Proof.
  intros Hparse Hfin Hsmall.
  destruct (abs_fraction_pos x) as [HN HD].
  assert (Hrange : fixed_range x = true).
  { destruct x as [s|s| |s m e]; try discriminate Hfin; [reflexivity|].
    cbn [fixed_range abs_numerator abs_denominator] in *.
    apply Z.ltb_lt. nia. }
  unfold formatCurrency. rewrite Hparse. cbn [bind].
  rewrite (toFixed_fixed_range x Hrange). cbn [bind].
  assert (Hn : nearest_scaled (abs_numerator x) (abs_denominator x) 2 = 0).
  { unfold nearest_scaled. apply Z.div_small. change (10 ^ 2) with 100. lia. }
  rewrite Hn. destruct (is_negative x); reflexivity.
Qed.

Lemma formatCurrency_small_witness :
  formatCurrency (VStr "-0.004")
  = Normal (if is_negative (number_of_decimal true 4 (-3))
            then "₹-0.00" else "₹0.00").
Proof.
  apply (formatCurrency_small (VStr "-0.004") (number_of_decimal true 4 (-3)));
    vm_compute; reflexivity.
Defined.

Lemma digits_value_lt (d : string) :
  all_digits d = true -> 0 <= digits_value d < 10 ^ len d.
Proof.
  induction d as [|c d IH]; intros Hd; [vm_compute; split; congruence|].
  cbn [all_digits] in Hd. apply andb_true_iff in Hd as [Hc Hd].
  change (String c d) with (String c "" ++ d).
  rewrite digits_value_app, len_app.
  change (digits_value (String c "")) with (10 * 0 + digit_value c).
  change (len (String c "")) with 1.
  pose proof (is_digit_value c Hc). specialize (IH Hd).
  rewrite Z.pow_add_r by (try lia; apply len_nonneg).
  change (10 ^ 1) with 10. nia.
Qed.

Lemma take_zeros_head (k : nat) (s : string) :
  take 1 (zeros (S k) ++ s) = "0".
Proof. reflexivity. Qed.

(** The digits before the point are ["0"] or start with another digit. *)
Lemma fixed_digits_canonical (n : Z) :
  0 <= n ->
  exists ip fp,
    fixed_digits n 2 = ip ++ "." ++ fp /\ len fp = 2
    /\ (ip = "0" \/ exists c r, ip = String c r /\ c <> "0"%char).
Proof.
  intros Hn. unfold fixed_digits.
  assert (Hm : (if n =? 0 then "0" else decimal_digits n) = decimal_digits n).
  { destruct (n =? 0) eqn:E; [|reflexivity]. apply Z.eqb_eq in E. subst n. reflexivity. }
  rewrite Hm. clear Hm. change (2 =? 0) with false. cbv iota.
  destruct (decimal_digits_spec n Hn) as (Hall & Hlen & Hval & Hlead).
  pose proof (digits_value_lt _ Hall) as Hlt. rewrite Hval in Hlt.
  set (m := decimal_digits n) in *.
  destruct (len m <=? 2) eqn:E.
  - apply Z.leb_le in E.
    assert (Hk : exists k, Z.to_nat (2 + 1 - len m) = S k).
    { exists (Z.to_nat (2 - len m)). lia. }
    destruct Hk as (k & Hk). rewrite Hk.
    assert (Hl : len (zeros (S k) ++ m) = 3).
    { rewrite len_app. unfold len at 1. rewrite length_zeros. lia. }
    rewrite Hl. change (Z.to_nat (3 - 2)) with 1%nat.
    exists "0", (drop 1 (zeros (S k) ++ m)). split; [reflexivity|].
    split; [|left; reflexivity].
    pose proof (take_drop_append 1 (zeros (S k) ++ m)) as Htd.
    rewrite take_zeros_head in Htd.
    assert (H := f_equal len Htd). rewrite len_app, Hl in H.
    change (len "0") with 1 in H. lia.
  - apply Z.leb_gt in E.
    assert (Hpos : 0 < n).
    { destruct (Z.eq_dec n 0) as [-> |]; [|lia]. vm_compute in E. discriminate. }
    destruct (Hlead Hpos) as (c & r & Hmr & Hc).
    assert (Ha : exists a, Z.to_nat (len m - 2) = S a).
    { exists (Z.to_nat (len m - 3)). lia. }
    destruct Ha as (a & Ha). rewrite Ha.
    exists (take (S a) m), (drop (S a) m). split; [reflexivity|].
    split.
    + pose proof (take_drop_append (S a) m) as Htd.
      assert (H := f_equal len Htd). rewrite len_app in H.
      assert (len (take (S a) m) = Z.of_nat (S a)).
      { unfold len. rewrite length_take; [reflexivity|]. unfold len in E, Ha. lia. }
      lia.
    + right. rewrite Hmr. cbn [take]. eauto.
Qed.

(** X7: in the fixed range, the digits before the point are the single
    digit [0] or start with a digit other than [0]: no padding zeros. *)
Theorem formatCurrency_no_leading_zero (amount : value) (x : number) :
  parseFloat amount = Normal x ->
  fixed_range x = true ->
  exists ip fp,
    formatCurrency amount
    = Normal ("₹" ++ (if is_negative x then "-" else "") ++ ip ++ "." ++ fp)
    /\ len fp = 2
    /\ (ip = "0" \/ exists c r, ip = String c r /\ c <> "0"%char).
Proof.
  intros Hparse Hrange. unfold formatCurrency.
  rewrite Hparse. cbn [bind]. rewrite (toFixed_fixed_range x Hrange). cbn [bind].
  destruct (abs_fraction_pos x) as [HN HD].
  destruct (nearest_scaled_spec (abs_numerator x) (abs_denominator x) 2 HN HD)
    as [Hn _]; [lia|].
  destruct (fixed_digits_canonical _ Hn) as (ip & fp & -> & Hlen & Hcan).
  exists ip, fp. auto.
Qed.

Lemma formatCurrency_no_leading_zero_witness :
  exists ip fp,
    formatCurrency (VStr "0042.5")
    = Normal ("₹" ++ (if is_negative (number_of_decimal false 425 (-1))
                       then "-" else "") ++ ip ++ "." ++ fp)
    /\ len fp = 2
    /\ (ip = "0" \/ exists c r, ip = String c r /\ c <> "0"%char).
Proof.
  apply (formatCurrency_no_leading_zero (VStr "0042.5")
           (number_of_decimal false 425 (-1)));
    vm_compute; reflexivity.
Defined.

(** *** Integers below 2^53 are Numbers *)

Lemma digits2_pos_bounds (p : positive) :
  2 ^ (Z.pos (digits2_pos p) - 1) <= Z.pos p < 2 ^ Z.pos (digits2_pos p).
Proof.
  induction p as [p IH|p IH|]; cbn [digits2_pos].
  - rewrite Pos2Z.inj_succ.
    replace (Z.succ (Z.pos (digits2_pos p)) - 1)
      with (Z.succ (Z.pos (digits2_pos p) - 1)) by lia.
    rewrite !Z.pow_succ_r by lia.
    destruct IH as [IH1 IH2]. revert IH1 IH2.
    generalize (2 ^ (Z.pos (digits2_pos p) - 1)), (2 ^ Z.pos (digits2_pos p)).
    intros a b IH1 IH2. lia.
  - rewrite Pos2Z.inj_succ.
    replace (Z.succ (Z.pos (digits2_pos p)) - 1)
      with (Z.succ (Z.pos (digits2_pos p) - 1)) by lia.
    rewrite !Z.pow_succ_r by lia.
    destruct IH as [IH1 IH2]. revert IH1 IH2.
    generalize (2 ^ (Z.pos (digits2_pos p) - 1)), (2 ^ Z.pos (digits2_pos p)).
    intros a b IH1 IH2. lia.
  - vm_compute. split; congruence.
Qed.

Lemma digits2_pos_unique (p : positive) (d : Z) :
  2 ^ (d - 1) <= Z.pos p < 2 ^ d -> 0 < d -> Z.pos (digits2_pos p) = d.
Proof.
  intros [Hlo Hhi] Hd. destruct (digits2_pos_bounds p) as [Hlo' Hhi'].
  assert (H1 : d - 1 < Z.pos (digits2_pos p)).
  { apply (Z.pow_lt_mono_r_iff 2); lia. }
  assert (H2 : Z.pos (digits2_pos p) - 1 < d).
  { apply (Z.pow_lt_mono_r_iff 2); lia. }
  lia.
Qed.

(** An even mantissa of 54 bits, exactly known, loses its last bit and
    nothing else. *)
Lemma binary_round_aux_exact (neg : bool) (m : positive) (e : Z) :
  Z.pos (digits2_pos m) = 53 -> -1074 <= e <= 971 ->
  binary_round_aux prec emax neg (Z.pos m~0) (e - 1) loc_Exact
  = S754_finite neg m e.
Proof.
  intros Hd He. unfold binary_round_aux, shr_fexp.
  cbn [Zdigits2 digits2_pos shr_record_of_loc].
  rewrite Pos2Z.inj_succ, Hd.
  replace (fexp prec emax (Z.succ 53 + (e - 1)) - (e - 1)) with 1
    by (unfold fexp, emin, prec, emax; lia).
  cbn [shr iter_pos shr_1 loc_of_shr_record round_nearest_even shr_m
       Zdigits2 shr_record_of_loc orb].
  rewrite Hd.
  replace (fexp prec emax (53 + (e - 1 + 1)) - (e - 1 + 1)) with 0
    by (unfold fexp, emin, prec, emax; lia).
  cbn [shr shr_m].
  replace (e - 1 + 1 <=? emax - prec) with true
    by (symmetry; apply Z.leb_le; unfold emax, prec; lia).
  f_equal. lia.
Qed.

(** The Number of a positive integer below 2^53 is that integer. *)
Lemma round_ratio_integer (neg : bool) (p : positive) :
  Z.pos p < 2 ^ 53 ->
  exists m e,
    round_ratio neg (Z.pos p) 1 = S754_finite neg m e
    /\ numerator m e = Z.pos p * denominator e.
Proof.
  intros Hp. destruct (digits2_pos_bounds p) as [Hlo Hhi].
  set (d := Z.pos (digits2_pos p)) in *.
  assert (Hd : 1 <= d <= 53).
  { split; [unfold d; lia|].
    assert (d - 1 < 53) by (apply (Z.pow_lt_mono_r_iff 2); lia). lia. }
  assert (Hpow : 0 < 2 ^ (53 - d)) by (apply Z.pow_pos_nonneg; lia).
  set (m := Z.to_pos (Z.pos p * 2 ^ (53 - d))).
  assert (Hm : Z.pos m = Z.pos p * 2 ^ (53 - d)) by (unfold m; rewrite Z2Pos.id; nia).
  assert (Hdm : Z.pos (digits2_pos m) = 53).
  { apply digits2_pos_unique; [|lia]. rewrite Hm.
    replace (2 ^ (53 - 1)) with (2 ^ (d - 1) * 2 ^ (53 - d))
      by (rewrite <- Z.pow_add_r by lia; f_equal; lia).
    replace (2 ^ 53) with (2 ^ d * 2 ^ (53 - d))
      by (rewrite <- Z.pow_add_r by lia; f_equal; lia).
    split; nia. }
  exists m, (d - 53). split.
  - unfold round_ratio, SFdiv_core_binary.
    cbn [Zdigits2 digits2_pos]. fold d.
    replace (Z.min (fexp prec emax (d + 0 - (1 + 0))) (0 - 0)) with (d - 54)
      by (unfold fexp, emin, prec, emax; lia).
    replace (0 - 0 - (d - 54)) with (54 - d) by lia.
    assert (Hq : Z.pos p * 2 ^ (54 - d) = Z.pos m~0).
    { change (Z.pos m~0) with (2 * Z.pos m). rewrite Hm.
      replace (54 - d) with (Z.succ (53 - d)) by lia.
      rewrite Z.pow_succ_r by lia. lia. }
    assert (Hshift : match 54 - d with
                     | Z.pos _ => Z.shiftl (Z.pos p) (54 - d)
                     | 0 => Z.pos p
                     | Z.neg _ => 0
                     end = Z.pos m~0).
    { rewrite <- Hq. destruct (54 - d) eqn:Hs; try lia.
      apply Z.shiftl_mul_pow2. lia. }
    rewrite Hshift.
    pose proof (Z_div_mod (Z.pos m~0) 1 ltac:(lia)) as Hdiv.
    destruct (Z.div_eucl (Z.pos m~0) 1) as [q r].
    assert (q = Z.pos m~0 /\ r = 0) as [-> ->] by lia.
    change (new_location 1 0) with loc_Exact.
    replace (d - 54) with (d - 53 - 1) by lia.
    apply binary_round_aux_exact; [exact Hdm|lia].
  - unfold numerator, denominator.
    destruct (Z.leb_spec 0 (d - 53)) as [H|H].
    + replace (d - 53) with 0 by lia. replace (53 - d) with 0 in Hm by lia.
      rewrite Hm. change (2 ^ 0) with 1. lia.
    + rewrite Hm. f_equal. f_equal. lia.
Qed.

(** *** Digit strings and their values *)

Lemma digit_value_inj (c c' : ascii) :
  digit_value c = digit_value c' -> c = c'.
Proof.
  unfold digit_value. intros H.
  rewrite <- (ascii_N_embedding c), <- (ascii_N_embedding c'). f_equal. lia.
Qed.

Lemma digits_value_cons (c : ascii) (r : string) :
  digits_value (String c r) = digit_value c * 10 ^ len r + digits_value r.
Proof.
  change (String c r) with (String c "" ++ r). rewrite digits_value_app.
  change (digits_value (String c "")) with (10 * 0 + digit_value c). lia.
Qed.

Lemma same_length_unique (d d' : string) :
  all_digits d = true -> all_digits d' = true ->
  len d = len d' -> digits_value d = digits_value d' -> d = d'.
Proof.
  revert d'; induction d as [|c r IH]; intros [|c' r'] Hd Hd' Hlen Hval.
  - reflexivity.
  - rewrite len_cons in Hlen. change (len "") with 0 in Hlen.
    pose proof (len_nonneg r'). lia.
  - rewrite len_cons in Hlen. change (len "") with 0 in Hlen.
    pose proof (len_nonneg r). lia.
  - idtac.
  cbn [all_digits] in Hd, Hd'.
  apply andb_true_iff in Hd as [Hc Hr]. apply andb_true_iff in Hd' as [Hc' Hr'].
  rewrite !len_cons in Hlen. rewrite !digits_value_cons in Hval.
  assert (Hl : len r = len r') by lia. rewrite <- Hl in Hval.
  pose proof (digits_value_lt r Hr) as B. pose proof (digits_value_lt r' Hr') as B'.
  rewrite <- Hl in B'.
  pose proof (is_digit_value c Hc). pose proof (is_digit_value c' Hc').
  assert (digit_value c = digit_value c' /\ digits_value r = digits_value r')
    as [E1 E2].
  { revert Hval B B'. generalize (10 ^ len r), (digits_value r), (digits_value r').
    intros K v v' Hval B B'.
    assert (digit_value c = digit_value c') by nia. split; [assumption|nia]. }
  rewrite (digit_value_inj c c' E1), (IH r' Hr Hr' Hl E2). reflexivity.
Qed.

Lemma leading_digit_bounds (c : ascii) (r : string) :
  all_digits (String c r) = true -> c <> "0"%char ->
  10 ^ len r <= digits_value (String c r) < 10 ^ (len r + 1).
Proof.
  intros Hd Hc. cbn [all_digits] in Hd. apply andb_true_iff in Hd as [Hdc Hr].
  rewrite digits_value_cons.
  pose proof (digits_value_lt r Hr) as B. pose proof (is_digit_value c Hdc) as Bc.
  assert (digit_value c <> 0).
  { intros E. apply Hc. apply digit_value_inj. rewrite E. reflexivity. }
  rewrite Z.pow_add_r by (try lia; apply len_nonneg). change (10 ^ 1) with 10.
  revert B. generalize (10 ^ len r), (digits_value r). intros K v B. nia.
Qed.

(** Two digit strings that do not start with [0] and have one value are
    one string. *)
Lemma leading_digit_unique (c c' : ascii) (r r' : string) :
  all_digits (String c r) = true -> all_digits (String c' r') = true ->
  c <> "0"%char -> c' <> "0"%char ->
  digits_value (String c r) = digits_value (String c' r') ->
  String c r = String c' r'.
Proof.
  intros Hd Hd' Hc Hc' Hval.
  destruct (leading_digit_bounds c r Hd Hc) as [L U].
  destruct (leading_digit_bounds c' r' Hd' Hc') as [L' U'].
  rewrite Hval in L, U.
  pose proof (len_nonneg r). pose proof (len_nonneg r').
  assert (H1 : len r < len r' + 1) by (apply (Z.pow_lt_mono_r_iff 10); lia).
  assert (H2 : len r' < len r + 1) by (apply (Z.pow_lt_mono_r_iff 10); lia).
  apply same_length_unique; auto. rewrite !len_cons. lia.
Qed.

(** Digits alone are scanned whole. *)
Lemma parse_digits_text (d : string) :
  all_digits d = true -> 0 < len d ->
  parse_float_string d = number_of_decimal false (digits_value d) 0.
Proof.
  intros Hd Hlen.
  destruct (len_pos_head d Hlen) as (c & r & Hde).
  assert (Hc : is_digit c = true).
  { rewrite Hde in Hd. cbn [all_digits] in Hd.
    apply andb_true_iff in Hd as [Hc _]. exact Hc. }
  assert (Hstart : literal_start c = true).
  { unfold literal_start, unsigned_start. rewrite Hc. reflexivity. }
  unfold parse_float_string.
  assert (Htrim : TrimStart d = d)
    by (rewrite Hde; apply (TrimStart_literal_start c r Hstart)).
  rewrite Htrim. unfold scan_literal.
  assert (Hsplit : split_sign d = (false, d)).
  { rewrite Hde. apply split_sign_unsigned_start.
    unfold unsigned_start. rewrite Hc. reflexivity. }
  rewrite Hsplit. unfold scan_unsigned.
  assert (Hpre : String.prefix "Infinity" d = false).
  { rewrite Hde. apply prefix_head, digit_not_I, Hc. }
  rewrite Hpre. unfold scan_decimal.
  rewrite <- (append_empty_r d) at 1. rewrite (span_digits_app d "" Hd I).
  unfold scan_fraction. cbn [strip_point].
  replace (len d =? 0) with false by (symmetry; apply Z.eqb_neq; lia).
  cbn [andb scan_exponent literal_value].
  change (len "") with 0. change (digits_value "") with 0.
  change (10 ^ 0) with 1. f_equal. lia.
Qed.

Lemma nearest_scaled_integer (n D : Z) :
  0 <= n -> 0 < D -> nearest_scaled (n * D) D 2 = 100 * n.
Proof.
  intros Hn HD. unfold nearest_scaled. change (10 ^ 2) with 100.
  symmetry. apply (Z.div_unique _ _ _ D); [left; lia|]. ring.
Qed.

(** The hundredths of a positive integer: its digits and two zeros. *)
Lemma fixed_digits_integer (c : ascii) (r : string) :
  all_digits (String c r) = true -> c <> "0"%char ->
  fixed_digits (100 * digits_value (String c r)) 2 = String c r ++ ".00".
Proof.
  intros Hd Hc. set (n := digits_value (String c r)).
  destruct (leading_digit_bounds c r Hd Hc) as [L _]. fold n in L.
  assert (Hn : 0 < n).
  { assert (0 < 10 ^ len r) by (apply Z.pow_pos_nonneg; [lia|apply len_nonneg]). lia. }
  destruct (fixed_digits_spec (100 * n) 2) as (ip & fp & He & Hip & Hlip & Hfp & Hlfp & Hval);
    try lia.
  destruct (fixed_digits_canonical (100 * n)) as (ip' & fp' & He' & Hlfp' & Hcan);
    try lia.
  assert (ip' = ip /\ "." ++ fp' = "." ++ fp) as [-> Hfpe].
  { apply app_inv_len; [congruence|].
    assert (H := f_equal len He). rewrite He' in H. rewrite !len_app in H.
    cbn [append] in H. rewrite !len_cons in H. lia. }
  rewrite He. rewrite digits_value_app, Hlfp in Hval. change (10 ^ 2) with 100 in Hval.
  pose proof (digits_value_lt fp Hfp) as Bf. rewrite Hlfp in Bf.
  change (10 ^ 2) with 100 in Bf.
  pose proof (digits_value_nonneg ip Hip) as Bi.
  assert (digits_value ip = n /\ digits_value fp = 0) as [Vi Vf] by lia.
  assert (fp = "00") as ->.
  { apply same_length_unique; auto. }
  destruct Hcan as [-> | (c' & r' & -> & Hc')].
  - change (digits_value "0") with 0 in Vi. lia.
  - rewrite (leading_digit_unique c' c r' r Hip Hd Hc' Hc Vi). reflexivity.
Qed.

(** X8: an integer written plainly and below 2^53 is shown as it is
    written, with [.00] after it, and with its minus sign when it has one;
    [-0] is shown without the sign. *)
Theorem formatCurrency_integer (d : string) :
  plain_integer d ->
  digits_value d < 2 ^ 53 ->
  formatCurrency (VStr d) = Normal ("₹" ++ d ++ ".00")
  /\ formatCurrency (VStr ("-" ++ d))
     = Normal (if String.eqb d "0" then "₹0.00" else "₹-" ++ d ++ ".00").
Proof.
  intros [Hd [-> | (c & r & -> & Hc)]] Hlt; [split; vm_compute; reflexivity|].
  assert (Hne : String.eqb (String c r) "0" = false).
  { apply String.eqb_neq. intros [= E _]. contradiction. }
  rewrite Hne.
  assert (Hdc : is_digit c = true).
  { cbn [all_digits] in Hd. apply andb_true_iff in Hd as [H _]. exact H. }
  destruct (leading_digit_bounds c r Hd Hc) as [L _].
  assert (Hn : 0 < digits_value (String c r)).
  { assert (0 < 10 ^ len r) by (apply Z.pow_pos_nonneg; [lia|apply len_nonneg]). lia. }
  assert (Hparse : exists m e,
            parse_float_string (String c r) = S754_finite false m e
            /\ numerator m e = digits_value (String c r) * denominator e).
  { rewrite parse_digits_text;
      [|exact Hd|rewrite len_cons; pose proof (len_nonneg r); lia].
    unfold number_of_decimal. change (0 <=? 0) with true. cbv iota.
    change (10 ^ 0) with 1. rewrite Z.mul_1_r.
    destruct (digits_value (String c r)) as [|p|p]; try lia.
    exact (round_ratio_integer false p Hlt). }
  destruct Hparse as (m & e & Hparse & Hnum).
  pose proof (denominator_pos e) as HD.
  assert (Hfixed : forall s,
            toFixed (S754_finite s m e) 2
            = Normal ((if s then "-" else "") ++ String c r ++ ".00")).
  { intros s.
    assert (Hrange : fixed_range (S754_finite s m e) = true).
    { cbn [fixed_range]. apply Z.ltb_lt. rewrite Hnum.
      assert (2 ^ 53 < 10 ^ 21) by (vm_compute; reflexivity). nia. }
    rewrite (toFixed_fixed_range _ Hrange).
    cbn [is_negative abs_numerator abs_denominator].
    rewrite Hnum, nearest_scaled_integer by lia.
    rewrite (fixed_digits_integer c r Hd Hc). reflexivity. }
  split.
  - unfold formatCurrency, parseFloat. cbn [ToString bind].
    rewrite Hparse, Hfixed. reflexivity.
  - unfold formatCurrency, parseFloat. cbn [ToString bind].
    rewrite parse_float_string_minus, Hparse.
    + cbn [SFopp negb]. rewrite Hfixed. reflexivity.
    + apply TrimStart_literal_start. unfold literal_start, unsigned_start.
      rewrite Hdc. reflexivity.
    + apply split_sign_unsigned_start. unfold unsigned_start.
      rewrite Hdc. reflexivity.
Qed.

Lemma formatCurrency_integer_witness :
  formatCurrency (VStr "1999") = Normal ("₹" ++ "1999" ++ ".00")
  /\ formatCurrency (VStr ("-" ++ "1999"))
     = Normal (if String.eqb "1999" "0" then "₹0.00"
               else "₹-" ++ "1999" ++ ".00").
Proof.
  apply (formatCurrency_integer "1999").
  - split; [reflexivity|]. right. exists "1"%char, "999".
    split; [reflexivity|discriminate].
  - vm_compute. reflexivity.
Defined.

(** ** More on the initializer *)

Lemma length_scheduled (from : nat) (d : Z) (l : list node) :
  List.length (scheduled from d l) = List.length l.
Proof. rewrite <- (length_map timer_id), scheduled_ids. apply length_seq. Qed.

Lemma length_built (from : nat) (l : list node) :
  List.length (built from l) = List.length l.
Proof. rewrite <- (length_map handle), built_handles. apply length_seq. Qed.

(** *** Attributes and titles *)

Lemma find_key_map_other (name name' v : string) (l : list (string * string)) :
  String.eqb name name' = false ->
  find (fun p => String.eqb name (fst p))
    (map (fun p => if String.eqb name' (fst p) then (name', v) else p) l)
  = find (fun p => String.eqb name (fst p)) l.
Proof.
  intros Hne. induction l as [|a l IH]; [reflexivity|]. cbn [map find].
  destruct (String.eqb_spec name' (fst a)) as [E|E].
  - cbn [fst]. rewrite Hne, <- E, Hne. exact IH.
  - rewrite IH. reflexivity.
Qed.

Lemma find_key_app_other (name name' v : string) (l : list (string * string)) :
  String.eqb name name' = false ->
  find (fun p => String.eqb name (fst p)) (l ++ [(name', v)])%list
  = find (fun p => String.eqb name (fst p)) l.
Proof.
  intros Hne. induction l as [|a l IH]; cbn [app find fst].
  - rewrite Hne. reflexivity.
  - rewrite IH. reflexivity.
Qed.

Lemma getAttribute_set_other (name name' v : string) (e : element) :
  String.eqb name name' = false ->
  getAttribute name (setAttribute name' v e) = getAttribute name e.
Proof.
  intros Hne. unfold getAttribute, setAttribute. cbn [attributes].
  destruct (existsb _ (attributes e)).
  - rewrite find_key_map_other; [reflexivity|exact Hne].
  - rewrite find_key_app_other; [reflexivity|exact Hne].
Qed.

Lemma getAttribute_set_same (name v : string) (e : element) :
  getAttribute name (setAttribute name v e) = Some v.
Proof.
  unfold getAttribute, setAttribute. cbn [attributes].
  induction (attributes e) as [|a l IH]; cbn [existsb map app find fst].
  - rewrite String.eqb_refl. reflexivity.
  - destruct (String.eqb name (fst a)) eqn:E; cbn [orb].
    + cbn [map find fst]. rewrite String.eqb_refl. reflexivity.
    + destruct (existsb _ l); cbn [map app find]; rewrite E; exact IH.
Qed.

Lemma getAttribute_remove_other (name name' : string) (e : element) :
  String.eqb name name' = false ->
  getAttribute name (removeAttribute name' e) = getAttribute name e.
Proof.
  intros Hne. unfold getAttribute, removeAttribute. cbn [attributes].
  induction (attributes e) as [|a l IH]; [reflexivity|]. cbn [filter find].
  destruct (String.eqb_spec name' (fst a)) as [E|E]; cbn [negb find].
  - rewrite <- E, Hne. exact IH.
  - destruct (String.eqb name (fst a)); [reflexivity|exact IH].
Qed.

Lemma getAttribute_remove_same (name : string) (e : element) :
  getAttribute name (removeAttribute name e) = None.
Proof.
  unfold getAttribute, removeAttribute. cbn [attributes].
  induction (attributes e) as [|a l IH]; [reflexivity|]. cbn [filter].
  destruct (String.eqb name (fst a)) eqn:E; cbn [negb find]; [exact IH|].
  rewrite E. exact IH.
Qed.

Lemma fixTitle_fields (e : element) :
  node_of (fixTitle e) = node_of e
  /\ parent (fixTitle e) = parent e
  /\ classes (fixTitle e) = classes e
  /\ textContent (fixTitle e) = textContent e.
Proof.
  unfold fixTitle. destruct (getAttribute "title" e) as [[|c r]|]; auto.
  destruct (negb _ && _); cbn; auto.
Qed.

(** The title fixing touches three attributes and no other. *)
Lemma getAttribute_fixTitle (name : string) (e : element) :
  String.eqb name "title" = false ->
  String.eqb name "aria-label" = false ->
  String.eqb name "data-bs-original-title" = false ->
  getAttribute name (fixTitle e) = getAttribute name e.
Proof.
  intros H1 H2 H3. unfold fixTitle.
  destruct (getAttribute "title" e) as [[|c r]|]; try reflexivity.
  rewrite getAttribute_remove_other, getAttribute_set_other by assumption.
  destruct (negb _ && _); [|reflexivity].
  apply getAttribute_set_other, H2.
Qed.

Lemma fixTitle_idempotent (e : element) : fixTitle (fixTitle e) = fixTitle e.
Proof.
  assert (H : fixTitle e = e \/ getAttribute "title" (fixTitle e) = None).
  { unfold fixTitle. destruct (getAttribute "title" e) as [[|c r]|]; auto.
    right. apply getAttribute_remove_same. }
  destruct H as [H|H]; [rewrite !H; reflexivity|].
  unfold fixTitle at 1. rewrite H. reflexivity.
Qed.

Lemma matches_fixTitle_class (name : string) (e : element) :
  matches (ByClass name) (fixTitle e) = matches (ByClass name) e.
Proof.
  cbn [matches]. destruct (fixTitle_fields e) as (_ & _ & -> & _). reflexivity.
Qed.

Lemma matches_fixTitle_toggle (e : element) :
  matches (ByAttribute "data-bs-toggle" "tooltip") (fixTitle e)
  = matches (ByAttribute "data-bs-toggle" "tooltip") e.
Proof.
  cbn [matches]. rewrite getAttribute_fixTitle; reflexivity.
Qed.

Lemma map_node_of_update_element (n : node) (f : element -> element)
  (d : list element) :
  (forall e, node_of (f e) = node_of e) ->
  map node_of (update_element n f d) = map node_of d.
Proof.
  intros Hf. unfold update_element. rewrite map_map. apply map_ext.
  intros e. destruct (Nat.eqb (node_of e) n); [apply Hf|reflexivity].
Qed.

Lemma selected_update (sel : selector) (n : node) (d : list element) :
  (forall e, matches sel (fixTitle e) = matches sel e) ->
  map node_of (filter (matches sel) (update_element n fixTitle d))
  = map node_of (filter (matches sel) d).
Proof.
  intros Hm. induction d as [|a d IH]; [reflexivity|].
  cbn [update_element map filter]. fold (update_element n fixTitle d).
  destruct (Nat.eqb (node_of a) n).
  - rewrite Hm. destruct (matches sel a); [|exact IH].
    cbn [map]. rewrite IH. destruct (fixTitle_fields a) as (-> & _). reflexivity.
  - destruct (matches sel a); [|exact IH]. cbn [map]. rewrite IH. reflexivity.
Qed.

Lemma selected_fix_titles (sel : selector) (l : list node) (d : list element) :
  (forall e, matches sel (fixTitle e) = matches sel e) ->
  map node_of (filter (matches sel) (fix_titles l d))
  = map node_of (filter (matches sel) d).
Proof.
  intros Hm. revert d; induction l as [|n l IH]; intros d; [reflexivity|].
  cbn [fix_titles fold_left]. fold (fix_titles l (update_element n fixTitle d)).
  rewrite IH. apply selected_update, Hm.
Qed.

Lemma alert_nodes_fix_titles (l : list node) (d : list element) :
  alert_nodes (fix_titles l d) = alert_nodes d.
Proof. apply selected_fix_titles, matches_fixTitle_class. Qed.

Lemma tooltip_nodes_fix_titles (l : list node) (d : list element) :
  tooltip_nodes (fix_titles l d) = tooltip_nodes d.
Proof. apply selected_fix_titles, matches_fixTitle_toggle. Qed.

Lemma fix_titles_map (l : list node) (d : list element) :
  fix_titles l d
  = map (fun e => if existsb (Nat.eqb (node_of e)) l then fixTitle e else e) d.
Proof.
  revert d; induction l as [|n l IH]; intros d.
  - cbn [fix_titles fold_left existsb]. symmetry. apply map_id.
  - cbn [fix_titles fold_left]. fold (fix_titles l (update_element n fixTitle d)).
    rewrite IH. unfold update_element. rewrite map_map. apply map_ext.
    intros e. cbn [existsb].
    destruct (Nat.eqb (node_of e) n); cbn [orb]; [|reflexivity].
    destruct (fixTitle_fields e) as (-> & _). rewrite fixTitle_idempotent.
    destruct (existsb (Nat.eqb (node_of e)) l); reflexivity.
Qed.

Lemma NoDup_map_eq {A B : Type} (f : A -> B) (l : list A) (x y : A) :
  NoDup (map f l) -> In x l -> In y l -> f x = f y -> x = y.
Proof.
  induction l as [|a l IH]; intros Hnd Hx Hy Hf; [destruct Hx|].
  cbn [map] in Hnd. inversion Hnd as [|? ? Hnotin Hnd']; subst.
  destruct Hx as [-> | Hx], Hy as [-> | Hy]; auto.
  - exfalso. apply Hnotin. rewrite Hf. apply in_map, Hy.
  - exfalso. apply Hnotin. rewrite <- Hf. apply in_map, Hx.
Qed.

Lemma queried_matches (sel : selector) (d : list element) (e : element) :
  NoDup (map node_of d) -> In e d ->
  existsb (Nat.eqb (node_of e)) (map node_of (filter (matches sel) d))
  = matches sel e.
Proof.
  intros Hnd He. destruct (matches sel e) eqn:Hm.
  - apply existsb_exists. exists (node_of e). split; [|apply Nat.eqb_refl].
    apply in_map, filter_In. auto.
  - destruct (existsb _ _) eqn:Hex; [|reflexivity].
    apply existsb_exists in Hex as (n & Hn & Heq). apply Nat.eqb_eq in Heq.
    apply in_map_iff in Hn as (e' & He' & Hin).
    apply filter_In in Hin as [Hin Hm'].
    assert (e = e') by (apply (NoDup_map_eq node_of d); congruence).
    subst e'. congruence.
Qed.

(** The document the handler leaves: every trigger with its title fixed. *)
Lemma handler_document (p : page) :
  NoDup (map node_of (document p)) ->
  document (snd (handler p)) = map initialized (document p).
Proof.
  intros Hnd. rewrite handler_spec. cbn. rewrite fix_titles_map.
  apply map_ext_in. intros e He. unfold initialized, tooltip_nodes.
  rewrite (queried_matches _ _ e Hnd He). reflexivity.
Qed.

Lemma banner_page_well_formed : well_formed banner_page.
Proof.
  unfold well_formed, banner_page. cbn.
  split; [repeat constructor; cbn; intuition discriminate|].
  split; [intros e [<-|[<-|[<-|[<-|[<-|[]]]]]]; cbn; lia|].
  split; [constructor|]. repeat split; intros ? [].
Qed.

(** X9: the handler schedules, builds and fixes titles, and nothing else:
    the document keeps its elements in their order, every tooltip trigger
    with its title fixed and every other element as it was, so that both
    element sets are those queried; the clock, the log of the timers run,
    the closing alerts and the flags are as they were; as many timers are
    added as there are alerts and as many tooltip objects as there are
    triggers, and nothing when there is none. *)
Theorem handler_frame (p : page) :
  well_formed p ->
  document (snd (handler p)) = map initialized (document p)
  /\ map node_of (document (snd (handler p))) = map node_of (document p)
  /\ alert_nodes (document (snd (handler p))) = alert_nodes (document p)
  /\ tooltip_nodes (document (snd (handler p))) = tooltip_nodes (document p)
  /\ clock (snd (handler p)) = clock p
  /\ fired (snd (handler p)) = fired p
  /\ closing (snd (handler p)) = closing p
  /\ next_node (snd (handler p)) = next_node p
  /\ registered (snd (handler p)) = registered p
  /\ loaded (snd (handler p)) = loaded p
  /\ List.length (timers (snd (handler p)))
     = (List.length (timers p) + List.length (alert_nodes (document p)))%nat
  /\ List.length (tooltips (snd (handler p)))
     = (List.length (tooltips p) + List.length (tooltip_nodes (document p)))%nat
  /\ (alert_nodes (document p) = [] -> timers (snd (handler p)) = timers p)
  /\ (tooltip_nodes (document p) = [] ->
      tooltips (snd (handler p)) = tooltips p
      /\ document (snd (handler p)) = document p).
Proof.
  intros (Hnd & _).
  split; [apply handler_document, Hnd|].
  rewrite handler_spec. cbn.
  split.
  { rewrite fix_titles_map, map_map. apply map_ext. intros e.
    destruct (existsb _ _); [apply fixTitle_fields|reflexivity]. }
  split; [apply alert_nodes_fix_titles|].
  split; [apply tooltip_nodes_fix_titles|].
  repeat (split; [reflexivity|]).
  split; [rewrite length_app, length_scheduled; reflexivity|].
  split; [rewrite length_app, length_built; reflexivity|].
  split; [intros ->; apply List.app_nil_r|].
  intros ->. split; [apply List.app_nil_r|reflexivity].
Qed.

Lemma handler_frame_witness :
  document (snd (handler banner_page)) = map initialized (document banner_page)
  /\ map node_of (document (snd (handler banner_page)))
     = map node_of (document banner_page)
  /\ alert_nodes (document (snd (handler banner_page)))
     = alert_nodes (document banner_page)
  /\ tooltip_nodes (document (snd (handler banner_page)))
     = tooltip_nodes (document banner_page)
  /\ clock (snd (handler banner_page)) = clock banner_page
  /\ fired (snd (handler banner_page)) = fired banner_page
  /\ closing (snd (handler banner_page)) = closing banner_page
  /\ next_node (snd (handler banner_page)) = next_node banner_page
  /\ registered (snd (handler banner_page)) = registered banner_page
  /\ loaded (snd (handler banner_page)) = loaded banner_page
  /\ List.length (timers (snd (handler banner_page)))
     = (List.length (timers banner_page)
        + List.length (alert_nodes (document banner_page)))%nat
  /\ List.length (tooltips (snd (handler banner_page)))
     = (List.length (tooltips banner_page)
        + List.length (tooltip_nodes (document banner_page)))%nat
  /\ (alert_nodes (document banner_page) = [] ->
      timers (snd (handler banner_page)) = timers banner_page)
  /\ (tooltip_nodes (document banner_page) = [] ->
      tooltips (snd (handler banner_page)) = tooltips banner_page
      /\ document (snd (handler banner_page)) = document banner_page).
Proof.
  exact (handler_frame banner_page banner_page_well_formed).
Defined.

(** X11: a tooltip trigger that has a title loses it when the handler has
    run: the title is kept under [data-bs-original-title], and it becomes
    the [aria-label] of a trigger that has no label and no text; the
    classes and the marker stay.  A trigger without a title, and an element
    that is no trigger, are left as they were. *)
Theorem tooltip_titles (p : page) (e : element) :
  well_formed p -> In e (document p) ->
  (forall title,
     matches (ByAttribute "data-bs-toggle" "tooltip") e = true ->
     getAttribute "title" e = Some title -> title <> "" ->
     exists e',
       In e' (document (snd (handler p)))
       /\ node_of e' = node_of e /\ classes e' = classes e
       /\ getAttribute "title" e' = None
       /\ getAttribute "data-bs-original-title" e' = Some title
       /\ getAttribute "aria-label" e'
          = (if negb (truthy (getAttribute "aria-label" e))
                && (len (TrimStart (textContent e)) =? 0)
             then Some title else getAttribute "aria-label" e)
       /\ getAttribute "data-bs-toggle" e' = Some "tooltip")
  /\ (matches (ByAttribute "data-bs-toggle" "tooltip") e = false
      \/ truthy (getAttribute "title" e) = false ->
      In e (document (snd (handler p)))).
Proof.
  intros (Hnd & _) He. rewrite (handler_document p Hnd). split.
  - intros title Hm Ht Hne. exists (fixTitle e).
    split. { apply in_map_iff. exists e. unfold initialized. rewrite Hm. auto. }
    destruct (fixTitle_fields e) as (Hn & _ & Hc & _).
    split; [exact Hn|]. split; [exact Hc|].
    assert (Htoggle : getAttribute "data-bs-toggle" (fixTitle e) = Some "tooltip").
    { rewrite getAttribute_fixTitle by reflexivity.
      cbn [matches] in Hm. destruct (getAttribute "data-bs-toggle" e) as [v|];
        [|discriminate]. apply String.eqb_eq in Hm. congruence. }
    unfold fixTitle in *. rewrite Ht in *.
    destruct title as [|c r]; [contradiction|].
    split; [apply getAttribute_remove_same|].
    split.
    { rewrite getAttribute_remove_other by reflexivity.
      apply getAttribute_set_same. }
    split; [|exact Htoggle].
    rewrite getAttribute_remove_other, getAttribute_set_other by reflexivity.
    destruct (negb _ && _); [apply getAttribute_set_same|reflexivity].
  - intros H. apply in_map_iff. exists e. split; [|exact He].
    unfold initialized. destruct H as [-> | H]; [reflexivity|].
    destruct (matches _ e); [|reflexivity]. unfold fixTitle.
    destruct (getAttribute "title" e) as [[|c r]|]; try reflexivity.
    discriminate H.
Qed.

Lemma tooltip_titles_witness :
  (forall title,
     matches (ByAttribute "data-bs-toggle" "tooltip")
       {| node_of := 1%nat; parent := None; classes := ["btn"];
          attributes := [("data-bs-toggle", "tooltip"); ("title", "Book")];
          textContent := "" |} = true ->
     getAttribute "title"
       {| node_of := 1%nat; parent := None; classes := ["btn"];
          attributes := [("data-bs-toggle", "tooltip"); ("title", "Book")];
          textContent := "" |} = Some title ->
     title <> "" ->
     exists e',
       In e' (document (snd (handler sample_page)))
       /\ node_of e' = 1%nat /\ classes e' = ["btn"]
       /\ getAttribute "title" e' = None
       /\ getAttribute "data-bs-original-title" e' = Some title
       /\ getAttribute "aria-label" e' = Some title
       /\ getAttribute "data-bs-toggle" e' = Some "tooltip")
  /\ (matches (ByAttribute "data-bs-toggle" "tooltip")
        {| node_of := 1%nat; parent := None; classes := ["btn"];
           attributes := [("data-bs-toggle", "tooltip"); ("title", "Book")];
           textContent := "" |} = false
      \/ truthy (getAttribute "title"
                   {| node_of := 1%nat; parent := None; classes := ["btn"];
                      attributes := [("data-bs-toggle", "tooltip");
                                     ("title", "Book")];
                      textContent := "" |}) = false ->
      In {| node_of := 1%nat; parent := None; classes := ["btn"];
            attributes := [("data-bs-toggle", "tooltip"); ("title", "Book")];
            textContent := "" |} (document (snd (handler sample_page)))).
Proof.
  apply (tooltip_titles sample_page
           {| node_of := 1%nat; parent := None; classes := ["btn"];
              attributes := [("data-bs-toggle", "tooltip"); ("title", "Book")];
              textContent := "" |}).
  - exact sample_page_well_formed.
  - cbn. auto.
Defined.

Lemma handler_fields (p : page) :
  timers (snd (handler p))
  = (timers p ++ scheduled (next_timer p) (clock p + 5000)
                   (alert_nodes (document p)))%list
  /\ tooltips (snd (handler p))
     = (tooltips p ++ built (next_handle p) (tooltip_nodes (document p)))%list
  /\ next_timer (snd (handler p))
     = (next_timer p + List.length (alert_nodes (document p)))%nat
  /\ next_handle (snd (handler p))
     = (next_handle p + List.length (tooltip_nodes (document p)))%nat
  /\ clock (snd (handler p)) = clock p
  /\ alert_nodes (document (snd (handler p))) = alert_nodes (document p)
  /\ tooltip_nodes (document (snd (handler p))) = tooltip_nodes (document p).
Proof.
  rewrite handler_spec.
  cbn [snd timers tooltips next_timer next_handle clock document
       with_next_handle with_tooltips with_document with_next_timer
       with_timers].
  rewrite alert_nodes_fix_titles, tooltip_nodes_fix_titles. repeat split.
Qed.

(** X13: when the script runs on a page that is loaded already, the
    listener is never called: along every run of the event loop no tooltip
    object is built and no timer is scheduled (the timers scheduled or run
    stay those there were). *)
Theorem late_script_does_nothing (p q : page) (evs : list event) :
  loaded p = true ->
  NoDup (map timer_id (timers p)) ->
  run evs (snd (main p)) = Some q ->
  tooltips q = tooltips p
  /\ next_handle q = next_handle p
  /\ next_timer q = next_timer p
  /\ Permutation (timers q ++ map snd (fired q))%list
                 (timers p ++ map snd (fired p))%list.
Proof.
  intros Hl Hnd Hrun.
  destruct (run_evolves evs (snd (main p)) q Hl Hnd Hrun)
    as (_ & H1 & H2 & H3 & _ & _ & H4 & _).
  auto.
Qed.

Lemma late_script_does_nothing_witness :
  tooltips (with_clock 9000 (snd (main (with_loaded true sample_page))))
  = tooltips (with_loaded true sample_page)
  /\ next_handle (with_clock 9000 (snd (main (with_loaded true sample_page))))
     = next_handle (with_loaded true sample_page)
  /\ next_timer (with_clock 9000 (snd (main (with_loaded true sample_page))))
     = next_timer (with_loaded true sample_page)
  /\ Permutation
       (timers (with_clock 9000 (snd (main (with_loaded true sample_page))))
        ++ map snd
             (fired (with_clock 9000
                       (snd (main (with_loaded true sample_page))))))%list
       (timers (with_loaded true sample_page)
        ++ map snd (fired (with_loaded true sample_page)))%list.
Proof.
  apply (late_script_does_nothing (with_loaded true sample_page)
           (with_clock 9000 (snd (main (with_loaded true sample_page))))
           [Tick 9000]).
  - reflexivity.
  - constructor.
  - vm_compute. reflexivity.
Defined.

(** X14: the handler is not idempotent: run twice on one page, as when the
    script is included twice, it leaves two timers for each alert and two
    tooltip objects for each trigger. *)
Theorem handler_twice (p : page) (n : node) :
  well_formed p ->
  (In n (alert_nodes (document p)) ->
   List.length
     (pending n (next_timer p) (snd (handler (snd (handler p))))) = 2%nat)
  /\ (In n (tooltip_nodes (document p)) ->
      List.length
        (tooltips_of n (next_handle p) (snd (handler (snd (handler p)))))
      = 2%nat).
Proof.
  intros Hwf.
  pose proof Hwf as (_ & _ & _ & Hlt & _ & Hh).
  pose proof (alert_nodes_NoDup p Hwf) as Hnda.
  pose proof (tooltip_nodes_NoDup p Hwf) as Hndt.
  destruct (handler_fields p) as (T1 & O1 & NT1 & NH1 & C1 & A1 & TT1).
  destruct (handler_fields (snd (handler p))) as (T2 & O2 & _).
  unfold pending, tooltips_of.
  rewrite T2, O2, T1, O1, NT1, NH1, C1, A1, TT1.
  split; intros Hin.
  - rewrite !filter_app, !length_app.
    rewrite (old_timers_none n _ (timers p) Hlt).
    destruct (scheduled_one (next_timer p) (next_timer p) (clock p + 5000)
                (alert_nodes (document p)) n (Nat.le_refl _) Hnda) as [H1 _].
    destruct (H1 Hin) as (t1 & -> & _).
    destruct (scheduled_one (next_timer p)
                (next_timer p + List.length (alert_nodes (document p)))
                (clock p + 5000)
                (alert_nodes (document p)) n ltac:(lia) Hnda) as [H2 _].
    destruct (H2 Hin) as (t2 & -> & _). reflexivity.
  - rewrite !filter_app, !length_app.
    rewrite (filter_nil (binds n (next_handle p)) (tooltips p)).
    2:{ intros o Ho. unfold binds.
        replace (next_handle p <=? handle o)%nat with false
          by (symmetry; apply Nat.leb_gt, Hh, Ho).
        apply andb_false_r. }
    destruct (built_one (next_handle p) (next_handle p)
                (tooltip_nodes (document p)) n (Nat.le_refl _) Hndt) as [H1 _].
    destruct (H1 Hin) as (o1 & -> & _).
    destruct (built_one (next_handle p)
                (next_handle p + List.length (tooltip_nodes (document p)))
                (tooltip_nodes (document p)) n ltac:(lia) Hndt) as [H2 _].
    destruct (H2 Hin) as (o2 & -> & _). reflexivity.
Qed.

Lemma handler_twice_witness :
  (In 2%nat (alert_nodes (document sample_page)) ->
   List.length
     (pending 2%nat (next_timer sample_page)
        (snd (handler (snd (handler sample_page))))) = 2%nat)
  /\ (In 2%nat (tooltip_nodes (document sample_page)) ->
      List.length
        (tooltips_of 2%nat (next_handle sample_page)
           (snd (handler (snd (handler sample_page)))))
      = 2%nat).
Proof.
  exact (handler_twice sample_page 2%nat sample_page_well_formed).
Defined.

Lemma step_clock_log (ev : event) (q q' : page) :
  loaded q = true -> step ev q = Some q' ->
  clock q <= clock q'
  /\ forall r, In r (fired q') -> In r (fired q) \/ fst r <= clock q'.
Proof.
  intros Hl Hstep.
  destruct ev as [|dt|id|m|e position|n|e]; cbn [step] in Hstep.
  - rewrite Hl in Hstep. discriminate.
  - destruct (Z.leb_spec 0 dt); [|discriminate]. injection Hstep as <-.
    cbn. split; [lia|auto].
  - destruct (find (has_id id) (timers q)) as [t|]; [|discriminate].
    destruct (due t <=? clock q); [|discriminate].
    injection Hstep as <-. destruct (action t) as [a]. cbn [run_callback].
    match goal with
    | |- context [snd (close_Alert ?a ?p)] =>
        destruct (close_Alert_fields a p) as (_ & Hf & _ & _ & _ & _ & Hc & _)
    end.
    rewrite Hf, Hc. cbn.
    split; [lia|]. intros r Hr.
    apply in_app_or in Hr as [Hr|[<-|[]]]; [left; exact Hr|right; cbn; lia].
  - destruct (existsb (Nat.eqb m) (closing q)); [|discriminate].
    injection Hstep as <-. cbn. split; [lia|auto].
  - destruct (Nat.eqb (node_of e) (next_node q)); [|discriminate].
    injection Hstep as <-. cbn. split; [lia|auto].
  - injection Hstep as <-. cbn. split; [lia|auto].
  - injection Hstep as <-. cbn. split; [lia|auto].
Qed.

Lemma run_clock_log (evs : list event) (q q' : page) :
  loaded q = true -> NoDup (map timer_id (timers q)) ->
  run evs q = Some q' ->
  clock q <= clock q'
  /\ forall r, In r (fired q') -> In r (fired q) \/ fst r <= clock q'.
Proof.
  revert q; induction evs as [|ev evs IH]; intros q Hl Hnd Hrun; cbn [run] in Hrun.
  - injection Hrun as <-. split; [lia|auto].
  - destruct (step ev q) as [q1|] eqn:Hstep; [|discriminate].
    destruct (step_evolves ev q q1 Hl Hnd Hstep) as (A1 & _ & _ & _ & _ & A6 & _).
    destruct (step_clock_log ev q q1 Hl Hstep) as [Hc1 Hlog1].
    destruct (IH q1 A1 A6 Hrun) as [Hc2 Hlog2].
    split; [lia|]. intros r Hr.
    destruct (Hlog2 r Hr) as [H|H]; [|right; exact H].
    destruct (Hlog1 r H) as [H'|H']; [left; exact H'|right; lia].
Qed.

Lemma dismisses_inv (n : node) (from : nat) (t : timer) :
  dismisses n from t = true ->
  action t = dismiss n /\ (from <= timer_id t)%nat.
Proof.
  unfold dismisses. destruct (action t) as [a]. intros H.
  apply andb_true_iff in H as [H1 H2].
  apply Nat.eqb_eq in H1. apply Nat.leb_le in H2. subst a. auto.
Qed.

(** X12: as long as fewer than 5000 ms have passed since the load, no
    timer of the handler has been run, and the timer of every alert is
    still scheduled. *)
Theorem no_dismissal_before_delay (p p' q : page) (evs : list event) :
  well_formed p -> registered p = true ->
  step Load p = Some p' ->
  run evs p' = Some q ->
  clock q < clock p + 5000 ->
  (forall n, dismissals n (next_timer p) q = [])
  /\ (forall n, In n (alert_nodes (document p)) ->
        List.length (pending n (next_timer p) q) = 1%nat).
Proof.
  intros Hwf Hreg Hstep Hrun Hclock.
  pose proof (load_timers_NoDup p p' Hwf Hreg Hstep) as Hnd.
  destruct (load_fields p p' Hreg Hstep) as (_ & Hf & _ & Hl & _).
  destruct (run_evolves evs p' q Hl Hnd Hrun)
    as (_ & _ & _ & _ & _ & _ & _ & Hlate).
  destruct (run_clock_log evs p' q Hl Hnd Hrun) as [_ Hlog].
  pose proof Hwf as (_ & _ & _ & _ & Hfl & _).
  assert (Hnone : forall n, dismissals n (next_timer p) q = []).
  { intros n. apply filter_nil. intros r Hr.
    destruct (dismisses n (next_timer p) (snd r)) eqn:E; [|reflexivity].
    exfalso. apply dismisses_inv in E as [Hact Hid].
    assert (Hs : In (snd r) (scheduled (next_timer p) (clock p + 5000)
                               (alert_nodes (document p)))).
    { apply (run_new_timer p p' q evs (snd r) Hwf Hreg Hstep Hrun); [|exact Hid].
      apply in_or_app. right. apply in_map, Hr. }
    destruct (in_scheduled _ _ _ _ Hs) as (_ & Hdue & _).
    destruct (Hlate r Hr) as [Hold|Hle];
      [rewrite Hf in Hold; specialize (Hfl r Hold); lia|].
    destruct (Hlog r Hr) as [Hold|Hle'];
      [rewrite Hf in Hold; specialize (Hfl r Hold); lia|].
    lia. }
  split; [exact Hnone|]. intros n Hin.
  pose proof (run_dismiss_count p p' q evs n Hwf Hreg Hstep Hrun) as Hcount.
  rewrite (Hnone n) in Hcount. cbn [List.length] in Hcount.
  destruct (scheduled_one (next_timer p) (next_timer p) (clock p + 5000)
              (alert_nodes (document p)) n (Nat.le_refl _)
              (alert_nodes_NoDup p Hwf)) as [Hone _].
  destruct (Hone Hin) as (t & Ht & _). rewrite Ht in Hcount.
  cbn [List.length] in Hcount. lia.
Qed.

Lemma no_dismissal_before_delay_witness :
  (forall n, dismissals n (next_timer sample_page)
               (with_clock 4999 sample_loaded) = [])
  /\ (forall n, In n (alert_nodes (document sample_page)) ->
        List.length (pending n (next_timer sample_page)
                       (with_clock 4999 sample_loaded)) = 1%nat).
Proof.
  apply (no_dismissal_before_delay sample_page sample_loaded
           (with_clock 4999 sample_loaded) [Tick 4999]).
  - exact sample_page_well_formed.
  - reflexivity.
  - vm_compute. reflexivity.
  - vm_compute. reflexivity.
  - vm_compute. reflexivity.
Defined.

(** *** Closing an alert *)

Lemma find_element_update (n m : node) (f : element -> element)
  (d : list element) :
  (forall e, node_of (f e) = node_of e) ->
  find_element m (update_element n f d)
  = option_map (fun e => if Nat.eqb (node_of e) n then f e else e)
               (find_element m d).
Proof.
  intros Hf. unfold find_element, update_element.
  induction d as [|a d IH]; [reflexivity|]. cbn [map find].
  destruct (Nat.eqb (node_of a) n) eqn:E; rewrite ?Hf;
    (destruct (Nat.eqb (node_of a) m); [cbn [option_map]; rewrite E; reflexivity
                                       |exact IH]).
Qed.

Lemma inside_update (fuel : nat) (n : node) (f : element -> element)
  (d : list element) (root m : node) :
  (forall e, node_of (f e) = node_of e) ->
  (forall e, parent (f e) = parent e) ->
  inside fuel (update_element n f d) root m = inside fuel d root m.
Proof.
  intros Hf Hp. revert m; induction fuel as [|fuel IH]; intros m;
    cbn [inside]; [reflexivity|].
  rewrite (find_element_update n m f d Hf).
  destruct (find_element m d) as [e|]; cbn [option_map]; [|reflexivity].
  destruct (Nat.eqb (node_of e) n); rewrite ?Hp;
    (destruct (parent e); [rewrite IH|]; reflexivity).
Qed.

Lemma in_detach (root : node) (d : list element) (e : element) :
  In e (detach root d)
  <-> In e d /\ inside (List.length d) d root (node_of e) = false.
Proof.
  unfold detach. rewrite filter_In, negb_true_iff. reflexivity.
Qed.

Lemma inside_root (fuel : nat) (d : list element) (root : node) :
  inside fuel d root root = true.
Proof. destruct fuel; cbn [inside]; rewrite Nat.eqb_refl; reflexivity. Qed.

Lemma inside_false_ne (fuel : nat) (d : list element) (root m : node) :
  inside fuel d root m = false -> m <> root.
Proof.
  destruct fuel; cbn [inside]; intros H; apply orb_false_iff in H as [H _];
    apply Nat.eqb_neq, H.
Qed.

Lemma detach_root_out (root : node) (d : list element) :
  ~ In root (map node_of (detach root d)).
Proof.
  intros H. apply in_map_iff in H as (e & He & Hin).
  apply in_detach in Hin as [_ Hin]. rewrite He, inside_root in Hin.
  discriminate.
Qed.

Lemma find_element_NoDup (d : list element) (c : element) :
  NoDup (map node_of d) -> In c d -> find_element (node_of c) d = Some c.
Proof.
  unfold find_element.
  induction d as [|a d IH]; intros Hnd Hin; [destruct Hin|].
  cbn [map] in Hnd. inversion Hnd as [|? ? Hnotin Hnd']; subst.
  cbn [find]. destruct Hin as [-> | Hin]; [rewrite Nat.eqb_refl; reflexivity|].
  destruct (Nat.eqb_spec (node_of a) (node_of c)) as [E|]; [|apply IH; assumption].
  exfalso. apply Hnotin. rewrite E. apply in_map, Hin.
Qed.

Lemma find_element_none (n : node) (d : list element) :
  find_element n d = None <-> ~ In n (map node_of d).
Proof.
  unfold find_element. split.
  - intros H Hin. apply in_map_iff in Hin as (e & He & Hin).
    pose proof (find_none _ _ H e Hin) as Hne. cbn in Hne.
    rewrite He, Nat.eqb_refl in Hne. discriminate.
  - intros H. destruct (find _ d) as [e|] eqn:E; [|reflexivity].
    apply find_some in E as [Hin He]. apply Nat.eqb_eq in He.
    exfalso. apply H. rewrite <- He. apply in_map, Hin.
Qed.

Lemma inside_child (d : list element) (root : node) (c : element) :
  NoDup (map node_of d) -> In c d -> parent c = Some root ->
  inside (List.length d) d root (node_of c) = true.
Proof.
  intros Hnd Hin Hp. destruct d as [|a d]; [destruct Hin|].
  cbn [List.length inside].
  rewrite (find_element_NoDup (a :: d) c Hnd Hin), Hp, inside_root.
  apply orb_true_r.
Qed.

Lemma in_update_other (n : node) (f : element -> element)
  (d : list element) (e : element) :
  (forall x, node_of (f x) = node_of x) -> node_of e <> n ->
  (In e (update_element n f d) <-> In e d).
Proof.
  intros Hf Hne. unfold update_element. rewrite in_map_iff. split.
  - intros (x & Hx & Hin). destruct (Nat.eqb_spec (node_of x) n) as [E|];
      [|subst; exact Hin].
    exfalso. apply Hne. rewrite <- Hx, Hf. exact E.
  - intros Hin. exists e. split; [|exact Hin].
    destruct (Nat.eqb_spec (node_of e) n); [contradiction|reflexivity].
Qed.

Lemma in_update_same (n : node) (f : element -> element)
  (d : list element) (e : element) :
  (forall x, node_of (f x) = node_of x) -> node_of e = n ->
  In e (update_element n f d) -> exists x, In x d /\ e = f x.
Proof.
  intros Hf He Hin. unfold update_element in Hin.
  apply in_map_iff in Hin as (x & Hx & Hin).
  destruct (Nat.eqb_spec (node_of x) n) as [E|E]; [exists x; auto|].
  subst e. contradiction.
Qed.

Lemma classList_remove_contains (name : string) (e : element) :
  classList_contains name (classList_remove name e) = false.
Proof.
  unfold classList_contains, classList_remove. cbn [classes].
  induction (classes e) as [|c l IH]; [reflexivity|]. cbn [filter].
  destruct (String.eqb name c) eqn:E; cbn [negb existsb]; [exact IH|].
  rewrite E. exact IH.
Qed.

(** What the library's [close] leaves of the document. *)
Lemma close_Alert_document (n : node) (p : page) :
  match find_element n (document p) with
  | None =>
      document (snd (close_Alert n p)) = document p
      /\ closing (snd (close_Alert n p)) = closing p
  | Some e =>
      if classList_contains "fade" e then
        document (snd (close_Alert n p))
        = update_element n (classList_remove "show") (document p)
        /\ closing (snd (close_Alert n p)) = (closing p ++ [n])%list
      else
        document (snd (close_Alert n p))
        = detach n (update_element n (classList_remove "show") (document p))
        /\ closing (snd (close_Alert n p)) = closing p
  end.
Proof.
  unfold close_Alert. destruct (find_element n (document p)) as [e|]; [|auto].
  destruct (classList_contains "fade" e); cbn; auto.
Qed.

(** The part of the document that [close] and the end of the transition
    leave: what is not [n] and not below it, unchanged. *)
Lemma in_detach_closed (n : node) (d : list element) (e : element) :
  In e (detach n (update_element n (classList_remove "show") d))
  <-> In e d /\ inside (List.length d) d n (node_of e) = false.
Proof.
  rewrite in_detach. unfold update_element at 2. rewrite length_map.
  rewrite inside_update by reflexivity.
  split; intros [Hin Hout]; (split; [|exact Hout]);
    apply inside_false_ne in Hout as Hne;
    apply (in_update_other n (classList_remove "show") d e); auto.
Qed.

Lemma fire_spec (q : page) (id : nat) (t : timer) (n : node) :
  find (has_id id) (timers q) = Some t ->
  action t = dismiss n ->
  due t <= clock q ->
  step (Fire id) q
  = Some (snd (close_Alert n
                 (with_fired (fired q ++ [(clock q, t)])
                    (with_timers
                       (filter (fun t' => negb (has_id id t')) (timers q))
                       q)))).
Proof.
  intros Hfind Hact Hdue. cbn [step]. rewrite Hfind.
  replace (due t <=? clock q) with true by (symmetry; apply Z.leb_le; exact Hdue).
  rewrite Hact. reflexivity.
Qed.

(** X10: running a timer of the handler on an alert that does not fade
    takes the alert out of the document at once, with all it holds: its
    children leave with it, and what stays is what is neither the alert nor
    below it, unchanged.  Nothing of the document changes when the alert
    has left it already.  The tooltip objects are left alone. *)
Theorem dismiss_removes (q : page) (id : nat) (t : timer) (n : node) :
  NoDup (map node_of (document q)) ->
  find (has_id id) (timers q) = Some t ->
  action t = dismiss n ->
  due t <= clock q ->
  exists q',
    step (Fire id) q = Some q'
    /\ tooltips q' = tooltips q
    /\ fired q' = (fired q ++ [(clock q, t)])%list
    /\ (~ In n (map node_of (document q)) ->
        document q' = document q /\ closing q' = closing q)
    /\ (forall e,
          find_element n (document q) = Some e ->
          classList_contains "fade" e = false ->
          ~ In n (map node_of (document q'))
          /\ (forall c, In c (document q) -> parent c = Some n ->
                ~ In (node_of c) (map node_of (document q')))
          /\ (forall e', In e' (document q')
                <-> In e' (document q)
                    /\ inside (List.length (document q)) (document q) n
                         (node_of e') = false)
          /\ closing q' = closing q).
Proof.
  intros Hnd Hfind Hact Hdue.
  eexists. split; [apply (fire_spec q id t n Hfind Hact Hdue)|].
  match goal with
  | |- context [snd (close_Alert ?a ?p)] =>
      destruct (close_Alert_fields a p) as (_ & Hf & Ht & _);
      pose proof (close_Alert_document a p) as Hdoc
  end.
  rewrite Hf, Ht. cbn [tooltips fired with_fired with_timers].
  split; [reflexivity|]. split; [reflexivity|].
  cbn [document closing with_fired with_timers] in Hdoc.
  split.
  - intros Hout. apply find_element_none in Hout. rewrite Hout in Hdoc.
    exact Hdoc.
  - intros e He Hfade. rewrite He, Hfade in Hdoc. destruct Hdoc as [Hd Hc].
    rewrite Hd, Hc.
    assert (Hiff : forall e',
              In e' (detach n (update_element n (classList_remove "show")
                                 (document q)))
              <-> In e' (document q)
                  /\ inside (List.length (document q)) (document q) n
                       (node_of e') = false)
      by (intros e'; apply in_detach_closed).
    split; [apply detach_root_out|]. split; [|split; [exact Hiff|reflexivity]].
    intros c Hc' Hp Hin. apply in_map_iff in Hin as (e' & He' & Hin).
    apply Hiff in Hin as [Hin Hout].
    assert (e' = c) by (apply (NoDup_map_eq node_of (document q)); auto).
    subst e'. rewrite (inside_child _ n c Hnd Hc' Hp) in Hout. discriminate.
Qed.

Lemma dismiss_removes_witness :
  exists q',
    step (Fire 1%nat) (with_clock 6000 banner_loaded) = Some q'
    /\ tooltips q' = tooltips (with_clock 6000 banner_loaded)
    /\ fired q'
       = (fired (with_clock 6000 banner_loaded)
          ++ [(clock (with_clock 6000 banner_loaded),
               {| timer_id := 1%nat; due := 5000; action := dismiss 2%nat |})])%list
    /\ (~ In 2%nat (map node_of (document (with_clock 6000 banner_loaded))) ->
        document q' = document (with_clock 6000 banner_loaded)
        /\ closing q' = closing (with_clock 6000 banner_loaded))
    /\ (forall e,
          find_element 2%nat (document (with_clock 6000 banner_loaded)) = Some e ->
          classList_contains "fade" e = false ->
          ~ In 2%nat (map node_of (document q'))
          /\ (forall c, In c (document (with_clock 6000 banner_loaded)) ->
                parent c = Some 2%nat ->
                ~ In (node_of c) (map node_of (document q')))
          /\ (forall e', In e' (document q')
                <-> In e' (document (with_clock 6000 banner_loaded))
                    /\ inside
                         (List.length (document (with_clock 6000 banner_loaded)))
                         (document (with_clock 6000 banner_loaded)) 2%nat
                         (node_of e') = false)
          /\ closing q' = closing (with_clock 6000 banner_loaded)).
Proof.
  apply (dismiss_removes (with_clock 6000 banner_loaded) 1%nat
           {| timer_id := 1%nat; due := 5000; action := dismiss 2%nat |} 2%nat).
  - vm_compute. repeat constructor; cbn; intuition discriminate.
  - vm_compute. reflexivity.
  - reflexivity.
  - vm_compute. discriminate.
Defined.

(** X16: running a timer of the handler on an alert that fades leaves the
    alert in the document, without the class [show], until its transition
    ends: no element leaves, no other element changes, and the alert is
    among those closing.  The end of the transition then takes it out with
    all it holds. *)
Theorem dismiss_fades (q : page) (id : nat) (t : timer) (n : node)
  (e : element) :
  find (has_id id) (timers q) = Some t ->
  action t = dismiss n ->
  due t <= clock q ->
  find_element n (document q) = Some e ->
  classList_contains "fade" e = true ->
  exists q' q'',
    step (Fire id) q = Some q'
    /\ map node_of (document q') = map node_of (document q)
    /\ (forall e', In e' (document q') -> node_of e' = n ->
          classList_contains "show" e' = false)
    /\ (forall e', node_of e' <> n ->
          (In e' (document q') <-> In e' (document q)))
    /\ closing q' = (closing q ++ [n])%list
    /\ step (TransitionEnd n) q' = Some q''
    /\ ~ In n (map node_of (document q''))
    /\ ~ In n (closing q'')
    /\ (forall e', In e' (document q'')
          <-> In e' (document q)
              /\ inside (List.length (document q)) (document q) n
                   (node_of e') = false).
Proof.
  intros Hfind Hact Hdue He Hfade.
  pose proof (fire_spec q id t n Hfind Hact Hdue) as Hfire.
  match type of Hfire with
  | _ = Some (snd (close_Alert ?a ?p0)) =>
      pose proof (close_Alert_document a p0) as Hdoc;
      set (q' := snd (close_Alert a p0)) in *
  end.
  cbn [document closing with_fired with_timers] in Hdoc.
  rewrite He, Hfade in Hdoc. destruct Hdoc as [Hd Hc]. clearbody q'.
  exists q', (with_closing (filter (fun m => negb (Nat.eqb m n)) (closing q'))
                (with_document (detach n (document q')) q')).
  split; [exact Hfire|].
  split; [rewrite Hd; apply map_node_of_update_element; reflexivity|].
  split.
  { intros e' Hin Hn. rewrite Hd in Hin.
    destruct (in_update_same n (classList_remove "show") _ e'
                (fun x => eq_refl) Hn Hin) as (x & _ & ->).
    apply classList_remove_contains. }
  split.
  { intros e' Hne. rewrite Hd. apply in_update_other; [reflexivity|exact Hne]. }
  split; [exact Hc|].
  split.
  { cbn [step]. rewrite Hc, existsb_app. cbn [existsb].
    rewrite Nat.eqb_refl, orb_true_r. reflexivity. }
  cbn [document closing with_closing with_document]. rewrite Hd.
  split; [apply detach_root_out|]. split.
  - intros Hin. apply filter_In in Hin as [_ Hin].
    rewrite Nat.eqb_refl in Hin. discriminate.
  - intros e'. apply in_detach_closed.
Qed.

Lemma dismiss_fades_witness :
  exists q' q'',
    step (Fire 0%nat) (with_clock 5000 banner_loaded) = Some q'
    /\ map node_of (document q')
       = map node_of (document (with_clock 5000 banner_loaded))
    /\ (forall e', In e' (document q') -> node_of e' = 0%nat ->
          classList_contains "show" e' = false)
    /\ (forall e', node_of e' <> 0%nat ->
          (In e' (document q')
           <-> In e' (document (with_clock 5000 banner_loaded))))
    /\ closing q' = (closing (with_clock 5000 banner_loaded) ++ [0%nat])%list
    /\ step (TransitionEnd 0%nat) q' = Some q''
    /\ ~ In 0%nat (map node_of (document q''))
    /\ ~ In 0%nat (closing q'')
    /\ (forall e', In e' (document q'')
          <-> In e' (document (with_clock 5000 banner_loaded))
              /\ inside (List.length (document (with_clock 5000 banner_loaded)))
                   (document (with_clock 5000 banner_loaded)) 0%nat
                   (node_of e') = false).
Proof.
  apply (dismiss_fades (with_clock 5000 banner_loaded) 0%nat
           {| timer_id := 0%nat; due := 5000; action := dismiss 0%nat |} 0%nat
           {| node_of := 0%nat; parent := None;
              classes := ["alert"; "alert-info"; "fade"; "show"];
              attributes := [("role", "alert")]; textContent := "Saved" |}).
  - vm_compute. reflexivity.
  - reflexivity.
  - vm_compute. discriminate.
  - vm_compute. reflexivity.
  - reflexivity.
Defined.

Lemma find_by_id (l : list timer) (t : timer) :
  NoDup (map timer_id l) -> In t l -> find (has_id (timer_id t)) l = Some t.
Proof.
  induction l as [|a l IH]; intros Hnd Hin; [destruct Hin|].
  cbn [map] in Hnd. inversion Hnd as [|? ? Hnotin Hnd']; subst.
  cbn [find]. unfold has_id at 1.
  destruct Hin as [-> | Hin]; [rewrite Nat.eqb_refl; reflexivity|].
  destruct (Nat.eqb_spec (timer_id a) (timer_id t)) as [E|]; [|apply IH; assumption].
  exfalso. apply Hnotin. rewrite E. apply in_map, Hin.
Qed.

Lemma run_snoc (evs : list event) (ev : event) (q q1 q2 : page) :
  run evs q = Some q1 -> step ev q1 = Some q2 ->
  run (evs ++ [ev]) q = Some q2.
Proof.
  revert q; induction evs as [|e evs IH]; intros q Hrun Hstep; cbn [run app] in *.
  - injection Hrun as ->. rewrite Hstep. reflexivity.
  - destruct (step e q) as [q'|]; [|discriminate]. apply IH; assumption.
Qed.

(** X15: once 5000 ms have passed since the load, a timer of the handler
    that is still scheduled can be run; running it leaves no timer
    scheduled for its alert and one dismissal of it in the log.  The alert
    is then out of the document, or it is closing: in that case the end of
    its transition can take place, and takes it out. *)
Theorem due_timer_runs
  (p p' q : page) (evs : list event) (n : node) (t : timer) :
  well_formed p -> registered p = true ->
  step Load p = Some p' ->
  run evs p' = Some q ->
  In t (pending n (next_timer p) q) ->
  clock p + 5000 <= clock q ->
  exists q',
    step (Fire (timer_id t)) q = Some q'
    /\ pending n (next_timer p) q' = []
    /\ List.length (dismissals n (next_timer p) q') = 1%nat
    /\ (~ In n (map node_of (document q'))
        \/ (In n (closing q')
            /\ exists q'',
                 step (TransitionEnd n) q' = Some q''
                 /\ ~ In n (map node_of (document q''))
                 /\ pending n (next_timer p) q'' = []
                 /\ List.length (dismissals n (next_timer p) q'') = 1%nat)).
Proof.
  intros Hwf Hreg Hstep Hrun Hpend Hclock.
  pose proof (load_timers_NoDup p p' Hwf Hreg Hstep) as Hnd.
  destruct (load_fields p p' Hreg Hstep) as (_ & _ & _ & Hl & _).
  destruct (run_evolves evs p' q Hl Hnd Hrun)
    as (_ & _ & _ & _ & _ & Hndq & _ & _).
  unfold pending in Hpend. apply filter_In in Hpend as [Hin Hdis].
  apply dismisses_inv in Hdis as [Hact Hid].
  assert (Hs : In t (scheduled (next_timer p) (clock p + 5000)
                       (alert_nodes (document p)))).
  { apply (run_new_timer p p' q evs t Hwf Hreg Hstep Hrun); [|exact Hid].
    apply in_or_app. left. exact Hin. }
  destruct (in_scheduled _ _ _ _ Hs) as ((m & Hm & Ha) & Hdue & _).
  rewrite Hact in Ha. injection Ha as <-.
  pose proof (fire_spec q (timer_id t) t n (find_by_id (timers q) t Hndq Hin)
                Hact ltac:(lia)) as Hfire.
  match type of Hfire with
  | _ = Some (snd (close_Alert ?a ?p0)) =>
      destruct (close_Alert_fields a p0) as (Htq & Hfq & _);
      pose proof (close_Alert_document a p0) as Hdoc;
      set (q' := snd (close_Alert a p0)) in *
  end.
  cbn [timers fired document closing with_fired with_timers] in Htq, Hfq, Hdoc.
  clearbody q'.
  exists q'. split; [exact Hfire|].
  pose proof (run_snoc evs _ p' q q' Hrun Hfire) as Hrun'.
  pose proof (run_dismiss_count p p' q' _ n Hwf Hreg Hstep Hrun') as Hcount.
  destruct (scheduled_one (next_timer p) (next_timer p) (clock p + 5000)
              (alert_nodes (document p)) n (Nat.le_refl _)
              (alert_nodes_NoDup p Hwf)) as [Hone _].
  destruct (Hone Hm) as (t1 & Ht1 & _). rewrite Ht1 in Hcount.
  cbn [List.length] in Hcount.
  assert (Hlen : (1 <= List.length (dismissals n (next_timer p) q'))%nat).
  { unfold dismissals. rewrite Hfq, filter_app, length_app. cbn [filter snd].
    unfold dismisses at 2. rewrite Hact, Nat.eqb_refl.
    replace (next_timer p <=? timer_id t)%nat with true
      by (symmetry; apply Nat.leb_le; exact Hid).
    cbn [andb List.length]. lia. }
  assert (Hp0 : pending n (next_timer p) q' = [])
    by (apply length_zero_iff_nil; lia).
  assert (Hd1 : List.length (dismissals n (next_timer p) q') = 1%nat) by lia.
  split; [exact Hp0|]. split; [exact Hd1|].
  destruct (find_element n (document q)) as [e|] eqn:He.
  - destruct (classList_contains "fade" e).
    + right. destruct Hdoc as [Hd Hc]. split.
      { rewrite Hc. apply in_or_app. right. left. reflexivity. }
      eexists. split.
      { cbn [step]. rewrite Hc, existsb_app. cbn [existsb].
        rewrite Nat.eqb_refl, orb_true_r. reflexivity. }
      split; [apply detach_root_out|]. split; [exact Hp0|exact Hd1].
    + left. destruct Hdoc as [Hd _]. rewrite Hd. apply detach_root_out.
  - left. destruct Hdoc as [Hd _]. rewrite Hd.
    apply find_element_none, He.
Qed.

Lemma due_timer_runs_witness :
  exists q',
    step (Fire 0%nat) (with_clock 5000 banner_loaded) = Some q'
    /\ pending 0%nat (next_timer banner_page) q' = []
    /\ List.length (dismissals 0%nat (next_timer banner_page) q') = 1%nat
    /\ (~ In 0%nat (map node_of (document q'))
        \/ (In 0%nat (closing q')
            /\ exists q'',
                 step (TransitionEnd 0%nat) q' = Some q''
                 /\ ~ In 0%nat (map node_of (document q''))
                 /\ pending 0%nat (next_timer banner_page) q'' = []
                 /\ List.length (dismissals 0%nat (next_timer banner_page) q'')
                    = 1%nat)).
Proof.
  apply (due_timer_runs banner_page banner_loaded
           (with_clock 5000 banner_loaded) [Tick 5000] 0%nat
           {| timer_id := 0%nat; due := 5000; action := dismiss 0%nat |}).
  - exact banner_page_well_formed.
  - reflexivity.
  - vm_compute. reflexivity.
  - vm_compute. reflexivity.
  - vm_compute. auto.
  - vm_compute. discriminate.
Defined.

(** On the page with two banners: the fading one stays, without [show],
    when its timer has run, and leaves with its button when the transition
    ends; the other leaves with its link as soon as its timer runs. *)
Example banner_run :
  option_map (fun q => (map node_of (document q), closing q))
    (run [Tick 5000; Fire 0%nat] banner_loaded)
  = Some ([0%nat; 1%nat; 2%nat; 3%nat; 4%nat], [0%nat])
  /\ option_map (fun q => (map node_of (document q), closing q))
       (run [Tick 5000; Fire 0%nat; Fire 1%nat] banner_loaded)
     = Some ([0%nat; 1%nat; 4%nat], [0%nat])
  /\ option_map (fun q => (map node_of (document q), closing q))
       (run [Tick 5000; Fire 0%nat; Fire 1%nat; Tick 155; TransitionEnd 0%nat]
          banner_loaded)
     = Some ([4%nat], []).
Proof. vm_compute. repeat split. Qed.

(** ** The text of a Number read back *)

(** *** The rounding of a fraction *)

Lemma fexp_eq (z : Z) : fexp prec emax z = Z.max (z - 53) (-1074).
Proof. reflexivity. Qed.

Lemma new_location_spec (D r : Z) :
  0 < D -> 0 <= r < D -> new_location D r = location_of r D.
Proof.
  intros HD Hr. unfold new_location, location_of.
  destruct (Z.even D) eqn:E.
  - unfold new_location_even. reflexivity.
  - unfold new_location_odd. destruct (r =? 0); [reflexivity|]. f_equal.
    assert (Hodd : Z.odd D = true) by (rewrite <- Z.negb_even, E; reflexivity).
    apply Z.odd_spec in Hodd as [k Hk].
    destruct (Z.compare_spec (2 * r + 1) D) as [H|H|H];
      symmetry; [apply Z.compare_lt_iff|apply Z.compare_lt_iff
                |apply Z.compare_gt_iff]; lia.
Qed.

Lemma located_of_loc (A B : Z) :
  located A B (shr_record_of_loc (A / B) (location_of (A mod B) B)).
Proof.
  unfold located, location_of.
  destruct (A mod B =? 0); [split; reflexivity|].
  destruct (2 * (A mod B) ?= B); split; reflexivity.
Qed.

Lemma shr_1_located (A B : Z) (mrs : shr_record) :
  0 <= A -> 0 < B -> located A B mrs -> located A (2 * B) (shr_1 mrs).
Proof.
  intros HA HB [Hm Hl].
  pose proof (Z.div_mod A B ltac:(lia)) as Hdm.
  pose proof (Z.mod_pos_bound A B HB) as Hr.
  pose proof (Z.div_pos A B HA HB) as Hq.
  destruct mrs as [mm rr ss]. cbn [shr_m loc_of_shr_record] in Hm, Hl.
  set (m := A / B) in *. set (r := A mod B) in *.
  assert (Hs : orb rr ss = negb (r =? 0)).
  { unfold location_of in Hl.
    destruct rr, ss, (r =? 0); cbn in Hl |- *; try discriminate; reflexivity. }
  assert (Hcases :
    (exists k, m = 2 * k /\ 0 <= k
               /\ shr_1 {| shr_m := mm; shr_r := rr; shr_s := ss |}
                  = {| shr_m := k; shr_r := false; shr_s := orb rr ss |})
    \/ (exists k, m = 2 * k + 1 /\ 0 <= k
               /\ shr_1 {| shr_m := mm; shr_r := rr; shr_s := ss |}
                  = {| shr_m := k; shr_r := true; shr_s := orb rr ss |})).
  { rewrite Hm. destruct m as [|[p|p|]|p].
    - left. exists 0. split; [reflexivity|]. split; [lia|reflexivity].
    - right. exists (Z.pos p). cbn [shr_1]. split; [lia|]. split; [lia|reflexivity].
    - left. exists (Z.pos p). cbn [shr_1]. split; [lia|]. split; [lia|reflexivity].
    - right. exists 0. split; [reflexivity|]. split; [lia|reflexivity].
    - lia. }
  unfold located, location_of.
  destruct Hcases as [(k & Hk & Hk0 & ->) | (k & Hk & Hk0 & ->)];
    cbn [shr_m loc_of_shr_record]; rewrite Hs.
  - assert (Hdiv : A / (2 * B) = k)
      by (symmetry; apply (Z.div_unique A (2 * B) k r); lia).
    assert (Hmod : A mod (2 * B) = r)
      by (symmetry; apply (Z.mod_unique A (2 * B) k r); lia).
    rewrite Hdiv, Hmod. split; [reflexivity|].
    destruct (Z.eqb_spec r 0); cbn [negb]; [reflexivity|].
    f_equal. symmetry. apply Z.compare_lt_iff. lia.
  - assert (Hdiv : A / (2 * B) = k)
      by (symmetry; apply (Z.div_unique A (2 * B) k (B + r)); lia).
    assert (Hmod : A mod (2 * B) = B + r)
      by (symmetry; apply (Z.mod_unique A (2 * B) k (B + r)); lia).
    rewrite Hdiv, Hmod. split; [reflexivity|].
    replace (B + r =? 0) with false by (symmetry; apply Z.eqb_neq; lia).
    destruct (Z.eqb_spec r 0); cbn [negb]; f_equal; symmetry;
      [apply Z.compare_eq_iff|apply Z.compare_gt_iff]; lia.
Qed.

Lemma iter_pos_located (A B : Z) (p : positive) (mrs : shr_record) :
  0 <= A -> 0 < B -> located A B mrs ->
  located A (B * 2 ^ Z.pos p) (iter_pos shr_1 p mrs).
Proof.
  intros HA. revert B mrs; induction p as [p IH|p IH|]; intros B mrs HB H;
    cbn [iter_pos].
  - replace (B * 2 ^ Z.pos p~1) with (2 * B * 2 ^ Z.pos p * 2 ^ Z.pos p).
    2:{ replace (Z.pos p~1) with (Z.pos p + Z.pos p + 1) by lia.
        rewrite !Z.pow_add_r, Z.pow_1_r by lia. ring. }
    assert (0 < 2 ^ Z.pos p) by (apply Z.pow_pos_nonneg; lia).
    apply IH; [nia|]. apply IH; [lia|]. apply shr_1_located; assumption.
  - replace (B * 2 ^ Z.pos p~0) with (B * 2 ^ Z.pos p * 2 ^ Z.pos p).
    2:{ replace (Z.pos p~0) with (Z.pos p + Z.pos p) by lia.
        rewrite !Z.pow_add_r by lia. ring. }
    assert (0 < 2 ^ Z.pos p) by (apply Z.pow_pos_nonneg; lia).
    apply IH; [nia|]. apply IH; assumption.
  - rewrite Z.pow_1_r, Z.mul_comm. apply shr_1_located; assumption.
Qed.

Lemma shr_fexp_located (A B e1 E : Z) :
  0 <= A -> 0 < B -> e1 <= E ->
  fexp prec emax (Zdigits2 (A / B) + e1) = E ->
  exists mrs,
    shr_fexp prec emax (A / B) e1 (location_of (A mod B) B) = (mrs, E)
    /\ located A (B * 2 ^ (E - e1)) mrs.
Proof.
  intros HA HB Hle Hfexp. unfold shr_fexp. rewrite Hfexp. unfold shr.
  destruct (E - e1) as [|p|p] eqn:Hn; [| |lia].
  - eexists. split; [f_equal; lia|].
    rewrite Z.pow_0_r, Z.mul_1_r. apply located_of_loc.
  - eexists. split; [f_equal; lia|].
    apply iter_pos_located; [assumption..|]. apply located_of_loc.
Qed.

Lemma bounded_inv (m : positive) (e : Z) :
  bounded prec emax m e = true ->
  Z.pos (digits2_pos m) <= 53
  /\ -1074 <= e <= 971
  /\ fexp prec emax (Z.pos (digits2_pos m) + e) = e
  /\ (Z.pos (digits2_pos m) = 53 \/ e = -1074).
Proof.
  unfold bounded, canonical_mantissa. intros H.
  apply andb_true_iff in H as [H1 H2].
  apply Z.eqb_eq in H1. apply Z.leb_le in H2.
  change (emax - prec) with 971 in H2.
  split; [|split; [|split; [exact H1|]]]; rewrite fexp_eq in H1; lia.
Qed.

Lemma Zdigits2_le (q g : Z) : 0 <= q < 2 ^ g -> 0 <= g -> Zdigits2 q <= g.
Proof.
  intros [H0 Hq] Hg. destruct q as [|p|p]; [cbn; lia| |lia].
  cbn [Zdigits2]. destruct (digits2_pos_bounds p) as [Hlo _].
  assert (Z.pos (digits2_pos p) - 1 < g); [|lia].
  apply (Z.pow_lt_mono_r_iff 2); lia.
Qed.

Lemma Zdigits2_ge (q g : Z) : 2 ^ (g - 1) <= q -> 0 < g -> g <= Zdigits2 q.
Proof.
  intros Hq Hg.
  assert (0 < 2 ^ (g - 1)) by (apply Z.pow_pos_nonneg; lia).
  destruct q as [|p|p]; [lia| |lia].
  cbn [Zdigits2]. destruct (digits2_pos_bounds p) as [_ Hhi].
  assert (g - 1 < Z.pos (digits2_pos p)); [|lia].
  apply (Z.pow_lt_mono_r_iff 2); lia.
Qed.

(** The second stage of the rounding, when the mantissa fits. *)
Lemma round_done (m : positive) (e : Z) :
  bounded prec emax m e = true ->
  (let '(mrs, e') := shr_fexp prec emax (Z.pos m) e loc_Exact in
   match shr_m mrs with
   | Z0 => S754_zero false
   | Zpos m' => if e' <=? emax - prec then S754_finite false m' e'
                else S754_infinity false
   | Zneg _ => S754_nan
   end) = S754_finite false m e.
Proof.
  intros Hb. destruct (bounded_inv m e Hb) as (_ & He & Hf & _).
  unfold shr_fexp. cbn [Zdigits2]. rewrite Hf, Z.sub_diag. cbn [shr shr_m shr_record_of_loc].
  replace (e <=? emax - prec) with true; [reflexivity|].
  symmetry. apply Z.leb_le. change (emax - prec) with 971. lia.
Qed.

(** The second stage when the mantissa has become [2 ^ 53]. *)
Lemma round_carry (m : positive) (e : Z) :
  Z.pos m = 2 ^ 52 -> -1074 < e <= 971 ->
  (let '(mrs, e') := shr_fexp prec emax (Z.pos m~0) (e - 1) loc_Exact in
   match shr_m mrs with
   | Z0 => S754_zero false
   | Zpos m' => if e' <=? emax - prec then S754_finite false m' e'
                else S754_infinity false
   | Zneg _ => S754_nan
   end) = S754_finite false m e.
Proof.
  intros Hm He.
  assert (Hd : Z.pos (digits2_pos m) = 53).
  { apply digits2_pos_unique; [|lia]. rewrite Hm.
    change (53 - 1) with 52. split; [lia|].
    apply Z.pow_lt_mono_r; lia. }
  unfold shr_fexp. cbn [Zdigits2 digits2_pos]. rewrite Pos2Z.inj_succ, Hd.
  replace (fexp prec emax (Z.succ 53 + (e - 1)) - (e - 1)) with 1
    by (rewrite fexp_eq; lia).
  cbn [shr iter_pos shr_record_of_loc shr_1 shr_m].
  replace (e - 1 + 1) with e by lia.
  replace (e <=? emax - prec) with true; [reflexivity|].
  symmetry. apply Z.leb_le. change (emax - prec) with 971. lia.
Qed.

(** The first stage of the rounding: the mantissa is cut at the exponent
    [E] and rounded there. *)
Lemma round_first_stage (A B e1 E M : Z) :
  0 <= A -> 0 < B -> e1 <= E ->
  fexp prec emax (Zdigits2 (A / B) + e1) = E ->
  M * (B * 2 ^ (E - e1)) <= A < (M + 1) * (B * 2 ^ (E - e1)) ->
  binary_round_aux prec emax false (A / B) e1 (location_of (A mod B) B)
  = (let '(mrs, e') :=
       shr_fexp prec emax
         (round_nearest_even M
            (location_of (A - M * (B * 2 ^ (E - e1))) (B * 2 ^ (E - e1))))
         E loc_Exact in
     match shr_m mrs with
     | Z0 => S754_zero false
     | Zpos m' => if e' <=? emax - prec then S754_finite false m' e'
                  else S754_infinity false
     | Zneg _ => S754_nan
     end).
Proof.
  intros HA HB Hle Hf HM.
  destruct (shr_fexp_located A B e1 E HA HB Hle Hf) as (mrs & Hshr & Hm & Hl).
  assert (HT : 0 < 2 ^ (E - e1)) by (apply Z.pow_pos_nonneg; lia).
  set (C := B * 2 ^ (E - e1)) in *.
  assert (HC : 0 < C) by (unfold C; nia).
  assert (Hdiv : A / C = M)
    by (symmetry; apply (Z.div_unique A C M (A - M * C)); lia).
  assert (Hmod : A mod C = A - M * C)
    by (symmetry; apply (Z.mod_unique A C M (A - M * C)); lia).
  unfold binary_round_aux. rewrite Hshr, Hm, Hl, Hdiv, Hmod. reflexivity.
Qed.

Lemma pow2_split (a b : Z) : 0 <= a -> 0 <= b -> 2 ^ (a + b) = 2 ^ a * 2 ^ b.
Proof. intros. apply Z.pow_add_r; assumption. Qed.

(** A fraction at or above a Number, and less than half a unit in the last
    place above it, is rounded to it. *)
Lemma round_from_above (A B : Z) (m : positive) (e e1 : Z) :
  bounded prec emax m e = true -> 0 < B -> e1 <= e ->
  Z.pos m * (B * 2 ^ (e - e1)) <= A ->
  2 * A < (2 * Z.pos m + 1) * (B * 2 ^ (e - e1)) ->
  binary_round_aux prec emax false (A / B) e1 (location_of (A mod B) B)
  = S754_finite false m e.
Proof.
  intros Hb HB Hle Hlo Hhi.
  destruct (bounded_inv m e Hb) as (Hdm & He & Hf & _).
  destruct (digits2_pos_bounds m) as [Hm1 Hm2].
  set (dm := Z.pos (digits2_pos m)) in *.
  assert (Hdm0 : 0 < dm) by (unfold dm; lia).
  set (n := e - e1) in *.
  assert (HT : 0 < 2 ^ n) by (apply Z.pow_pos_nonneg; lia).
  assert (HA : 0 <= A) by nia.
  assert (Hq1 : Z.pos m * 2 ^ n <= A / B)
    by (apply Z.div_le_lower_bound; [exact HB|nia]).
  assert (Hq2 : A / B < (Z.pos m + 1) * 2 ^ n)
    by (apply Z.div_lt_upper_bound; [exact HB|nia]).
  assert (Hdq : Zdigits2 (A / B) = dm + n).
  { apply Z.le_antisymm.
    - apply Zdigits2_le; [|lia]. rewrite pow2_split by lia. split; [nia|nia].
    - apply Zdigits2_ge; [|lia].
      replace (dm + n - 1) with (dm - 1 + n) by lia.
      rewrite pow2_split by lia. nia. }
  rewrite (round_first_stage A B e1 e (Z.pos m) HA HB Hle).
  - fold n. set (C := B * 2 ^ n) in *.
    assert (Hround : round_nearest_even (Z.pos m)
                       (location_of (A - Z.pos m * C) C) = Z.pos m).
    { unfold location_of. destruct (A - Z.pos m * C =? 0); [reflexivity|].
      replace (2 * (A - Z.pos m * C) ?= C) with Lt; [reflexivity|].
      symmetry. apply Z.compare_lt_iff. lia. }
    rewrite Hround. apply round_done, Hb.
  - rewrite Hdq. replace (dm + n + e1) with (dm + e) by (unfold n; lia).
    exact Hf.
  - fold n. lia.
Qed.

(** A fraction below a Number, and less than half a unit in the last place
    below it, is rounded to it, when the Number below is that far. *)
Lemma round_from_below (A B : Z) (m : positive) (e e1 : Z) :
  bounded prec emax m e = true -> 0 < B -> e1 <= e ->
  (Z.pos m = 2 ^ 52 -> e = -1074) ->
  A < Z.pos m * (B * 2 ^ (e - e1)) ->
  (2 * Z.pos m - 1) * (B * 2 ^ (e - e1)) < 2 * A ->
  binary_round_aux prec emax false (A / B) e1 (location_of (A mod B) B)
  = S754_finite false m e.
Proof.
  intros Hb HB Hle Hnb Hhi Hlo.
  destruct (bounded_inv m e Hb) as (Hdm & He & Hf & Hcan).
  destruct (digits2_pos_bounds m) as [Hm1 Hm2].
  set (dm := Z.pos (digits2_pos m)) in *.
  assert (Hdm0 : 0 < dm) by (unfold dm; lia).
  set (n := e - e1) in *.
  assert (HT : 0 < 2 ^ n) by (apply Z.pow_pos_nonneg; lia).
  set (C := B * 2 ^ n) in *.
  assert (HC : 0 < C) by (unfold C; nia).
  assert (HA : 0 <= A) by nia.
  assert (Hq2 : A / B < Z.pos m * 2 ^ n)
    by (apply Z.div_lt_upper_bound; [exact HB|unfold C in Hhi; nia]).
  assert (Hq0 : 0 <= A / B) by (apply Z.div_pos; lia).
  assert (Hfq : fexp prec emax (Zdigits2 (A / B) + e1) = e).
  { assert (Hup : Zdigits2 (A / B) <= dm + n).
    { apply Zdigits2_le; [|lia]. rewrite pow2_split by lia. split; [lia|nia]. }
    rewrite fexp_eq in *.
    destruct (Z.eq_dec e (-1074)) as [E|E]; [unfold n in Hup; lia|].
    assert (Hd53 : dm = 53) by lia.
    assert (Hm52 : 2 ^ 52 < Z.pos m).
    { rewrite Hd53 in Hm1. change (53 - 1) with 52 in Hm1.
      destruct (Z.eq_dec (Z.pos m) (2 ^ 52)) as [E'|E']; [|lia].
      specialize (Hnb E'). contradiction. }
    assert (Hlow : 53 + n <= Zdigits2 (A / B)).
    { apply Zdigits2_ge; [|lia].
      replace (53 + n - 1) with (52 + n) by lia. rewrite pow2_split by lia.
      apply Z.le_trans with ((Z.pos m - 1) * 2 ^ n); [nia|].
      apply Z.div_le_lower_bound; [exact HB|unfold C in Hlo; nia]. }
    unfold n in Hup, Hlow. lia. }
  rewrite (round_first_stage A B e1 e (Z.pos m - 1) HA HB Hle Hfq).
  - fold n. fold C.
    assert (Hround : round_nearest_even (Z.pos m - 1)
                       (location_of (A - (Z.pos m - 1) * C) C) = Z.pos m).
    { unfold location_of.
      replace (A - (Z.pos m - 1) * C =? 0) with false
        by (symmetry; apply Z.eqb_neq; lia).
      replace (2 * (A - (Z.pos m - 1) * C) ?= C) with Gt;
        [cbn [round_nearest_even]; lia|].
      symmetry. apply Z.compare_gt_iff. lia. }
    rewrite Hround. apply round_done, Hb.
  - fold n. fold C. lia.
Qed.

(** Below a Number that is a power of two, the Numbers are twice as dense:
    a fraction less than a quarter of a unit below it is rounded to it. *)
Lemma round_to_power (A B : Z) (m : positive) (e e1 : Z) :
  bounded prec emax m e = true -> 0 < B -> e1 <= e - 1 ->
  Z.pos m = 2 ^ 52 -> -1074 < e ->
  A < 2 * Z.pos m * (B * 2 ^ (e - 1 - e1)) ->
  (4 * Z.pos m - 1) * (B * 2 ^ (e - 1 - e1)) < 2 * A ->
  binary_round_aux prec emax false (A / B) e1 (location_of (A mod B) B)
  = S754_finite false m e.
Proof.
  intros Hb HB Hle Hm He1 Hhi Hlo.
  destruct (bounded_inv m e Hb) as (_ & He & _).
  set (n := e - 1 - e1) in *.
  assert (HT : 0 < 2 ^ n) by (apply Z.pow_pos_nonneg; lia).
  set (C := B * 2 ^ n) in *.
  assert (HC : 0 < C) by (unfold C; nia).
  assert (HA : 0 <= A) by nia.
  assert (H52 : 0 < 2 ^ 52) by (apply Z.pow_pos_nonneg; lia).
  assert (Hq2 : A / B < 2 * Z.pos m * 2 ^ n)
    by (apply Z.div_lt_upper_bound; [exact HB|unfold C in Hhi; nia]).
  assert (Hq1 : (2 * Z.pos m - 1) * 2 ^ n <= A / B)
    by (apply Z.div_le_lower_bound; [exact HB|unfold C in Hlo; nia]).
  assert (Hdq : Zdigits2 (A / B) = 53 + n).
  { apply Z.le_antisymm.
    - apply Zdigits2_le; [|lia]. rewrite pow2_split by lia.
      change (2 ^ 53) with (2 * 2 ^ 52). rewrite <- Hm. split; [nia|lia].
    - apply Zdigits2_ge; [|lia].
      replace (53 + n - 1) with (52 + n) by lia. rewrite pow2_split by lia.
      rewrite <- Hm. nia. }
  rewrite (round_first_stage A B e1 (e - 1) (2 * Z.pos m - 1) HA HB Hle).
  - fold n. fold C.
    assert (Hround : round_nearest_even (2 * Z.pos m - 1)
                       (location_of (A - (2 * Z.pos m - 1) * C) C)
                     = Z.pos m~0).
    { unfold location_of.
      replace (A - (2 * Z.pos m - 1) * C =? 0) with false
        by (symmetry; apply Z.eqb_neq; lia).
      replace (2 * (A - (2 * Z.pos m - 1) * C) ?= C) with Gt;
        [cbn [round_nearest_even]; lia|].
      symmetry. apply Z.compare_gt_iff. lia. }
    rewrite Hround. apply round_carry; [exact Hm|lia].
  - rewrite Hdq, fexp_eq. unfold n. lia.
  - fold n. fold C. lia.
Qed.

Lemma SFdiv_core_spec (N D : Z) :
  0 < N -> 0 < D ->
  exists s,
    0 <= s <= 1074
    /\ SFdiv_core_binary prec emax N 0 D 0
       = ((N * 2 ^ s) / D, - s, location_of ((N * 2 ^ s) mod D) D)
    /\ - s <= fexp prec emax (Zdigits2 N - Zdigits2 D).
Proof.
  intros HN HD. unfold SFdiv_core_binary.
  rewrite !Z.add_0_r, Z.sub_diag.
  set (e' := Z.min (fexp prec emax (Zdigits2 N - Zdigits2 D)) 0).
  assert (He' : -1074 <= e' <= 0).
  { unfold e'. rewrite fexp_eq. lia. }
  exists (- e'). split; [lia|]. split; [|unfold e'; lia].
  replace (0 - e') with (- e') by lia.
  assert (Hm' : match - e' with
                | 0 => N
                | Z.pos _ => Z.shiftl N (- e')
                | Z.neg _ => 0
                end = N * 2 ^ (- e')).
  { destruct (- e') as [|p|p] eqn:E.
    - rewrite Z.pow_0_r. lia.
    - apply Z.shiftl_mul_pow2. lia.
    - lia. }
  rewrite Hm'. set (A := N * 2 ^ (- e')).
  assert (H2 : 0 < 2 ^ (- e')) by (apply Z.pow_pos_nonneg; lia).
  unfold Z.div, Z.modulo.
  pose proof (Z_div_mod A D ltac:(lia)) as Hdm.
  destruct (Z.div_eucl A D) as [q r]. destruct Hdm as [_ Hr].
  rewrite Z.opp_involutive.
  rewrite (new_location_spec D r HD Hr). reflexivity.
Qed.

Lemma exponent_bound (N D z : Z) :
  0 < N -> 0 < D -> -1074 <= z ->
  N * 2 ^ 1074 < 2 ^ (z + 53 + 1074) * D ->
  fexp prec emax (Zdigits2 N - Zdigits2 D) <= z.
Proof.
  intros HN HD Hz H. rewrite fexp_eq.
  destruct (Z_le_gt_dec (Zdigits2 N - Zdigits2 D - 53) z) as [Hle|Hgt]; [lia|].
  exfalso.
  destruct N as [|n|n]; [lia| |lia]. destruct D as [|d|d]; [lia| |lia].
  cbn [Zdigits2] in Hgt.
  destruct (digits2_pos_bounds n) as [Hn _].
  destruct (digits2_pos_bounds d) as [_ Hd].
  set (d1 := Z.pos (digits2_pos n)) in *.
  set (d2 := Z.pos (digits2_pos d)) in *.
  assert (Hd1 : 0 < d1) by (unfold d1; lia).
  assert (Hd2 : 0 < d2) by (unfold d2; lia).
  assert (Hpow : 2 ^ (z + 53 + 1074) * 2 ^ d2 <= 2 ^ (d1 - 1) * 2 ^ 1074).
  { rewrite <- !pow2_split by lia. apply Z.pow_le_mono_r; lia. }
  assert (0 < 2 ^ 1074) by (apply Z.pow_pos_nonneg; lia).
  assert (0 < 2 ^ (z + 53 + 1074)) by (apply Z.pow_pos_nonneg; lia).
  revert H Hpow Hn Hd H0 H1.
  generalize (2 ^ (z + 53 + 1074)), (2 ^ 1074), (2 ^ (d1 - 1)), (2 ^ d2).
  intros a b c f. nia.
Qed.

(** A positive fraction [N / D] that is nearer to the Number [m * 2 ^ e]
    than to the Numbers next to it is rounded to it. *)
Lemma round_ratio_nearest (m : positive) (e N D : Z) :
  bounded prec emax m e = true -> 0 < N -> 0 < D ->
  (2 * Z.pos m - 1) * (2 ^ (e + 1074) * D) < 2 * (N * 2 ^ 1074) ->
  2 * (N * 2 ^ 1074) < (2 * Z.pos m + 1) * (2 ^ (e + 1074) * D) ->
  (Z.pos m = 2 ^ 52 -> -1074 < e ->
   (4 * Z.pos m - 1) * (2 ^ (e + 1074) * D) < 4 * (N * 2 ^ 1074)) ->
  round_ratio false N D = S754_finite false m e.
Proof.
  intros Hb HN HD Hlo Hhi Hbd.
  destruct (bounded_inv m e Hb) as (Hdm & He & Hf & Hcan).
  destruct (digits2_pos_bounds m) as [_ Hm2].
  assert (Hm53 : Z.pos m < 2 ^ 53).
  { apply Z.lt_le_trans with (1 := Hm2). apply Z.pow_le_mono_r; lia. }
  destruct (SFdiv_core_spec N D HN HD) as (s & Hs & Hcore & Hsle).
  assert (HR : 0 < 2 ^ (e + 1074)) by (apply Z.pow_pos_nonneg; lia).
  assert (HS : 0 < 2 ^ s) by (apply Z.pow_pos_nonneg; lia).
  assert (HW : 0 < 2 ^ (1074 - s)) by (apply Z.pow_pos_nonneg; lia).
  assert (HK : 2 ^ 1074 = 2 ^ s * 2 ^ (1074 - s)).
  { rewrite <- pow2_split by lia. f_equal. lia. }
  assert (H53 : 2 ^ (e + 53 + 1074) = 2 ^ 53 * 2 ^ (e + 1074)).
  { rewrite <- pow2_split by lia. f_equal. lia. }
  assert (Hes : - s <= e).
  { apply Z.le_trans with (1 := Hsle). apply exponent_bound; try lia.
    rewrite H53. revert Hhi Hm53 HR.
    generalize (2 ^ (e + 1074)), (2 ^ 1074), (2 ^ 53). intros r k p53 Hhi Hm53 HR.
    nia. }
  assert (HT : 0 < 2 ^ (e + s)) by (apply Z.pow_pos_nonneg; lia).
  assert (HRT : 2 ^ (e + 1074) = 2 ^ (e + s) * 2 ^ (1074 - s)).
  { rewrite <- pow2_split by lia. f_equal. lia. }
  set (A := N * 2 ^ s) in *.
  assert (Hlo' : (2 * Z.pos m - 1) * (D * 2 ^ (e + s)) < 2 * A).
  { apply (Z.mul_lt_mono_pos_r (2 ^ (1074 - s))); [exact HW|].
    rewrite HK, HRT in Hlo. unfold A. 
    replace ((2 * Z.pos m - 1) * (D * 2 ^ (e + s)) * 2 ^ (1074 - s))
      with ((2 * Z.pos m - 1) * (2 ^ (e + s) * 2 ^ (1074 - s) * D)) by ring.
    replace (2 * (N * 2 ^ s) * 2 ^ (1074 - s))
      with (2 * (N * (2 ^ s * 2 ^ (1074 - s)))) by ring.
    exact Hlo. }
  assert (Hhi' : 2 * A < (2 * Z.pos m + 1) * (D * 2 ^ (e + s))).
  { apply (Z.mul_lt_mono_pos_r (2 ^ (1074 - s))); [exact HW|].
    rewrite HK, HRT in Hhi. unfold A.
    replace ((2 * Z.pos m + 1) * (D * 2 ^ (e + s)) * 2 ^ (1074 - s))
      with ((2 * Z.pos m + 1) * (2 ^ (e + s) * 2 ^ (1074 - s) * D)) by ring.
    replace (2 * (N * 2 ^ s) * 2 ^ (1074 - s))
      with (2 * (N * (2 ^ s * 2 ^ (1074 - s)))) by ring.
    exact Hhi. }
  assert (Hgoal : binary_round_aux prec emax false (A / D) (- s)
                    (location_of (A mod D) D) = S754_finite false m e).
  { destruct (Z_le_gt_dec (Z.pos m * (D * 2 ^ (e + s))) A) as [Hge|Hlt].
    - apply round_from_above; try assumption;
        replace (e - - s) with (e + s) by lia; assumption.
    - apply Z.gt_lt in Hlt.
      destruct (Z.eq_dec (Z.pos m) (2 ^ 52)) as [Hm|Hm].
      + destruct (Z_lt_dec (-1074) e) as [He1|He1].
        * specialize (Hbd Hm He1).
          assert (Hes1 : - s <= e - 1).
          { apply Z.le_trans with (1 := Hsle). apply exponent_bound; try lia.
            replace (e - 1 + 53 + 1074) with (52 + (e + 1074)) by lia.
            rewrite pow2_split, <- Hm by lia.
            apply (Z.mul_lt_mono_pos_r (2 ^ (1074 - s))) in Hlt; [|exact HW].
            rewrite HK, HRT. unfold A in Hlt.
            replace (N * (2 ^ s * 2 ^ (1074 - s)))
              with (N * 2 ^ s * 2 ^ (1074 - s)) by ring.
            replace (Z.pos m * (2 ^ (e + s) * 2 ^ (1074 - s)) * D)
              with (Z.pos m * (D * 2 ^ (e + s)) * 2 ^ (1074 - s)) by ring.
            exact Hlt. }
          assert (HT2 : 2 ^ (e + s) = 2 * 2 ^ (e - 1 - - s)).
          { replace (e + s) with (1 + (e - 1 - - s)) by lia.
            rewrite pow2_split by lia. reflexivity. }
          assert (Hbd' : (4 * Z.pos m - 1) * (D * 2 ^ (e + s)) < 4 * A).
          { apply (Z.mul_lt_mono_pos_r (2 ^ (1074 - s))); [exact HW|].
            rewrite HK, HRT in Hbd. unfold A.
            replace ((4 * Z.pos m - 1) * (D * 2 ^ (e + s)) * 2 ^ (1074 - s))
              with ((4 * Z.pos m - 1) * (2 ^ (e + s) * 2 ^ (1074 - s) * D))
              by ring.
            replace (4 * (N * 2 ^ s) * 2 ^ (1074 - s))
              with (4 * (N * (2 ^ s * 2 ^ (1074 - s)))) by ring.
            exact Hbd. }
          apply round_to_power; try assumption.
          -- rewrite HT2 in Hlt. lia.
          -- rewrite HT2 in Hbd'. lia.
        * apply round_from_below; try assumption;
            replace (e - - s) with (e + s) by lia; try assumption; lia.
      + apply round_from_below; try assumption;
          replace (e - - s) with (e + s) by lia; try assumption.
        intros E. contradiction. }
  unfold round_ratio. destruct N as [|n|n]; [lia| |lia].
  rewrite Hcore. exact Hgoal.
Qed.

(** *** The decimal exponent of a Number *)

Lemma estimate_check_sound (fuel : nat) (T b j q10 : Z) :
  estimate_check fuel T b j q10 = true ->
  T = 10 ^ 400 ->
  -1074 <= b -> -399 <= j ->
  j = estimate b -> q10 = 10 ^ (j - 1 + 400) ->
  forall b', b <= b' < b + Z.of_nat fuel ->
    10 ^ (estimate b' - 1 + 400) * 2 ^ 1074 <= 10 ^ 400 * 2 ^ (b' + 1074)
    /\ 10 ^ 400 * 2 ^ (b' + 1 + 1074)
       <= 10 ^ (estimate b' + 7 + 400) * 2 ^ 1074
    /\ -399 <= estimate b'.
Proof.
  revert b j q10; induction fuel as [|fuel IH];
    intros b j q10 Hc HT Hb Hj Hest Hq b' Hb'; [lia|].
  cbn [estimate_check] in Hc.
  apply andb_true_iff in Hc as [Hc Hnext].
  apply andb_true_iff in Hc as [H1 H2].
  apply Z.leb_le in H1, H2.
  rewrite !Z.shiftl_mul_pow2 in H1, H2 by lia.
  destruct (Z.eq_dec b' b) as [->|Hne].
  - rewrite <- Hest. split; [|split; [|exact Hj]].
    + rewrite <- Hq, <- HT. exact H1.
    + replace (j + 7 + 400) with (j - 1 + 400 + 8) by lia.
      rewrite (Z.pow_add_r 10 (j - 1 + 400) 8) by lia.
      rewrite <- Hq, <- HT. exact H2.
  - destruct (Z.eqb_spec (estimate (b + 1)) j) as [E|E].
    + apply (IH (b + 1) j q10 Hnext HT); auto; lia.
    + destruct (Z.eqb_spec (estimate (b + 1)) (j + 1)) as [E'|E'];
        [|discriminate].
      apply (IH (b + 1) (j + 1) (10 * q10) Hnext HT); auto; try lia.
      replace (j + 1 - 1 + 400) with (1 + (j - 1 + 400)) by lia.
      rewrite Z.pow_add_r, Z.pow_1_r by lia. lia.
Qed.

Lemma estimate_bounds (b : Z) :
  -1074 <= b <= 1023 ->
  10 ^ (estimate b - 1 + 400) * 2 ^ 1074 <= 10 ^ 400 * 2 ^ (b + 1074)
  /\ 10 ^ 400 * 2 ^ (b + 1 + 1074) <= 10 ^ (estimate b + 7 + 400) * 2 ^ 1074
  /\ -399 <= estimate b.
Proof.
  intros Hb.
  apply (estimate_check_sound 2098 (10 ^ 400) (-1074) (-325) (10 ^ 74));
    [vm_compute; reflexivity|reflexivity|lia|lia|reflexivity|reflexivity|lia].
Qed.

Lemma numerator_offset (m : positive) (e : Z) :
  -1074 <= e ->
  numerator m e * 2 ^ 1074 = Z.pos m * 2 ^ (e + 1074) * denominator e.
Proof.
  intros He. unfold numerator, denominator.
  destruct (Z.leb_spec 0 e).
  - rewrite (Z.pow_add_r 2 e 1074) by lia. ring.
  - replace (2 ^ 1074) with (2 ^ (e + 1074) * 2 ^ (- e)); [ring|].
    rewrite <- Z.pow_add_r by lia. f_equal. lia.
Qed.

Lemma below_pow10_iff (N D j : Z) :
  -400 <= j ->
  below_pow10 N D j = true <-> N * 10 ^ 400 < 10 ^ (j + 400) * D.
Proof.
  intros Hj. unfold below_pow10.
  assert (HT : 0 < 10 ^ 400) by (apply Z.pow_pos_nonneg; lia).
  destruct (Z.leb_spec 0 j).
  - rewrite Z.ltb_lt, (Z.pow_add_r 10 j 400) by lia.
    revert HT. generalize (10 ^ 400), (10 ^ j). intros t a HT. nia.
  - rewrite Z.ltb_lt.
    assert (Hp : 0 < 10 ^ (j + 400)) by (apply Z.pow_pos_nonneg; lia).
    replace (10 ^ 400) with (10 ^ (- j) * 10 ^ (j + 400))
      by (rewrite <- Z.pow_add_r by lia; f_equal; lia).
    revert Hp. generalize (10 ^ (j + 400)), (10 ^ (- j)). intros t a Hp. nia.
Qed.

Lemma first_above_spec (fuel : nat) (N D j : Z) :
  (exists i, (i < fuel)%nat /\ below_pow10 N D (j + Z.of_nat i) = true) ->
  below_pow10 N D (first_above fuel N D j) = true
  /\ j <= first_above fuel N D j
  /\ (first_above fuel N D j = j
      \/ below_pow10 N D (first_above fuel N D j - 1) = false).
Proof.
  revert j; induction fuel as [|fuel IH]; intros j (i & Hi & Hb); [lia|].
  cbn [first_above]. destruct (below_pow10 N D j) eqn:E.
  - split; [exact E|]. split; [lia|]. left. reflexivity.
  - destruct i as [|i]; [rewrite Z.add_0_r in Hb; congruence|].
    destruct (IH (j + 1)) as (H1 & H2 & H3).
    { exists i. split; [lia|]. rewrite <- Hb. f_equal. lia. }
    split; [exact H1|]. split; [lia|]. right.
    destruct H3 as [-> | H3]; [|exact H3].
    replace (j + 1 - 1) with j by lia. exact E.
Qed.

(** The decimal exponent [n] of a Number: [10 ^ (n - 1) <= x < 10 ^ n]. *)
Lemma decimal_exponent_spec (m : positive) (e : Z) :
  bounded prec emax m e = true ->
  below_pow10 (numerator m e) (denominator e)
    (decimal_exponent (numerator m e) (denominator e)) = true
  /\ below_pow10 (numerator m e) (denominator e)
       (decimal_exponent (numerator m e) (denominator e) - 1) = false
  /\ -399 <= decimal_exponent (numerator m e) (denominator e).
Proof.
  intros Hb. destruct (bounded_inv m e Hb) as (Hdm & He & _).
  destruct (digits2_pos_bounds m) as [_ Hm2].
  assert (Hm53 : Z.pos m < 2 ^ 53).
  { apply Z.lt_le_trans with (1 := Hm2). apply Z.pow_le_mono_r; lia. }
  pose proof (numerator_pos m e) as HN. pose proof (denominator_pos e) as HD.
  pose proof (numerator_offset m e ltac:(lia)) as Hoff.
  set (N := numerator m e) in *. set (D := denominator e) in *.
  set (lm := Z.log2 (Z.pos m)).
  assert (Hlm : 0 <= lm < 53).
  { unfold lm. split; [apply Z.log2_nonneg|].
    apply Z.log2_lt_pow2; lia. }
  destruct (Z.log2_spec (Z.pos m) ltac:(lia)) as [Hl1 Hl2]. fold lm in Hl1, Hl2.
  assert (Hb' : Z.log2 N - Z.log2 D = lm + e).
  { unfold N, D, numerator, denominator. destruct (Z.leb_spec 0 e).
    - rewrite Z.log2_mul_pow2 by lia. change (Z.log2 1) with 0. unfold lm. lia.
    - rewrite Z.log2_pow2 by lia. unfold lm. lia. }
  unfold decimal_exponent. rewrite Hb'. fold (estimate (lm + e)).
  set (b := lm + e) in *.
  destruct (estimate_bounds b ltac:(lia)) as (P1 & P2 & P3).
  set (j := estimate b) in *.
  assert (HK : 0 < 2 ^ 1074) by (apply Z.pow_pos_nonneg; lia).
  assert (HT : 0 < 10 ^ 400) by (apply Z.pow_pos_nonneg; lia).
  assert (HR : 0 < 2 ^ (e + 1074)) by (apply Z.pow_pos_nonneg; lia).
  assert (Hb1 : 2 ^ (b + 1074) = 2 ^ lm * 2 ^ (e + 1074)).
  { rewrite <- Z.pow_add_r by lia. f_equal. unfold b. lia. }
  assert (Hb2 : 2 ^ (b + 1 + 1074) = 2 ^ Z.succ lm * 2 ^ (e + 1074)).
  { rewrite <- Z.pow_add_r by lia. f_equal. unfold b. lia. }
  assert (Hup : below_pow10 N D (j + Z.of_nat 7) = true).
  { apply below_pow10_iff; [lia|]. change (Z.of_nat 7) with 7.
    apply (Z.mul_lt_mono_pos_r (2 ^ 1074)); [exact HK|].
    apply Z.lt_le_trans with (10 ^ 400 * 2 ^ (b + 1 + 1074) * D).
    - rewrite Hb2.
      replace (N * 10 ^ 400 * 2 ^ 1074) with (N * 2 ^ 1074 * 10 ^ 400) by ring.
      rewrite Hoff.
      revert Hl2 HR HT HD. generalize (2 ^ Z.succ lm), (2 ^ (e + 1074)), (10 ^ 400).
      intros a r t Hl2 HR HT HD.
      assert (Z.pos m * r * D * t < a * r * D * t); [|lia].
      apply Z.mul_lt_mono_pos_r; [exact HT|].
      apply Z.mul_lt_mono_pos_r; [exact HD|].
      apply Z.mul_lt_mono_pos_r; [exact HR|exact Hl2].
    - replace (10 ^ (j + 7 + 400) * D * 2 ^ 1074)
        with (10 ^ (j + 7 + 400) * 2 ^ 1074 * D) by ring.
      apply Z.mul_le_mono_nonneg_r; [lia|exact P2]. }
  assert (Hdown : below_pow10 N D (j - 1) = false).
  { destruct (below_pow10 N D (j - 1)) eqn:E; [|reflexivity]. exfalso.
    apply below_pow10_iff in E; [|lia].
    apply (Z.mul_lt_mono_pos_r (2 ^ 1074)) in E; [|exact HK].
    replace (N * 10 ^ 400 * 2 ^ 1074) with (N * 2 ^ 1074 * 10 ^ 400) in E by ring.
    rewrite Hoff in E.
    assert (H1 : 10 ^ (j - 1 + 400) * D * 2 ^ 1074
                 <= 10 ^ 400 * 2 ^ (b + 1074) * D).
    { replace (10 ^ (j - 1 + 400) * D * 2 ^ 1074)
        with (10 ^ (j - 1 + 400) * 2 ^ 1074 * D) by ring.
      apply Z.mul_le_mono_nonneg_r; [lia|exact P1]. }
    rewrite Hb1 in H1.
    revert E H1 Hl1 HR HT HD.
    generalize (2 ^ lm), (2 ^ (e + 1074)), (10 ^ 400), (10 ^ (j - 1 + 400) * D * 2 ^ 1074).
    intros a r t u E H1 Hl1 HR HT HD.
    assert (a * r * D * t <= Z.pos m * r * D * t); [|lia].
    apply Z.mul_le_mono_nonneg_r; [lia|].
    apply Z.mul_le_mono_nonneg_r; [lia|].
    apply Z.mul_le_mono_nonneg_r; [lia|exact Hl1]. }
  destruct (first_above_spec 8 N D j) as (H1 & H2 & H3).
  { exists 7%nat. split; [lia|exact Hup]. }
  split; [exact H1|]. split; [|lia].
  destruct H3 as [-> | H3]; [exact Hdown|exact H3].
Qed.

(** *** The digits of a Number *)

Lemma number_eqb_refl (x : number) : number_eqb x x = true.
Proof.
  destruct x as [s|s| |s m e]; cbn [number_eqb];
    rewrite ?Bool.eqb_reflx, ?Pos.eqb_refl, ?Z.eqb_refl; reflexivity.
Qed.

Lemma number_eqb_eq (x y : number) : number_eqb x y = true -> x = y.
Proof.
  destruct x as [s|s| |s m e], y as [s'|s'| |s' m' e']; cbn [number_eqb];
    try discriminate; try reflexivity.
  - intros H. apply Bool.eqb_prop in H. congruence.
  - intros H. apply Bool.eqb_prop in H. congruence.
  - intros H. apply andb_true_iff in H as [H H3].
    apply andb_true_iff in H as [H1 H2].
    apply Bool.eqb_prop in H1. apply Pos.eqb_eq in H2. apply Z.eqb_eq in H3.
    congruence.
Qed.

(** A decimal [s * 10 ^ j] nearer to a Number than to the Numbers next to
    it has that Number as its value.  The powers are scaled by [10 ^ 417]
    and [2 ^ 1074]. *)
Lemma decimal_rounds (m : positive) (e s j : Z) :
  bounded prec emax m e = true -> 0 < s -> -417 <= j ->
  (2 * Z.pos m - 1) * (2 ^ (e + 1074) * 10 ^ 417)
  < 2 * (s * 10 ^ (j + 417) * 2 ^ 1074) ->
  2 * (s * 10 ^ (j + 417) * 2 ^ 1074)
  < (2 * Z.pos m + 1) * (2 ^ (e + 1074) * 10 ^ 417) ->
  (Z.pos m = 2 ^ 52 -> -1074 < e ->
   (4 * Z.pos m - 1) * (2 ^ (e + 1074) * 10 ^ 417)
   < 4 * (s * 10 ^ (j + 417) * 2 ^ 1074)) ->
  number_of_decimal false s j = S754_finite false m e.
Proof.
  intros Hb Hs Hj Hlo Hhi Hbd. unfold number_of_decimal.
  destruct (Z.leb_spec 0 j) as [Hj0|Hj0].
  - assert (Hp : 0 < 10 ^ j) by (apply Z.pow_pos_nonneg; lia).
    assert (HT : 0 < 10 ^ 417) by (apply Z.pow_pos_nonneg; lia).
    rewrite (Z.pow_add_r 10 j 417) in * by lia.
    apply round_ratio_nearest; [exact Hb|nia|lia| | |].
    + apply (Z.mul_lt_mono_pos_r (10 ^ 417)); [exact HT|].
      revert Hlo. generalize (2 ^ (e + 1074)), (10 ^ 417), (2 ^ 1074), (10 ^ j).
      intros r t k p Hlo.
      replace ((2 * Z.pos m - 1) * (r * 1) * t)
        with ((2 * Z.pos m - 1) * (r * t)) by ring.
      replace (2 * (s * p * k) * t) with (2 * (s * (p * t) * k)) by ring.
      exact Hlo.
    + apply (Z.mul_lt_mono_pos_r (10 ^ 417)); [exact HT|].
      revert Hhi. generalize (2 ^ (e + 1074)), (10 ^ 417), (2 ^ 1074), (10 ^ j).
      intros r t k p Hhi.
      replace ((2 * Z.pos m + 1) * (r * 1) * t)
        with ((2 * Z.pos m + 1) * (r * t)) by ring.
      replace (2 * (s * p * k) * t) with (2 * (s * (p * t) * k)) by ring.
      exact Hhi.
    + intros Hm He. specialize (Hbd Hm He).
      apply (Z.mul_lt_mono_pos_r (10 ^ 417)); [exact HT|].
      revert Hbd. generalize (2 ^ (e + 1074)), (10 ^ 417), (2 ^ 1074), (10 ^ j).
      intros r t k p Hbd.
      replace ((4 * Z.pos m - 1) * (r * 1) * t)
        with ((4 * Z.pos m - 1) * (r * t)) by ring.
      replace (4 * (s * p * k) * t) with (4 * (s * (p * t) * k)) by ring.
      exact Hbd.
  - assert (Hp : 0 < 10 ^ (- j)) by (apply Z.pow_pos_nonneg; lia).
    assert (HT : 0 < 10 ^ (j + 417)) by (apply Z.pow_pos_nonneg; lia).
    assert (H417 : 10 ^ 417 = 10 ^ (- j) * 10 ^ (j + 417)).
    { rewrite <- Z.pow_add_r by lia. f_equal. lia. }
    rewrite H417 in *.
    apply round_ratio_nearest; [exact Hb|lia|lia| | |].
    + apply (Z.mul_lt_mono_pos_r (10 ^ (j + 417))); [exact HT|].
      revert Hlo.
      generalize (2 ^ (e + 1074)), (10 ^ (j + 417)), (2 ^ 1074), (10 ^ (- j)).
      intros r t k p Hlo.
      replace ((2 * Z.pos m - 1) * (r * p) * t)
        with ((2 * Z.pos m - 1) * (r * (p * t))) by ring.
      replace (2 * (s * k) * t) with (2 * (s * t * k)) by ring.
      exact Hlo.
    + apply (Z.mul_lt_mono_pos_r (10 ^ (j + 417))); [exact HT|].
      revert Hhi.
      generalize (2 ^ (e + 1074)), (10 ^ (j + 417)), (2 ^ 1074), (10 ^ (- j)).
      intros r t k p Hhi.
      replace ((2 * Z.pos m + 1) * (r * p) * t)
        with ((2 * Z.pos m + 1) * (r * (p * t))) by ring.
      replace (2 * (s * k) * t) with (2 * (s * t * k)) by ring.
      exact Hhi.
    + intros Hm He. specialize (Hbd Hm He).
      apply (Z.mul_lt_mono_pos_r (10 ^ (j + 417))); [exact HT|].
      revert Hbd.
      generalize (2 ^ (e + 1074)), (10 ^ (j + 417)), (2 ^ 1074), (10 ^ (- j)).
      intros r t k p Hbd.
      replace ((4 * Z.pos m - 1) * (r * p) * t)
        with ((4 * Z.pos m - 1) * (r * (p * t))) by ring.
      replace (4 * (s * k) * t) with (4 * (s * t * k)) by ring.
      exact Hbd.
Qed.

(** An inequality between two scaled quantities, read on the fraction
    [Nq / Dq] they stand for. *)
Lemma transfer_lt (m X Dq Nq Y a b : Z) :
  0 < m -> 0 < Dq -> 0 < Y ->
  m * X * Dq = Nq * Y ->
  a * Nq < b * m * Dq ->
  a * X < b * Y.
Proof.
  intros Hm HDq HY Heq H.
  apply (Z.mul_lt_mono_pos_r (m * Dq)); [nia|].
  replace (a * X * (m * Dq)) with (a * (m * X * Dq)) by ring.
  rewrite Heq.
  replace (a * (Nq * Y)) with (a * Nq * Y) by ring.
  replace (b * Y * (m * Dq)) with (b * m * Dq * Y) by ring.
  apply Z.mul_lt_mono_pos_r; assumption.
Qed.

Lemma transfer_gt (m X Dq Nq Y a b : Z) :
  0 < m -> 0 < Dq -> 0 < Y ->
  m * X * Dq = Nq * Y ->
  b * m * Dq < a * Nq ->
  b * Y < a * X.
Proof.
  intros Hm HDq HY Heq H.
  apply (Z.mul_lt_mono_pos_r (m * Dq)); [nia|].
  replace (a * X * (m * Dq)) with (a * (m * X * Dq)) by ring.
  rewrite Heq.
  replace (a * (Nq * Y)) with (a * Nq * Y) by ring.
  replace (b * Y * (m * Dq)) with (b * m * Dq * Y) by ring.
  apply Z.mul_lt_mono_pos_r; assumption.
Qed.

(** *** Seventeen digits are enough *)

Lemma below_pow10_offset (N D j c : Z) :
  0 <= c -> - c <= j ->
  below_pow10 N D j = true <-> N * 10 ^ c < 10 ^ (j + c) * D.
Proof.
  intros Hc Hj. unfold below_pow10.
  assert (HT : 0 < 10 ^ c) by (apply Z.pow_pos_nonneg; lia).
  destruct (Z.leb_spec 0 j).
  - rewrite Z.ltb_lt, (Z.pow_add_r 10 j c) by lia.
    revert HT. generalize (10 ^ c), (10 ^ j). intros t a HT. nia.
  - rewrite Z.ltb_lt.
    assert (Hp : 0 < 10 ^ (j + c)) by (apply Z.pow_pos_nonneg; lia).
    replace (10 ^ c) with (10 ^ (- j) * 10 ^ (j + c))
      by (rewrite <- Z.pow_add_r by lia; f_equal; lia).
    revert Hp. generalize (10 ^ (j + c)), (10 ^ (- j)). intros t a Hp. nia.
Qed.

(** The Number scaled to seventeen digits before the point. *)
Lemma scaled_17 (m : positive) (e : Z) :
  bounded prec emax m e = true ->
  let n := decimal_exponent (numerator m e) (denominator e) in
  let Nq := fst (scaled (numerator m e) (denominator e) (n - 17)) in
  let Dq := snd (scaled (numerator m e) (denominator e) (n - 17)) in
  0 < Dq
  /\ 10 ^ 16 * Dq <= Nq < 10 ^ 17 * Dq
  /\ Z.pos m * (2 ^ (e + 1074) * 10 ^ 417) * Dq
     = Nq * (10 ^ (n + 400) * 2 ^ 1074)
  /\ -399 <= n.
Proof.
  intros Hb n.
  destruct (decimal_exponent_spec m e Hb) as (Hup & Hdown & Hn). fold n in Hup, Hdown, Hn.
  destruct (bounded_inv m e Hb) as (_ & He & _).
  pose proof (numerator_pos m e) as HN. pose proof (denominator_pos e) as HD.
  pose proof (numerator_offset m e ltac:(lia)) as Hoff.
  set (N := numerator m e) in *. set (D := denominator e) in *.
  apply (below_pow10_offset N D n 417) in Hup; [|lia|lia].
  assert (Hdown' : 10 ^ (n - 1 + 417) * D <= N * 10 ^ 417).
  { destruct (Z_le_gt_dec (10 ^ (n - 1 + 417) * D) (N * 10 ^ 417)) as [H|H];
      [exact H|].
    apply Z.gt_lt in H. apply (below_pow10_offset N D (n - 1) 417) in H; [|lia|lia].
    congruence. }
  assert (H400 : 0 < 10 ^ (n + 400)) by (apply Z.pow_pos_nonneg; lia).
  replace (n + 417) with (17 + (n + 400)) in Hup by lia.
  replace (n - 1 + 417) with (16 + (n + 400)) in Hdown' by lia.
  rewrite Z.pow_add_r in Hup, Hdown' by lia.
  unfold scaled. destruct (Z.leb_spec 0 (n - 17)) as [Hc|Hc]; cbn [fst snd].
  - assert (Hp : 0 < 10 ^ (n - 17)) by (apply Z.pow_pos_nonneg; lia).
    assert (E1 : 10 ^ (n + 400) = 10 ^ (n - 17) * 10 ^ 417).
    { rewrite <- Z.pow_add_r by lia. f_equal. lia. }
    rewrite E1 in *.
    assert (HT : 0 < 10 ^ 417) by (apply Z.pow_pos_nonneg; lia).
    split; [nia|]. split; [|split; [|exact Hn]].
    + revert Hup Hdown' HT. generalize (10 ^ 417), (10 ^ (n - 17)), (10 ^ 16), (10 ^ 17).
      intros t p a b Hup Hdown' HT. split; nia.
    + replace (Z.pos m * (2 ^ (e + 1074) * 10 ^ 417) * (D * 10 ^ (n - 17)))
        with (Z.pos m * 2 ^ (e + 1074) * D * (10 ^ (n - 17) * 10 ^ 417)) by ring.
      rewrite <- Hoff. ring.
  - assert (Hp : 0 < 10 ^ (- (n - 17))) by (apply Z.pow_pos_nonneg; lia).
    assert (E1 : 10 ^ 417 = 10 ^ (- (n - 17)) * 10 ^ (n + 400)).
    { rewrite <- Z.pow_add_r by lia. f_equal. lia. }
    rewrite E1 in *.
    split; [lia|]. split; [|split; [|exact Hn]].
    + revert Hup Hdown' H400 Hp.
      generalize (10 ^ (n + 400)), (10 ^ (- (n - 17))), (10 ^ 16), (10 ^ 17).
      intros t p a b Hup Hdown' HT Hp. split; nia.
    + replace (Z.pos m * (2 ^ (e + 1074) * (10 ^ (- (n - 17)) * 10 ^ (n + 400))) * D)
        with (Z.pos m * 2 ^ (e + 1074) * D * (10 ^ (- (n - 17)) * 10 ^ (n + 400)))
        by ring.
      rewrite <- Hoff. ring.
Qed.

(** Seventeen digits are enough to denote a Number: one of the two decimals
    of seventeen digits next to it has it as its value. *)
Lemma candidates_17 (m : positive) (e : Z) :
  bounded prec emax m e = true -> candidates m e 17 <> [].
Proof.
  intros Hb.
  destruct (bounded_inv m e Hb) as (Hdm & He & _).
  destruct (digits2_pos_bounds m) as [_ Hm2].
  assert (Hm53 : Z.pos m < 2 ^ 53).
  { apply Z.lt_le_trans with (1 := Hm2). apply Z.pow_le_mono_r; lia. }
  clear Hm2 Hdm.
  destruct (scaled_17 m e Hb) as (HDq & [Hlo Hhi] & Hstar & Hn).
  unfold candidates.
  set (n := decimal_exponent (numerator m e) (denominator e)) in *.
  destruct (scaled (numerator m e) (denominator e) (n - 17)) as [Nq Dq].
  cbn [fst snd] in *.
  pose proof (Z.div_mod Nq Dq ltac:(lia)) as Hdm.
  pose proof (Z.mod_pos_bound Nq Dq HDq) as Hr.
  set (s := Nq / Dq) in *. set (r := Nq mod Dq) in *.
  assert (Hs : 10 ^ 16 <= s < 10 ^ 17).
  { split; [apply Z.div_le_lower_bound; lia|apply Z.div_lt_upper_bound; lia]. }
  set (x := S754_finite false m e).
  set (X := 2 ^ (e + 1074) * 10 ^ 417) in *.
  set (Y := 10 ^ (n + 400) * 2 ^ 1074) in *.
  assert (HY : 0 < Y).
  { unfold Y. apply Z.mul_pos_pos; apply Z.pow_pos_nonneg; lia. }
  assert (Hstar' : Z.pos m * X * Dq = Nq * Y) by exact Hstar.
  assert (HXdef : 2 ^ (e + 1074) * 10 ^ 417 = X) by reflexivity.
  assert (HYdef : forall u, u * 10 ^ (n + 400) * 2 ^ 1074 = u * Y)
    by (intros u; unfold Y; ring).
  clearbody X Y. clear Hstar.
  assert (H16 : 2 ^ 53 < 10 ^ 16) by reflexivity.
  assert (Hm16 : Z.pos m * Dq < Nq) by nia.
  assert (Hlo_ok : 2 * r <= Dq -> represents x 17 (s, n) = true).
  { intros Hhalf. unfold represents. change (17 - 1) with 16.
    replace (10 ^ 16 <=? s) with true by (symmetry; apply Z.leb_le; lia).
    replace (s <? 10 ^ 17) with true by (symmetry; apply Z.ltb_lt; lia).
    cbn [andb].
    rewrite (decimal_rounds m e s (n - 17) Hb); [apply number_eqb_refl|lia|lia| | |];
      replace (n - 17 + 417) with (n + 400) by lia;
      rewrite HYdef, HXdef.
    - rewrite Z.mul_assoc.
      apply (transfer_lt (Z.pos m) X Dq Nq Y); try assumption; try lia; nia.
    - rewrite Z.mul_assoc.
      apply (transfer_gt (Z.pos m) X Dq Nq Y); try assumption; try lia; nia.
    - intros Hm He1. rewrite Z.mul_assoc.
      assert (2 * Z.pos m * Dq < Nq) by (rewrite Hm; nia).
      apply (transfer_lt (Z.pos m) X Dq Nq Y); try assumption; try lia; nia. }
  assert (Hval : forall s' j,
            0 < s' -> -417 <= j ->
            s' * 10 ^ (j + 417) = (s + 1) * 10 ^ (n + 400) ->
            Dq <= 2 * r ->
            number_of_decimal false s' j = x).
  { intros s' j Hs' Hj HU Hhalf.
    apply (decimal_rounds m e s' j Hb); [lia|lia| | |];
      rewrite HU, HYdef, HXdef.
    - rewrite Z.mul_assoc.
      apply (transfer_lt (Z.pos m) X Dq Nq Y); try assumption; try lia; nia.
    - rewrite Z.mul_assoc.
      apply (transfer_gt (Z.pos m) X Dq Nq Y); try assumption; try lia; nia.
    - intros Hm He1. rewrite Z.mul_assoc.
      apply (transfer_lt (Z.pos m) X Dq Nq Y); try assumption; try lia; nia. }
  assert (Hhi_ok : Dq <= 2 * r ->
            represents x 17
              (if s + 1 =? 10 ^ 17 then (10 ^ (17 - 1), n + 1) else (s + 1, n))
            = true).
  { intros Hhalf. destruct (Z.eqb_spec (s + 1) (10 ^ 17)) as [E|E].
    - unfold represents. change (17 - 1) with 16.
      replace (10 ^ 16 <=? 10 ^ 16) with true by reflexivity.
      replace (10 ^ 16 <? 10 ^ 17) with true by reflexivity.
      cbn [andb].
      rewrite (Hval (10 ^ 16) (n + 1 - 17)); [apply number_eqb_refl|lia|lia| |exact Hhalf].
      rewrite E. replace (n + 1 - 17 + 417) with (1 + (n + 400)) by lia.
      rewrite Z.pow_add_r by lia.
      change (10 ^ 17) with (10 ^ 16 * 10 ^ 1). ring.
    - unfold represents. change (17 - 1) with 16.
      replace (10 ^ 16 <=? s + 1) with true by (symmetry; apply Z.leb_le; lia).
      replace (s + 1 <? 10 ^ 17) with true by (symmetry; apply Z.ltb_lt; lia).
      cbn [andb].
      rewrite (Hval (s + 1) (n - 17)); [apply number_eqb_refl|lia|lia| |exact Hhalf].
      f_equal. f_equal. lia. }
  fold s r x.
  set (lo := (s, n)) in *.
  set (hi := if s + 1 =? 10 ^ 17 then (10 ^ (17 - 1), n + 1) else (s + 1, n)) in *.
  assert (Hin : forall l, In lo l -> In hi l ->
            filter (represents x 17) l <> []).
  { intros l Hl Hh Hnil.
    destruct (Z_le_gt_dec (2 * r) Dq) as [H|H].
    - assert (Hf : In lo (filter (represents x 17) l))
        by (apply filter_In; split; [exact Hl|apply Hlo_ok, H]).
      rewrite Hnil in Hf. destruct Hf.
    - assert (Hf : In hi (filter (represents x 17) l))
        by (apply filter_In; split; [exact Hh|apply Hhi_ok; lia]).
      rewrite Hnil in Hf. destruct Hf. }
  destruct (2 * r ?= Dq); [destruct (Z.even s)| |]; apply Hin; cbn; auto.
Qed.

Lemma shortest_from_found (fuel : nat) (m : positive) (e k : Z) :
  candidates m e (k + Z.of_nat fuel) <> [] ->
  exists k', k <= k' <= k + Z.of_nat fuel
    /\ In (shortest_from fuel m e k) (candidates m e k').
Proof.
  revert k; induction fuel as [|fuel IH]; intros k Hne.
  - cbn [shortest_from]. replace (k + Z.of_nat 0) with k in Hne by lia.
    destruct (candidates m e k) as [|c l] eqn:E; [contradiction|].
    exists k. split; [lia|]. rewrite E. left. reflexivity.
  - cbn [shortest_from]. destruct (candidates m e k) as [|c l] eqn:E.
    + destruct (IH (k + 1)) as (k' & Hk' & Hin).
      { replace (k + 1 + Z.of_nat fuel) with (k + Z.of_nat (S fuel)) by lia.
        exact Hne. }
      exists k'. split; [lia|exact Hin].
    + exists k. split; [lia|]. rewrite E. left. reflexivity.
Qed.

(** Step 5 of Number::toString: the digits found denote the Number. *)
Lemma shortest_spec (m : positive) (e : Z) :
  bounded prec emax m e = true ->
  exists k,
    1 <= k <= 17
    /\ 10 ^ (k - 1) <= fst (shortest m e) < 10 ^ k
    /\ number_of_decimal false (fst (shortest m e)) (snd (shortest m e) - k)
       = S754_finite false m e.
Proof.
  intros Hb. unfold shortest.
  destruct (shortest_from_found 16 m e 1) as (k & Hk & Hin).
  { change (1 + Z.of_nat 16) with 17. apply candidates_17, Hb. }
  change (1 + Z.of_nat 16) with 17 in Hk.
  exists k. split; [exact Hk|].
  unfold candidates in Hin.
  destruct (scaled _ _ _) as [Nq Dq] in Hin.
  apply filter_In in Hin as [_ Hrep].
  destruct (shortest_from 16 m e 1) as [d n]. cbn [fst snd].
  unfold represents in Hrep.
  apply andb_true_iff in Hrep as [Hrange Heq].
  apply andb_true_iff in Hrange as [H1 H2].
  apply Z.leb_le in H1. apply Z.ltb_lt in H2.
  split; [lia|]. apply number_eqb_eq, Heq.
Qed.

(** *** What Number::toString writes is read back *)

(** Digits, a fraction or none, and an exponent with its sign are scanned
    whole. *)
Lemma parse_exponent_text (ip fp ds : string) (point neg : bool) :
  all_digits ip = true -> 0 < len ip ->
  all_digits fp = true -> (point = false -> fp = "") ->
  all_digits ds = true -> 0 < len ds ->
  parse_float_string
    (ip ++ (if point then "." ++ fp else "")
        ++ "e" ++ (if neg then "-" else "+") ++ ds)
  = number_of_decimal false (digits_value (ip ++ fp))
      ((if neg then - digits_value ds else digits_value ds) - len fp).
Proof.
  intros Hip Hlen Hfp Hpoint Hds Hlds.
  set (ex := "e" ++ (if neg then "-" else "+") ++ ds).
  set (rest := (if point then "." ++ fp else "") ++ ex).
  destruct (len_pos_head ip Hlen) as (c & r & Hipe).
  assert (Hc : is_digit c = true).
  { rewrite Hipe in Hip. cbn [all_digits] in Hip.
    apply andb_true_iff in Hip as [Hc _]. exact Hc. }
  assert (Hrest : starts_nondigit rest).
  { unfold rest, ex. destruct point; reflexivity. }
  assert (Hexp : scan_exponent ex = (Some (neg, ds), "")).
  { unfold ex. cbn [append scan_exponent].
    change (is_exponent_indicator "e") with true. cbn iota.
    assert (Hsplit : split_sign ((if neg then "-" else "+") ++ ds) = (neg, ds))
      by (destruct neg; reflexivity).
    rewrite Hsplit.
    rewrite <- (append_empty_r ds) at 1. rewrite (span_digits_app ds "" Hds I).
    replace (len ds =? 0) with false by (symmetry; apply Z.eqb_neq; lia).
    reflexivity. }
  assert (Hfrac : scan_fraction ip rest = (fp, ex)).
  { unfold scan_fraction, rest. destruct point.
    - cbn [append strip_point].
      rewrite (span_digits_app fp ex Hfp) by reflexivity.
      replace (len ip =? 0) with false by (symmetry; apply Z.eqb_neq; lia).
      reflexivity.
    - rewrite (Hpoint eq_refl). reflexivity. }
  assert (Hdec : scan_decimal (ip ++ rest)
                 = Some (LDecimal ip fp (Some (neg, ds)), "")).
  { unfold scan_decimal. rewrite (span_digits_app ip rest Hip Hrest), Hfrac.
    replace (len ip =? 0) with false by (symmetry; apply Z.eqb_neq; lia).
    cbn [andb]. rewrite Hexp. reflexivity. }
  assert (Huns : scan_unsigned (ip ++ rest)
                 = Some (LDecimal ip fp (Some (neg, ds)), "")).
  { unfold scan_unsigned.
    assert (Hpre : String.prefix "Infinity" (ip ++ rest) = false).
    { rewrite Hipe. cbn [append]. apply prefix_head, digit_not_I, Hc. }
    rewrite Hpre. exact Hdec. }
  assert (Hstart : literal_start c = true).
  { unfold literal_start, unsigned_start. rewrite Hc. reflexivity. }
  unfold parse_float_string.
  assert (Htrim : TrimStart (ip ++ rest) = ip ++ rest).
  { rewrite Hipe. cbn [append]. apply (TrimStart_literal_start c _ Hstart). }
  rewrite Htrim. unfold scan_literal.
  assert (Hsplit : split_sign (ip ++ rest) = (false, ip ++ rest)).
  { rewrite Hipe. cbn [append]. apply split_sign_unsigned_start.
    unfold unsigned_start. rewrite Hc. reflexivity. }
  rewrite Hsplit, Huns. unfold literal_value.
  rewrite digits_value_app. destruct neg; reflexivity.
Qed.

Lemma decimal_digits_len (d k : Z) :
  1 <= k -> 10 ^ (k - 1) <= d < 10 ^ k -> len (decimal_digits d) = k.
Proof.
  intros Hk [Hlo Hhi].
  assert (Hd : 0 < d).
  { apply Z.lt_le_trans with (2 := Hlo). apply Z.pow_pos_nonneg; lia. }
  destruct (decimal_digits_spec d ltac:(lia)) as (Hall & _ & Hval & Hhead).
  destruct (Hhead Hd) as (c & r & Heq & Hc).
  rewrite Heq in *.
  destruct (leading_digit_bounds c r Hall Hc) as [L U]. rewrite Hval in L, U.
  pose proof (len_nonneg r).
  assert (H1 : len r < k) by (apply (Z.pow_lt_mono_r_iff 10); lia).
  assert (H2 : k - 1 < len r + 1) by (apply (Z.pow_lt_mono_r_iff 10); lia).
  rewrite len_cons. lia.
Qed.

Lemma len_zeros (j : nat) : len (zeros j) = Z.of_nat j.
Proof. unfold len. rewrite length_zeros. reflexivity. Qed.

Lemma digits_value_zeros_only (j : nat) : digits_value (zeros j) = 0.
Proof.
  rewrite <- (append_empty_r (zeros j)), digits_value_zeros. reflexivity.
Qed.

Lemma all_digits_take_drop (j : nat) (s : string) :
  all_digits s = true ->
  all_digits (take j s) = true /\ all_digits (drop j s) = true.
Proof.
  intros H. rewrite <- (take_drop_append j s), all_digits_app in H.
  apply andb_true_iff in H. exact H.
Qed.

Lemma len_take (j : nat) (s : string) :
  Z.of_nat j <= len s -> len (take j s) = Z.of_nat j.
Proof.
  unfold len. intros H. rewrite length_take; [reflexivity|lia].
Qed.

Lemma len_drop (j : nat) (s : string) :
  Z.of_nat j <= len s -> len (drop j s) = len s - Z.of_nat j.
Proof.
  intros H. pose proof (len_take j s H) as Ht.
  pose proof (len_app (take j s) (drop j s)) as Ha.
  rewrite take_drop_append in Ha. lia.
Qed.

Lemma exponent_text_spec (x : Z) :
  exists ds,
    exponent_text x = (if x <? 0 then "-" else "+") ++ ds
    /\ all_digits ds = true /\ 0 < len ds
    /\ (if x <? 0 then - digits_value ds else digits_value ds) = x.
Proof.
  exists (decimal_digits (Z.abs x)).
  destruct (decimal_digits_spec (Z.abs x) ltac:(lia)) as (H1 & H2 & H3 & _).
  split; [reflexivity|]. split; [exact H1|]. split; [exact H2|].
  rewrite H3. destruct (Z.ltb_spec x 0); lia.
Qed.

(** The text written for the digits [d] and the exponent [n] has the value
    [d * 10 ^ (n - k)], for [k] the number of digits. *)
Lemma format_parse (d n k : Z) :
  1 <= k -> 10 ^ (k - 1) <= d < 10 ^ k ->
  parse_float_string (format_decimal (decimal_digits d) n)
  = number_of_decimal false d (n - k).
Proof.
  intros Hk Hd.
  assert (Hd0 : 0 < d).
  { apply Z.lt_le_trans with (2 := proj1 Hd). apply Z.pow_pos_nonneg; lia. }
  destruct (decimal_digits_spec d ltac:(lia)) as (Hall & Hpos & Hval & _).
  pose proof (decimal_digits_len d k Hk Hd) as Hlen.
  set (ds := decimal_digits d) in *.
  unfold format_decimal. rewrite Hlen.
  destruct ((k <=? n) && (n <=? 21)) eqn:B1.
  { apply andb_true_iff in B1 as [B1 _]. apply Z.leb_le in B1.
    rewrite parse_digits_text.
    - rewrite digits_value_app, len_zeros, digits_value_zeros_only, Hval.
      rewrite Z2Nat.id by lia. unfold number_of_decimal.
      replace (0 <=? n - k) with true by (symmetry; apply Z.leb_le; lia).
      cbn [Z.leb Z.compare]. rewrite Z.pow_0_r. f_equal. ring.
    - rewrite all_digits_app, Hall, all_digits_zeros. reflexivity.
    - rewrite len_app, len_zeros. lia. }
  destruct ((0 <? n) && (n <=? 21)) eqn:B2.
  { apply andb_true_iff in B2 as [B2 B2']. apply Z.ltb_lt in B2.
    apply Z.leb_le in B2'.
    assert (Hnk : n < k).
    { apply andb_false_iff in B1 as [B1|B1];
        [apply Z.leb_gt in B1; lia|apply Z.leb_gt in B1; lia]. }
    destruct (all_digits_take_drop (Z.to_nat n) ds Hall) as [Ht Hdr].
    assert (Hlt : len (take (Z.to_nat n) ds) = n)
      by (rewrite len_take; rewrite Z2Nat.id; lia).
    assert (Hld : len (drop (Z.to_nat n) ds) = k - n)
      by (rewrite len_drop; rewrite Z2Nat.id; lia).
    pose proof (parse_fixed_text "" _ _ (or_introl eq_refl) Ht ltac:(lia) Hdr)
      as Hp.
    rewrite take_drop_append, Hval, Hld in Hp.
    cbn [append String.eqb] in Hp |- *. rewrite Hp. f_equal. lia. }
  destruct ((-6 <? n) && (n <=? 0)) eqn:B3.
  { apply andb_true_iff in B3 as [B3 B3']. apply Z.ltb_lt in B3.
    apply Z.leb_le in B3'.
    assert (Hfp : all_digits (zeros (Z.to_nat (- n)) ++ ds) = true)
      by (rewrite all_digits_app, Hall, all_digits_zeros; reflexivity).
    pose proof (parse_fixed_text "" "0" _ (or_introl eq_refl) eq_refl
                  ltac:(reflexivity) Hfp) as Hp.
    change ("0" ++ zeros (Z.to_nat (- n)) ++ ds)
      with (zeros (S (Z.to_nat (- n))) ++ ds) in Hp.
    rewrite digits_value_zeros, Hval, len_app, len_zeros, Hlen in Hp.
    rewrite Z2Nat.id in Hp by lia.
    cbn [append String.eqb] in Hp |- *. rewrite Hp. f_equal. lia. }
  destruct (exponent_text_spec (n - 1)) as (dx & -> & Hdx & Hldx & Hvx).
  destruct (k =? 1) eqn:B4.
  { apply Z.eqb_eq in B4.
    pose proof (parse_exponent_text ds "" dx false (n - 1 <? 0) Hall
                  ltac:(lia) eq_refl (fun _ => eq_refl) Hdx Hldx) as Hp.
    rewrite (append_empty_r ds), Hval, Hvx in Hp. change (len "") with 0 in Hp.
    cbn [append] in Hp |- *. rewrite Hp. f_equal. lia. }
  apply Z.eqb_neq in B4.
  destruct (all_digits_take_drop 1 ds Hall) as [Ht Hdr].
  assert (Hlt : len (take 1 ds) = 1) by (rewrite len_take; [reflexivity|lia]).
  assert (Hld : len (drop 1 ds) = k - 1)
    by (rewrite len_drop; [change (Z.of_nat 1) with 1; lia|lia]).
  pose proof (parse_exponent_text (take 1 ds) (drop 1 ds) dx true (n - 1 <? 0)
                Ht ltac:(lia) Hdr ltac:(discriminate) Hdx Hldx) as Hp.
  rewrite take_drop_append, Hval, Hvx, Hld in Hp.
  cbn [append] in Hp |- *. rewrite Hp. f_equal. lia.
Qed.

(** The text of a Number is read back as that Number; of the two zeros,
    as the positive one. *)
Lemma Number_toString_parses (x : number) :
  binary64 x = true ->
  parse_float_string (Number_toString x)
  = match x with
    | S754_zero _ => S754_zero false
    | _ => x
    end.
Proof.
  intros Hb. destruct x as [s|s| |s m e].
  - reflexivity.
  - destruct s; reflexivity.
  - reflexivity.
  - cbn [binary64 valid_binary] in Hb.
    destruct (shortest_spec m e Hb) as (k & Hk & Hrange & Hvalue).
    unfold Number_toString. destruct (shortest m e) as [d n].
    cbn [fst snd] in Hrange, Hvalue.
    pose proof (format_parse d n k ltac:(lia) Hrange) as Hparse.
    rewrite Hvalue in Hparse.
    destruct s; [|exact Hparse].
    destruct (format_decimal_head (decimal_digits d) n (decimal_digits_head d))
      as (c & r & Heq & Hc).
    rewrite parse_float_string_minus, Hparse; [reflexivity| |].
    + rewrite Heq. apply TrimStart_literal_start.
      unfold literal_start, unsigned_start. rewrite Hc. reflexivity.
    + rewrite Heq. apply split_sign_unsigned_start.
      unfold unsigned_start. rewrite Hc. reflexivity.
Qed.

(** ** The formatter on every input representable as a number *)

(** What [parseFloat] makes of an input representable as a number: its
    value, with the negative zero read as the positive one. *)
Lemma parseFloat_input_value (amount : value) :
  numeric_input amount = true ->
  binary64_input amount = true ->
  parseFloat amount
  = Normal match input_value amount with
           | S754_zero _ => S754_zero false
           | x => x
           end
    \/ exists s, amount = VStr s
                 /\ parseFloat amount = Normal (input_value amount).
Proof.
  intros Hnum Hb. destruct amount as [| |b|x|z|s|d]; try discriminate Hnum.
  - left. cbn [binary64_input] in Hb. cbn [input_value].
    unfold parseFloat. cbn [ToString bind].
    rewrite (Number_toString_parses x Hb). destruct x; reflexivity.
  - right. exists s. split; reflexivity.
Qed.

(** C1 (as amended): for every input representable as a number (a binary64
    Number other than NaN, or numeric text) whose value is finite and of
    magnitude below 10^21, the result is the glyph, a minus sign when the
    value is negative, one digit or more, a point and exactly two digits;
    the digits spell the integer nearest to a hundred times the magnitude of
    the value, the larger one when two are equally near. *)
Theorem formatCurrency_two_decimals (amount : value) :
  numeric_input amount = true ->
  binary64_input amount = true ->
  fixed_range (input_value amount) = true ->
  exists ip fp,
    formatCurrency amount
    = Normal ("₹" ++ (if is_negative (input_value amount) then "-" else "")
              ++ ip ++ "." ++ fp)
    /\ all_digits ip = true /\ 0 < len ip
    /\ all_digits fp = true /\ len fp = 2
    /\ two_decimal_form
         ("₹" ++ (if is_negative (input_value amount) then "-" else "")
          ++ ip ++ "." ++ fp) = true
    /\ (2 * digits_value (ip ++ fp) - 1) * abs_denominator (input_value amount)
       <= 200 * abs_numerator (input_value amount)
       < (2 * digits_value (ip ++ fp) + 1) * abs_denominator (input_value amount).
Proof.
  intros Hnum Hb Hrange.
  assert (Hparse : exists x,
    parseFloat amount = Normal x /\ fixed_range x = true
    /\ is_negative x = is_negative (input_value amount)
    /\ abs_numerator x = abs_numerator (input_value amount)
    /\ abs_denominator x = abs_denominator (input_value amount)).
  { destruct (parseFloat_input_value amount Hnum Hb) as [H | (s & _ & H)].
    - eexists. split; [exact H|].
      destruct (input_value amount); repeat split; try reflexivity;
        exact Hrange.
    - exists (input_value amount). repeat split; [exact H|exact Hrange]. }
  destruct Hparse as (x & Hparse & Hx & <- & <- & <-).
  exact (parsed_two_decimals amount x Hparse Hx).
Qed.

Lemma formatCurrency_two_decimals_witness :
  exists ip fp,
    formatCurrency (VNum n12_345)
    = Normal ("₹" ++ (if is_negative (input_value (VNum n12_345)) then "-" else "")
              ++ ip ++ "." ++ fp)
    /\ all_digits ip = true /\ 0 < len ip
    /\ all_digits fp = true /\ len fp = 2
    /\ two_decimal_form
         ("₹" ++ (if is_negative (input_value (VNum n12_345)) then "-" else "")
          ++ ip ++ "." ++ fp) = true
    /\ (2 * digits_value (ip ++ fp) - 1)
       * abs_denominator (input_value (VNum n12_345))
       <= 200 * abs_numerator (input_value (VNum n12_345))
       < (2 * digits_value (ip ++ fp) + 1)
         * abs_denominator (input_value (VNum n12_345)).
Proof.
  apply (formatCurrency_two_decimals (VNum n12_345));
    vm_compute; reflexivity.
Defined.

(** C1 (as stated) fails: the Number 1e21 is written in exponent
    notation. *)
Lemma formatCurrency_two_decimals_counterexample :
  ~ (forall amount : value,
       numeric_input amount = true ->
       exists s, formatCurrency amount = Normal s /\ two_decimal_form s = true).
Proof.
  intros H. destruct (H (VNum n1e21) eq_refl) as (s & Hs & Hform).
  vm_compute in Hs. injection Hs as <-. vm_compute in Hform. discriminate.
Qed.

(** X17: on a binary64 Number [parseFloat] is the identity, the negative
    zero apart, which it reads as the positive one: the text that
    Number::toString writes denotes the Number it was written for. So
    [formatCurrency] of a Number is the glyph before [toFixed(2)] of that
    very Number. *)
Theorem formatCurrency_of_Number (x : number) :
  binary64 x = true ->
  parseFloat (VNum x)
  = Normal match x with
           | S754_zero _ => S754_zero false
           | _ => x
           end
  /\ formatCurrency (VNum x)
     = (s <- toFixed x 2 ;; Normal ("₹" ++ s))%completion.
Proof.
  intros Hb.
  assert (Hparse : parseFloat (VNum x)
                   = Normal match x with
                            | S754_zero _ => S754_zero false
                            | _ => x
                            end).
  { unfold parseFloat. cbn [ToString bind].
    rewrite (Number_toString_parses x Hb). reflexivity. }
  split; [exact Hparse|].
  unfold formatCurrency. rewrite Hparse. cbn [bind].
  destruct x as [[|]|s| |s m e]; reflexivity.
Qed.

Lemma formatCurrency_of_Number_witness :
  parseFloat (VNum n9_999) = Normal n9_999
  /\ formatCurrency (VNum n9_999)
     = (s <- toFixed n9_999 2 ;; Normal ("₹" ++ s))%completion.
Proof.
  apply (formatCurrency_of_Number n9_999). vm_compute. reflexivity.
Defined.

(** X18: outside the fixed range (magnitude 10^21 or more, or infinite) the
    result of an input representable as a number is the glyph before the
    text Number::toString writes for the value. *)
Theorem formatCurrency_out_of_range (amount : value) :
  numeric_input amount = true ->
  binary64_input amount = true ->
  fixed_range (input_value amount) = false ->
  formatCurrency amount
  = Normal ("₹" ++ Number_toString (input_value amount)).
Proof.
  intros Hnum Hb Hrange.
  assert (Hparse : parseFloat amount = Normal (input_value amount)).
  { destruct (parseFloat_input_value amount Hnum Hb) as [H | (s & _ & H)];
      [|exact H].
    rewrite H. destruct (input_value amount); try reflexivity.
    discriminate Hrange. }
  unfold formatCurrency. rewrite Hparse. cbn [bind].
  destruct (input_value amount) as [s|s| |s m e].
  - discriminate Hrange.
  - destruct s; reflexivity.
  - reflexivity.
  - cbn [fixed_range] in Hrange. apply Z.ltb_ge in Hrange.
    rewrite toFixed_finite.
    replace (10 ^ 21 * denominator e <=? numerator m e) with true
      by (symmetry; apply Z.leb_le; exact Hrange).
    cbn [bind]. unfold Number_toString. destruct (shortest m e) as [d n].
    destruct s; reflexivity.
Qed.

Lemma formatCurrency_out_of_range_witness :
  formatCurrency (VStr "1e21")
  = Normal ("₹" ++ Number_toString (input_value (VStr "1e21"))).
Proof.
  apply (formatCurrency_out_of_range (VStr "1e21")); vm_compute; reflexivity.
Defined.

Example formatCurrency_1e21 :
  formatCurrency (VNum n1e21) = Normal "₹1e+21"
  /\ formatCurrency (VStr "-Infinity") = Normal "₹-Infinity".
Proof. split; vm_compute; reflexivity. Qed.
